(** * The virtual LED-matrix display engine of the CYD retro clock

    A shallow embedding of the display core of [src/cyd_tft_clock.cpp]:
    the 64-byte frame buffer [scr], the bitmap-font blitter
    ([charWidth], [drawCharWithY]), the pixel renderer ([drawLEDPixel],
    [dimRGB565]), the change-tracking refresh ([refreshAll]), the three
    mode composers ([displayTimeAndTemp], [displayTimeLarge],
    [displayTimeAndDate]) and the [/style] request handler.

    The source tree holds two revisions of the program: version 3.0 in
    [src/src/cyd_tft_clock.cpp] and a later one in the second half of
    [src/unnamed/part_000].  The frame buffer operations, the blitter,
    [dimRGB565], [refreshAll], [showMessage] and the colour branches of
    [/style] are the same text in both.  The three mode composers and
    [formatDate] are embedded from the later revision, the one the
    README and the CHANGELOG describe, and so is [updateTime];
    [drawLEDPixel] and the [/style] handler are embedded from version
    3.0, and line numbers without a file name refer to that file.

    Conventions.
    - A C [int] is a [Z].  Signed overflow has no defined result in C++,
      and every [int] expression below stays far from 2^31 on the values
      the program computes with, so no wrap-around is written for [int].
      C's [/] and [%] on [int] are [Z.quot] and [Z.rem].
    - [uint8_t]/[byte] and [uint16_t] values are [Z] in [0,2^8) and
      [0,2^16); where C truncates on conversion, the truncation is written.
    - A C array is the memory around it: a total map from the index to the
      stored byte.  Only indices [0..63] belong to [scr]; a store at any
      other index would land in a neighbouring object.
    - The font tables of [fonts.h] are not among the verified sources; they
      are parameters (lists of bytes in the layout the blitter reads). *)

From Stdlib Require Import ZArith List Lia Bool Ascii String DecimalString.
Import ListNotations.
Local Open Scope Z_scope.

(** ** Constants of the source *)

Definition LINE_WIDTH : Z := 32.
Definition DISPLAY_ROWS : Z := 2.
Definition TOTAL_WIDTH : Z := 32.
Definition TOTAL_HEIGHT : Z := 16.
Definition LED_SIZE : Z := 10.
Definition BG_COLOR : Z := 0x0000.
Definition DISPLAY_WIDTH : Z := LED_SIZE * TOTAL_WIDTH.
Definition DISPLAY_HEIGHT : Z := LED_SIZE * TOTAL_HEIGHT + 4.

Definition COLOR_RED : Z := 0xF800.
Definition COLOR_GREEN : Z := 0x07E0.
Definition COLOR_BLUE : Z := 0x001F.
Definition COLOR_YELLOW : Z := 0xFFE0.
Definition COLOR_CYAN : Z := 0x07FF.
Definition COLOR_MAGENTA : Z := 0xF81F.
Definition COLOR_WHITE : Z := 0xFFFF.
Definition COLOR_ORANGE : Z := 0xFD20.
Definition COLOR_DARK_GRAY : Z := 0x7BEF.
Definition COLOR_LIGHT_GRAY : Z := 0xC618.

(** ** Counting loops

    [for_range lo hi body s] is [for (int i = lo; i < hi; i++) body],
    for a body that assigns neither [i] nor [hi]. *)

Fixpoint for_loop {S : Type} (n : nat) (i : Z) (body : Z -> S -> S) (s : S) : S :=
  match n with
  | O => s
  | Datatypes.S n' => for_loop n' (i + 1) body (body i s)
  end.

Definition for_range {S : Type} (lo hi : Z) (body : Z -> S -> S) (s : S) : S :=
  for_loop (Z.to_nat (hi - lo)) lo body s.

(** ** Byte arrays in memory *)

Definition Mem : Type := Z -> Z.

Definition store (k v : Z) (m : Mem) : Mem :=
  fun i => if i =? k then v else m i.

(** The bytes of an array of [n] cells, in index order. *)
Definition snapshot (n : nat) (m : Mem) : list Z :=
  map (fun k => m (Z.of_nat k)) (seq 0 n).

(** ** Fonts

    [pgm_read_byte(font + k)]: the byte at offset [k] of the table.  The
    result type is [uint8_t].  Offsets before the table or past its end
    read flash that is not part of the table; they are read as 0. *)

Definition pgm_read_byte (font : list Z) (k : Z) : Z :=
  if k <? 0 then 0 else (nth (Z.to_nat k) font 0) mod 256.

Definition charWidth (c : Z) (font : list Z) : Z :=
  let firstChar := pgm_read_byte font 2 in
  let lastChar := pgm_read_byte font 3 in
  if (c <? firstChar) || (c >? lastChar) then 0 else
  let charIndex := c - firstChar in
  let offset :=
    for_range 0 charIndex
      (fun _ offset =>
         let w := pgm_read_byte font offset in
         offset + (w * pgm_read_byte font 1 + 1))
      4 in
  pgm_read_byte font offset.

(** Offset of the record of character [c] in the table, as
    [drawCharWithY] computes it: [4 + (c - offs) * (fht8 * fwd + 1)]. *)
Definition glyphOffset (c : Z) (font : list Z) : Z :=
  let fwd := pgm_read_byte font 0 in
  let fht := pgm_read_byte font 1 in
  let offs := pgm_read_byte font 2 in
  let fht8 := Z.quot (fht + 7) 8 in
  4 + (c - offs) * (fht8 * fwd + 1).

Definition drawCharWithY (x yPos c : Z) (font : list Z) (scr : Mem) : Z * Mem :=
  let fwd := pgm_read_byte font 0 in
  let fht := pgm_read_byte font 1 in
  let offs := pgm_read_byte font 2 in
  let last := pgm_read_byte font 3 in
  if (c <? offs) || (c >? last) then (0, scr) else
  let fht8 := Z.quot (fht + 7) 8 in
  let glyph := glyphOffset c font in
  let w := pgm_read_byte font glyph in
  let scr :=
    for_range 0 fht8
      (fun j scr =>
         let scr :=
           for_range 0 w
             (fun i scr =>
                if (x + i >=? 0) && (x + i <? LINE_WIDTH) then
                  let bufferIndex := x + LINE_WIDTH * (j + yPos) + i in
                  if (bufferIndex >=? 0) && (bufferIndex <? LINE_WIDTH * DISPLAY_ROWS)
                  then store bufferIndex (pgm_read_byte font (glyph + 1 + fht8 * i + j)) scr
                  else scr
                else scr)
             scr in
         (* the inner loop leaves [i = w], a byte *)
         let i := w in
         if (x + i <? LINE_WIDTH) && (x + i >=? 0) then
           let bufferIndex := x + LINE_WIDTH * (j + yPos) + i in
           if (bufferIndex >=? 0) && (bufferIndex <? LINE_WIDTH * DISPLAY_ROWS)
           then store bufferIndex 0 scr
           else scr
         else scr)
      scr in
  (w, scr).

Definition drawChar (x c : Z) (font : list Z) (scr : Mem) : Z * Mem :=
  drawCharWithY x 0 c font scr.

(** The advance [drawCharWithY] returns for [c]: 0 outside the font's
    range, else the width byte of the glyph's record. *)
Definition advance (c : Z) (font : list Z) : Z :=
  fst (drawCharWithY 0 0 c font (fun _ => 0)).

Definition clearScreen (scr : Mem) : Mem :=
  for_range 0 (LINE_WIDTH * DISPLAY_ROWS) (fun i scr => store i 0 scr) scr.

(** ** Colours (RGB565)

    [dimRGB565]: "Dim an RGB565 color while preserving hue".  The channels
    are [int]s; the result is converted to [uint16_t]. *)

Definition dimRGB565 (color factor : Z) : Z :=
  let r := Z.land (Z.shiftr color 11) 0x1F in
  let g := Z.land (Z.shiftr color 5) 0x3F in
  let b := Z.land color 0x1F in
  let r := Z.quot r (factor + 1) in
  let g := Z.quot g (factor + 1) in
  let b := Z.quot b (factor + 1) in
  (Z.lor (Z.lor (Z.shiftl r 11) (Z.shiftl g 5)) b) mod 65536.

(** The three channels of a packed colour. *)
Definition red565 (color : Z) : Z := Z.land (Z.shiftr color 11) 0x1F.
Definition green565 (color : Z) : Z := Z.land (Z.shiftr color 5) 0x3F.
Definition blue565 (color : Z) : Z := Z.land color 0x1F.

(** ** Program state

    The globals of the source that the display engine reads or writes,
    the two function-local statics of [refreshAll], and the panel.  The
    panel is the sequence of driver calls issued so far, oldest first.
    [ledCalls] and [blits] are traces: the invocations of [drawLEDPixel]
    made by [refreshAll] and the invocations of [drawCharWithY] made by
    the mode composers, oldest first. *)

Inductive TftOp : Type :=
| FillScreen (color : Z)
| FillRect (x y w h color : Z)
| DrawPixel (x y color : Z).

Inductive FontId : Type := Digits5x8rn | Digits5x16rn | Digits3x5 | Font3x7.

Record Fonts : Type := mkFonts {
  digits5x8rn : list Z;
  digits5x16rn : list Z;
  digits3x5 : list Z;
  font3x7 : list Z
}.

Definition fontOf (F : Fonts) (f : FontId) : list Z :=
  match f with
  | Digits5x8rn => digits5x8rn F
  | Digits5x16rn => digits5x16rn F
  | Digits3x5 => digits3x5 F
  | Font3x7 => font3x7 F
  end.

Record Blit : Type := mkBlit {
  bl_x : Z;
  bl_row : Z;
  bl_char : ascii;
  bl_font : FontId
}.

Record Style : Type := mkStyle {
  displayStyle : Z;
  ledOnColor : Z;
  ledSurroundColor : Z;
  ledOffColor : Z;
  surroundMatchesLED : bool
}.

Record Clock : Type := mkClock {
  hours : Z;
  hours24 : Z;
  minutes : Z;
  seconds : Z;
  day : Z;
  month : Z;
  year : Z
}.

Record Sensor : Type := mkSensor {
  sensorAvailable : bool;
  temperature : Z;
  humidity : Z;
  useFahrenheit : bool
}.

Record State : Type := mkState {
  scr : Mem;
  lastScr : Mem;
  firstRun : bool;
  forceFullRedraw : bool;
  style : Style;
  clock : Clock;
  use24HourFormat : bool;
  showLeadingZero : bool;
  dateFormat : Z;
  sensor : Sensor;
  currentMode : Z;
  tftWidth : Z;
  tftHeight : Z;
  tft : list TftOp;
  ledCalls : list (Z * Z * bool);
  blits : list Blit
}.

Definition set_scr (v : Mem) (s : State) : State :=
  mkState v (lastScr s) (firstRun s) (forceFullRedraw s) (style s) (clock s)
    (use24HourFormat s) (showLeadingZero s) (dateFormat s) (sensor s) (currentMode s)
    (tftWidth s) (tftHeight s)
    (tft s) (ledCalls s) (blits s).

Definition set_lastScr (v : Mem) (s : State) : State :=
  mkState (scr s) v (firstRun s) (forceFullRedraw s) (style s) (clock s)
    (use24HourFormat s) (showLeadingZero s) (dateFormat s) (sensor s) (currentMode s)
    (tftWidth s) (tftHeight s)
    (tft s) (ledCalls s) (blits s).

Definition set_firstRun (v : bool) (s : State) : State :=
  mkState (scr s) (lastScr s) v (forceFullRedraw s) (style s) (clock s)
    (use24HourFormat s) (showLeadingZero s) (dateFormat s) (sensor s) (currentMode s)
    (tftWidth s) (tftHeight s)
    (tft s) (ledCalls s) (blits s).

Definition set_forceFullRedraw (v : bool) (s : State) : State :=
  mkState (scr s) (lastScr s) (firstRun s) v (style s) (clock s)
    (use24HourFormat s) (showLeadingZero s) (dateFormat s) (sensor s) (currentMode s)
    (tftWidth s) (tftHeight s)
    (tft s) (ledCalls s) (blits s).

Definition set_style (v : Style) (s : State) : State :=
  mkState (scr s) (lastScr s) (firstRun s) (forceFullRedraw s) v (clock s)
    (use24HourFormat s) (showLeadingZero s) (dateFormat s) (sensor s) (currentMode s)
    (tftWidth s) (tftHeight s)
    (tft s) (ledCalls s) (blits s).

Definition set_clock (v : Clock) (s : State) : State :=
  mkState (scr s) (lastScr s) (firstRun s) (forceFullRedraw s) (style s) v
    (use24HourFormat s) (showLeadingZero s) (dateFormat s) (sensor s) (currentMode s)
    (tftWidth s) (tftHeight s)
    (tft s) (ledCalls s) (blits s).

Definition set_tft (v : list TftOp) (s : State) : State :=
  mkState (scr s) (lastScr s) (firstRun s) (forceFullRedraw s) (style s) (clock s)
    (use24HourFormat s) (showLeadingZero s) (dateFormat s) (sensor s) (currentMode s)
    (tftWidth s) (tftHeight s)
    v (ledCalls s) (blits s).

Definition set_ledCalls (v : list (Z * Z * bool)) (s : State) : State :=
  mkState (scr s) (lastScr s) (firstRun s) (forceFullRedraw s) (style s) (clock s)
    (use24HourFormat s) (showLeadingZero s) (dateFormat s) (sensor s) (currentMode s)
    (tftWidth s) (tftHeight s)
    (tft s) v (blits s).

Definition set_blits (v : list Blit) (s : State) : State :=
  mkState (scr s) (lastScr s) (firstRun s) (forceFullRedraw s) (style s) (clock s)
    (use24HourFormat s) (showLeadingZero s) (dateFormat s) (sensor s) (currentMode s)
    (tftWidth s) (tftHeight s)
    (tft s) (ledCalls s) v.

(** The values of the globals at their definitions, the statics of
    [refreshAll] at theirs, and a 320x240 panel (rotation 1) with no
    driver call issued yet. *)
Definition initialStyle : Style :=
  mkStyle 1 COLOR_RED COLOR_DARK_GRAY 0x2000 false.

Definition initialState : State :=
  mkState (fun _ => 0) (fun _ => 0) true false initialStyle
    (mkClock 0 0 0 0 1 1 2025) false false 0 (mkSensor false 0 0 false) 0
    320 240 [] [] [].

(** ** The pixel renderer *)

Definition tft_emit (op : TftOp) (s : State) : State :=
  set_tft (tft s ++ [op]) s.

Definition drawLEDPixel (x y : Z) (lit : bool) (s : State) : State :=
  if (x <? 0) || (x >=? TOTAL_WIDTH) || (y <? 0) || (y >=? TOTAL_HEIGHT) then s else
  let offsetX :=
    if Z.quot (tftWidth s - DISPLAY_WIDTH) 2 >? 0
    then Z.quot (tftWidth s - DISPLAY_WIDTH) 2 else 0 in
  let offsetY :=
    if Z.quot (tftHeight s - DISPLAY_HEIGHT) 2 >? 0
    then Z.quot (tftHeight s - DISPLAY_HEIGHT) 2 else 0 in
  let matrixGap := if y >=? 8 then 4 else 0 in
  let screenX := offsetX + x * LED_SIZE in
  let screenY := offsetY + y * LED_SIZE + matrixGap in
  if displayStyle (style s) =? 0 then
    let color := if lit then ledOnColor (style s) else BG_COLOR in
    tft_emit (FillRect screenX screenY LED_SIZE LED_SIZE color) s
  else if negb lit then
    let s := tft_emit (FillRect screenX screenY LED_SIZE LED_SIZE BG_COLOR) s in
    let offHousing := dimRGB565 (ledSurroundColor (style s)) 7 in
    let offLED := 0x1800 in
    for_range 1 (LED_SIZE - 1)
      (fun py s =>
         for_range 1 (LED_SIZE - 1)
           (fun px s =>
              let dx := px * 2 - LED_SIZE + 1 in
              let dy := py * 2 - LED_SIZE + 1 in
              let distSq := dx * dx + dy * dy in
              let threshInner := (LED_SIZE - 4) * (LED_SIZE - 4) in
              let threshOuter := (LED_SIZE - 2) * (LED_SIZE - 2) in
              if distSq <=? threshInner
              then tft_emit (DrawPixel (screenX + px) (screenY + py) offLED) s
              else if distSq <=? threshOuter
              then tft_emit (DrawPixel (screenX + px) (screenY + py) offHousing) s
              else s)
           s)
      s
  else
    let s :=
      tft_emit (FillRect screenX screenY LED_SIZE LED_SIZE (ledSurroundColor (style s))) s in
    for_range 0 LED_SIZE
      (fun py s =>
         for_range 0 LED_SIZE
           (fun px s =>
              let dx := px * 2 - LED_SIZE + 1 in
              let dy := py * 2 - LED_SIZE + 1 in
              let distSq := dx * dx + dy * dy in
              let threshCore := (LED_SIZE - 6) * (LED_SIZE - 6) in
              let threshBody := (LED_SIZE - 2) * (LED_SIZE - 2) in
              let threshSurround := LED_SIZE * LED_SIZE in
              let pixelColor :=
                if distSq <=? threshCore then ledOnColor (style s)
                else if distSq <=? threshBody then ledOnColor (style s)
                else if distSq <=? threshSurround then ledSurroundColor (style s)
                else BG_COLOR in
              tft_emit (DrawPixel (screenX + px) (screenY + py) pixelColor) s)
           s)
      s.

(** ** The refresh engine ([FAST_REFRESH] is 1) *)

(** A call of [drawLEDPixel] from [refreshAll], recorded in [ledCalls]. *)
Definition call_drawLEDPixel (x y : Z) (lit : bool) (s : State) : State :=
  drawLEDPixel x y lit (set_ledCalls (ledCalls s ++ [(x, y, lit)]) s).

Definition refreshAll (s : State) : State :=
  let s :=
    if forceFullRedraw s then
      let s :=
        set_lastScr
          (for_range 0 (LINE_WIDTH * DISPLAY_ROWS) (fun i m => store i 0xFF m) (lastScr s))
          s in
      let s := set_forceFullRedraw false s in
      set_firstRun true s
    else s in
  let s :=
    for_range 0 DISPLAY_ROWS
      (fun row s =>
         for_range 0 LINE_WIDTH
           (fun displayX s =>
              let bufferIndex := displayX + row * LINE_WIDTH in
              if (bufferIndex >=? 0) && (bufferIndex <? LINE_WIDTH * DISPLAY_ROWS) then
                let pixelByte := scr s bufferIndex in
                if firstRun s || negb (pixelByte =? lastScr s bufferIndex) then
                  let s := set_lastScr (store bufferIndex pixelByte (lastScr s)) s in
                  for_range 0 8
                    (fun bitPos s =>
                       let displayY := row * 8 + bitPos in
                       let lit := negb (Z.land pixelByte (Z.shiftl 1 bitPos) =? 0) in
                       call_drawLEDPixel displayX displayY lit s)
                    s
                else s
              else s)
           s)
      s in
  set_firstRun false s.

(** ** Text

    [sprintf(buf, "%d", n)] and [sprintf(buf, "%02d", n)]; the value of a
    [char] as the blitter compares it with the font's range. *)

Definition sprintf_d (n : Z) : string :=
  NilZero.string_of_int (Z.to_int n).

Definition sprintf_02d (n : Z) : string :=
  let t := sprintf_d n in
  if Nat.ltb (String.length t) 2 then String "0"%char t else t.

(** [n] zeros, and [sprintf(buf, "%04d", n)]: the sign, then the digits
    padded with zeros to the width. *)
Fixpoint zeros (n : nat) : string :=
  match n with
  | O => EmptyString
  | S n' => String "0"%char (zeros n')
  end.

Definition sprintf_04d (n : Z) : string :=
  if n <? 0 then
    let t := sprintf_d (- n) in
    String "-"%char (zeros (3 - String.length t) ++ t)
  else
    let t := sprintf_d n in
    (zeros (4 - String.length t) ++ t)%string.

(** [snprintf(buf, bufSize, ...)] keeps the first [bufSize - 1]
    characters of the formatted text. *)
Definition snprintf (bufSize : nat) (t : string) : string :=
  String.substring 0 (bufSize - 1) t.

Definition code (c : ascii) : Z := Z.of_N (N_of_ascii c).

(** A call of [drawCharWithY] from a composer, recorded in [blits]. *)
Definition blit (F : Fonts) (x yPos : Z) (c : ascii) (f : FontId) (s : State) : Z * State :=
  let r := drawCharWithY x yPos (code c) (fontOf F f) (scr s) in
  (fst r, set_scr (snd r) (set_blits (blits s ++ [mkBlit x yPos c f]) s)).

(** The loop over the characters [c] of [buf], with [more] true when
    another character follows:
    [x += drawCharWithY(x, row, c, font); if (more) x++;] *)
Fixpoint drawRun (F : Fonts) (row : Z) (f : FontId) (buf : string) (x : Z) (s : State)
  : Z * State :=
  match buf with
  | EmptyString => (x, s)
  | String c rest =>
      let r := blit F x row c f s in
      let x := x + fst r in
      let x := match rest with EmptyString => x | String _ _ => x + 1 end in
      drawRun F row f rest x (snd r)
  end.

(** The loop over the characters [c] of [buf] with body
    [if (x < LINE_WIDTH - 3) { x += drawCharWithY(x, row, c, font);
       if (more && x < gapLimit) x++; }] *)
Fixpoint drawRunClipped (F : Fonts) (row : Z) (f : FontId) (gapLimit : Z) (buf : string)
  (x : Z) (s : State) : Z * State :=
  match buf with
  | EmptyString => (x, s)
  | String c rest =>
      if x <? LINE_WIDTH - 3 then
        let r := blit F x row c f s in
        let x := x + fst r in
        let x :=
          match rest with
          | EmptyString => x
          | String _ _ => if x <? gapLimit then x + 1 else x
          end in
        drawRunClipped F row f gapLimit rest x (snd r)
      else drawRunClipped F row f gapLimit rest x s
  end.

(** The loop over the characters [c] of [buf] with body
    [x += drawCharWithY(x, row, c, font) + 1;] *)
Fixpoint drawRunSpaced (F : Fonts) (row : Z) (f : FontId) (buf : string) (x : Z) (s : State)
  : Z * State :=
  match buf with
  | EmptyString => (x, s)
  | String c rest =>
      let r := blit F x row c f s in
      drawRunSpaced F row f rest (x + (fst r + 1)) (snd r)
  end.

(** The loop over the characters [c] of [buf] with body
    [if (x < guard) { x += drawCharWithY(x, row, c, font);
       if (more && x < gapLimit) x++; }] *)
Fixpoint drawRunGuarded (F : Fonts) (row : Z) (f : FontId) (guard gapLimit : Z)
  (buf : string) (x : Z) (s : State) : Z * State :=
  match buf with
  | EmptyString => (x, s)
  | String c rest =>
      if x <? guard then
        let r := blit F x row c f s in
        let x := x + fst r in
        let x :=
          match rest with
          | EmptyString => x
          | String _ _ => if x <? gapLimit then x + 1 else x
          end in
        drawRunGuarded F row f guard gapLimit rest x (snd r)
      else drawRunGuarded F row f guard gapLimit rest x s
  end.

(** ** The mode composers

    The three composers are embedded from the later revision of the
    program, the second half of [src/unnamed/part_000] (lines 1143-1317),
    which is the one the README and the CHANGELOG describe: mode 0 in the
    3x7 font with an AM/PM indicator and no seconds, [showLeadingZero],
    one column before every colon, and [formatDate].  Each composer is
    written in two parts: the statements up to and including its colon
    block, which leave [x] at the column of the first minutes digit, and
    the rest. *)

Definition displayHours (s : State) : Z :=
  if use24HourFormat s then hours24 (clock s) else hours (clock s).

Definition showDots (s : State) : bool :=
  Z.rem (seconds (clock s)) 2 =? 0.

(** The hours as every composer prints them: [sprintf(buf, "%02d", ..)]
    when [showLeadingZero], else [sprintf(buf, "%d", ..)]. *)
Definition hoursText (s : State) : string :=
  if showLeadingZero s then sprintf_02d (displayHours s) else sprintf_d (displayHours s).

(** Mode 0, part_000 lines 1144-1170. *)
Definition displayTimeAndTemp_toColon (F : Fonts) (s : State) : Z * State :=
  let s := set_scr (clearScreen (scr s)) s in
  let dots := showDots s in
  let x := 0 in
  let r := drawRun F 0 Font3x7 (hoursText s) x s in
  let x := fst r in
  let s := snd r in
  let x := x + 1 in
  if dots then
    let r := blit F x 0 ":"%char Font3x7 s in
    (x + fst r + 1, snd r)
  else (x + 2, s).

(** The text of the bottom row of mode 0. *)
Definition tempHumText (s : State) : string :=
  if sensorAvailable (sensor s) then
    let displayTemp :=
      if useFahrenheit (sensor s)
      then Z.quot (temperature (sensor s) * 9) 5 + 32
      else temperature (sensor s) in
    let tempUnit := (if useFahrenheit (sensor s) then "F" else "C")%char in
    ("T" ++ sprintf_d displayTemp ++ String tempUnit " H"
       ++ sprintf_d (humidity (sensor s)) ++ "%")%string
  else "NO SENSOR"%string.

(** The indicator of mode 0 in 12-hour format. *)
Definition ampmText (s : State) : string :=
  if hours24 (clock s) >=? 12 then "PM"%string else "AM"%string.

(** Mode 0, part_000 lines 1143-1213. *)
Definition displayTimeAndTemp (F : Fonts) (s : State) : State :=
  let r := displayTimeAndTemp_toColon F s in
  let r := drawRun F 0 Font3x7 (sprintf_02d (minutes (clock (snd r)))) (fst r) (snd r) in
  let x := fst r in
  let s := snd r in
  let r :=
    if negb (use24HourFormat s) then
      let x := x + 1 in
      drawRunGuarded F 0 Font3x7 LINE_WIDTH LINE_WIDTH (ampmText s) x s
    else (x, s) in
  let s := snd r in
  let x := 0 in
  snd (drawRunClipped F 1 Font3x7 LINE_WIDTH (tempHumText s) x s).

(** Mode 1, part_000 lines 1216-1242. *)
Definition displayTimeLarge_toColon (F : Fonts) (s : State) : Z * State :=
  let s := set_scr (clearScreen (scr s)) s in
  let dots := showDots s in
  let x := if (displayHours s >? 9) || showLeadingZero s then 0 else 3 in
  let r := drawRun F 0 Digits5x16rn (hoursText s) x s in
  let x := fst r in
  let s := snd r in
  let x := x + 1 in
  if dots then
    let r := blit F x 0 ":"%char Digits5x16rn s in
    (x + fst r + 1, snd r)
  else (x + 2, s).

(** Mode 1, part_000 lines 1215-1262. *)
Definition displayTimeLarge (F : Fonts) (s : State) : State :=
  let r := displayTimeLarge_toColon F s in
  let r := drawRun F 0 Digits5x16rn (sprintf_02d (minutes (clock (snd r)))) (fst r) (snd r) in
  let x := fst r + 1 in
  let s := snd r in
  snd (drawRunGuarded F 0 Font3x7 LINE_WIDTH LINE_WIDTH
         (sprintf_02d (seconds (clock s))) x s).

(** Mode 2, part_000 lines 1265-1291. *)
Definition displayTimeAndDate_toColon (F : Fonts) (s : State) : Z * State :=
  let s := set_scr (clearScreen (scr s)) s in
  let dots := showDots s in
  let x := 0 in
  let r := drawRun F 0 Digits5x8rn (hoursText s) x s in
  let x := fst r in
  let s := snd r in
  let x := x + 1 in
  if dots then
    let r := blit F x 0 ":"%char Digits5x8rn s in
    (x + fst r + 1, snd r)
  else (x + 2, s).

(** [formatDate], part_000 lines 931-951; [buf] has 32 bytes. *)
Definition formatDate (s : State) (d m y : Z) : string :=
  let dmy :=
    (sprintf_02d d ++ "/" ++ sprintf_02d m ++ "/" ++ sprintf_02d (Z.rem y 100))%string in
  snprintf 32
    (match dateFormat s with
     | 0 => dmy
     | 1 => sprintf_02d m ++ "/" ++ sprintf_02d d ++ "/" ++ sprintf_02d (Z.rem y 100)
     | 2 => sprintf_04d y ++ "-" ++ sprintf_02d m ++ "-" ++ sprintf_02d d
     | 3 => sprintf_02d d ++ "." ++ sprintf_02d m ++ "." ++ sprintf_04d y
     | 4 => sprintf_02d m ++ "." ++ sprintf_02d d ++ "." ++ sprintf_04d y
     | _ => dmy
     end)%string.

Definition dateText (s : State) : string :=
  formatDate s (day (clock s)) (month (clock s)) (year (clock s)).

(** Mode 2, part_000 lines 1264-1317. *)
Definition displayTimeAndDate (F : Fonts) (s : State) : State :=
  let r := displayTimeAndDate_toColon F s in
  let r := drawRun F 0 Digits5x8rn (sprintf_02d (minutes (clock (snd r)))) (fst r) (snd r) in
  let x := fst r + 1 in
  let s := snd r in
  let r :=
    drawRunGuarded F 0 Digits3x5 LINE_WIDTH LINE_WIDTH (sprintf_02d (seconds (clock s))) x s in
  let s := snd r in
  let x := 2 in
  snd (drawRunSpaced F 1 Font3x7 (dateText s) x s).

(** [switch (currentMode) { case 0: ...; case 1: ...; case 2: ...; }] *)
Definition displayCurrentMode (F : Fonts) (s : State) : State :=
  match currentMode s with
  | 0 => displayTimeAndTemp F s
  | 1 => displayTimeLarge F s
  | 2 => displayTimeAndDate F s
  | _ => s
  end.

(** The characters of the blits on module row [row], in blit order, and
    the text a state's trace shows on that row. *)
Definition textOf (row : Z) (B : list Blit) : string :=
  string_of_list_ascii (map bl_char (filter (fun b => bl_row b =? row) B)).

Definition rowText (row : Z) (s : State) : string := textOf row (blits s).

(** ** The [/style] handler

    A request carries the arguments the handler looks at; [ledcolor] and
    [surroundcolor] are the values of [server.arg(..).toInt()]. *)

Record StyleRequest : Type := mkStyleRequest {
  arg_mode : option string;
  arg_ledcolor : option Z;
  arg_surroundcolor : option Z
}.

(** Line 1181: [displayStyle = (displayStyle + 1) % 2]. *)
Definition styleToggle (st : Style) : Style :=
  mkStyle (Z.rem (displayStyle st + 1) 2) (ledOnColor st) (ledSurroundColor st)
    (ledOffColor st) (surroundMatchesLED st).

(** Lines 1188-1204, the [ledcolor] branch. *)
Definition styleLedColor (colorIdx : Z) (st : Style) : Style :=
  let on :=
    match colorIdx with
    | 0 => COLOR_RED
    | 1 => COLOR_GREEN
    | 2 => COLOR_BLUE
    | 3 => COLOR_YELLOW
    | 4 => COLOR_CYAN
    | 5 => COLOR_MAGENTA
    | 6 => COLOR_WHITE
    | 7 => COLOR_ORANGE
    | _ => COLOR_RED
    end in
  let off := (Z.shiftr on 3) mod 65536 in
  let surround := if surroundMatchesLED st then on else ledSurroundColor st in
  mkStyle (displayStyle st) on surround off (surroundMatchesLED st).

(** Lines 1211-1248, the [surroundcolor] branch. *)
Definition styleSurroundColor (colorIdx : Z) (st : Style) : Style :=
  let fixed (c : Z) := mkStyle (displayStyle st) (ledOnColor st) c (ledOffColor st) false in
  match colorIdx with
  | 0 => fixed COLOR_WHITE
  | 1 => fixed COLOR_LIGHT_GRAY
  | 2 => fixed COLOR_DARK_GRAY
  | 3 => fixed COLOR_RED
  | 4 => fixed COLOR_GREEN
  | 5 => fixed COLOR_BLUE
  | 6 => fixed COLOR_YELLOW
  | 7 => mkStyle (displayStyle st) (ledOnColor st) (ledOnColor st) (ledOffColor st) true
  | _ => fixed COLOR_WHITE
  end.

(** Lines 1177-1266 (the HTTP redirect that ends the handler is omitted). *)
Definition handleStyle (F : Fonts) (req : StyleRequest) (s : State) : State :=
  let changed := false in
  let '(changed, s) :=
    match arg_mode req with
    | Some m => if String.eqb m "toggle" then (true, set_style (styleToggle (style s)) s)
                else (changed, s)
    | None => (changed, s)
    end in
  let '(changed, s) :=
    match arg_ledcolor req with
    | Some colorIdx => (true, set_style (styleLedColor colorIdx (style s)) s)
    | None => (changed, s)
    end in
  let '(changed, s) :=
    match arg_surroundcolor req with
    | Some colorIdx => (true, set_style (styleSurroundColor colorIdx (style s)) s)
    | None => (changed, s)
    end in
  if changed : bool then
    let s := tft_emit (FillScreen BG_COLOR) s in
    let s := set_forceFullRedraw true s in
    let s := displayCurrentMode F s in
    refreshAll s
  else s.

(** The colour a [ledcolor] index selects: the cases of the switch at
    lines 1189-1199. *)
Definition ledPalette (colorIdx : Z) : Z :=
  match colorIdx with
  | 0 => COLOR_RED
  | 1 => COLOR_GREEN
  | 2 => COLOR_BLUE
  | 3 => COLOR_YELLOW
  | 4 => COLOR_CYAN
  | 5 => COLOR_MAGENTA
  | 6 => COLOR_WHITE
  | 7 => COLOR_ORANGE
  | _ => COLOR_RED
  end.

(** The start state after the surround was set to follow the LED colour
    ([surroundcolor=7]). *)
Definition matchedState : State :=
  set_style (mkStyle 1 COLOR_RED COLOR_RED 0x2000 true) initialState.

(** The consistency rule of the colour scheme. *)
Definition surroundConsistent (st : Style) : Prop :=
  surroundMatchesLED st = true -> ledSurroundColor st = ledOnColor st.

(** ** Sample font tables

    Tables in the layout the blitter reads: a header [fwd; fht; first;
    last], then one record of [fht8 * fwd + 1] bytes per character (the
    width, then [fht8] bytes per column).  They are sample data on which
    the embedding is run. *)

Definition glyphRecord (fwd fht8 w : Z) (cols : list Z) : list Z :=
  let n := Z.to_nat (fht8 * fwd) in
  w :: firstn n (cols ++ repeat 0 n).

Definition fontTable (fwd fht first : Z) (glyphs : list (Z * list Z)) : list Z :=
  [fwd; fht; first; first + Z.of_nat (List.length glyphs) - 1]
    ++ flat_map (fun g => glyphRecord fwd (Z.quot (fht + 7) 8) (fst g) (snd g)) glyphs.

(** Digits ['0'..'9'] five columns wide and a colon one column wide. *)
Definition sampleDigitColumns : list (Z * list Z) :=
  [ (5, [0x3E; 0x51; 0x49; 0x45; 0x3E]); (5, [0x00; 0x42; 0x7F; 0x40; 0x00]);
    (5, [0x42; 0x61; 0x51; 0x49; 0x46]); (5, [0x21; 0x41; 0x45; 0x4B; 0x31]);
    (5, [0x18; 0x14; 0x12; 0x7F; 0x10]); (5, [0x27; 0x45; 0x45; 0x45; 0x39]);
    (5, [0x3C; 0x4A; 0x49; 0x49; 0x30]); (5, [0x01; 0x71; 0x09; 0x05; 0x03]);
    (5, [0x36; 0x49; 0x49; 0x49; 0x36]); (5, [0x06; 0x49; 0x49; 0x29; 0x1E]);
    (1, [0x24]) ].

Definition sample5x8 : list Z := fontTable 5 8 48 sampleDigitColumns.

(** The same shapes on two byte-rows: each column is its byte twice. *)
Definition sample5x16 : list Z :=
  fontTable 5 16 48
    (map (fun g => (fst g, flat_map (fun b => [b; b]) (snd g))) sampleDigitColumns).

Definition sample3x5 : list Z :=
  fontTable 3 5 48
    [ (3, [0x1F; 0x11; 0x1F]); (3, [0x00; 0x1F; 0x00]); (3, [0x1D; 0x15; 0x17]);
      (3, [0x15; 0x15; 0x1F]); (3, [0x07; 0x04; 0x1F]); (3, [0x17; 0x15; 0x1D]);
      (3, [0x1F; 0x15; 0x1D]); (3, [0x01; 0x01; 0x1F]); (3, [0x1F; 0x15; 0x1F]);
      (3, [0x17; 0x15; 0x1F]) ].

(** Characters [' '..'Z']: a space and a colon of one column (the
    CHANGELOG gives the colon of [font3x7] as the single byte 0x24),
    every other glyph three columns with bytes derived from the
    character code. *)
Definition sample3x7 : list Z :=
  fontTable 3 7 32
    (map (fun k =>
            let c := Z.of_nat k in
            if c =? 32 then (1, [0])
            else if c =? 58 then (1, [0x24])
            else (3, [c mod 128; (c * 3) mod 128; (c * 5) mod 128]))
         (seq 32 59)).

(** The same characters in glyphs two columns wide. *)
Definition sampleSlim3x7 : list Z :=
  fontTable 3 7 32
    (map (fun k =>
            let c := Z.of_nat k in
            if c =? 32 then (1, [0])
            else if c =? 58 then (1, [0x24])
            else (2, [c mod 128; (c * 3) mod 128]))
         (seq 32 59)).

Definition sampleFonts : Fonts := mkFonts sample5x8 sample5x16 sample3x5 sample3x7.

Definition slimFonts : Fonts := mkFonts sample5x8 sample5x16 sample3x5 sampleSlim3x7.

(** ** Scenarios *)

Definition setSeconds (sec : Z) (s : State) : State :=
  set_clock
    (mkClock (hours (clock s)) (hours24 (clock s)) (minutes (clock s)) sec
       (day (clock s)) (month (clock s)) (year (clock s)))
    s.

(** 12-hour display at 14:07 and [sec] seconds, sensor present, 23 degrees
    Celsius, 45 percent humidity. *)
Definition mode0Scenario (sec : Z) : State :=
  mkState (fun _ => 0) (fun _ => 0) true false initialStyle
    (mkClock 2 14 7 sec 1 1 2025) false false 0 (mkSensor true 23 45 false) 0
    320 240 [] [] [].

(** The start state switched to the block style. *)
Definition blockState : State :=
  set_style (mkStyle 0 COLOR_RED COLOR_DARK_GRAY 0x2000 false) initialState.

(** The list [0; 1; ...; n-1]. *)
Definition upto (n : Z) : list Z := map Z.of_nat (seq 0 (Z.to_nat n)).

(** The calls [refreshAll] makes for one cell: its eight pixels, bit 0
    first. *)
Definition cellCalls (displayX row pixelByte : Z) : list (Z * Z * bool) :=
  map (fun bitPos =>
         (displayX, row * 8 + bitPos, negb (Z.land pixelByte (Z.shiftl 1 bitPos) =? 0)))
      (upto 8).

(** The calls of a full repaint of [m]: cell by cell in buffer order. *)
Definition allPixelCalls (m : Mem) : list (Z * Z * bool) :=
  flat_map (fun k => cellCalls (k mod 32) (k / 32) (m k)) (upto 64).

(** Equality of pixel coordinates is decidable. *)
Definition pixel_eq_dec (p q : Z * Z) : {p = q} + {p <> q}.
Proof. decide equality; apply Z.eq_dec. Defined.

(** Every logical pixel of the 32 x 16 matrix, in the same order. *)
Definition allPixels : list (Z * Z) :=
  flat_map (fun k => map (fun bitPos => (k mod 32, (k / 32) * 8 + bitPos)) (upto 8)) (upto 64).

(** ** Auxiliary notions for the statements *)

(** The cells of a glyph drawn at column [x], byte-row [yPos]: column [i]
    of byte-row [j] is cell [glyphCell x yPos i j] of the array. *)
Definition glyphCell (x yPos i j : Z) : Z := x + LINE_WIDTH * (j + yPos) + i.

(** [written R v m0 m]: [m] holds [v i j] at every cell of the region [R]
    and is [m0] everywhere else. *)
Definition written (x yPos : Z) (R : Z -> Z -> Prop) (v : Z -> Z -> Z) (m0 m : Mem) : Prop :=
  (forall i j, R i j -> m (glyphCell x yPos i j) = v i j) /\
  (forall k, (forall i j, R i j -> k <> glyphCell x yPos i j) -> m k = m0 k).

(** A cell is repainted by a pass of [refreshAll] started in [s] when
    [firstRun] is set or its byte differs from the shadow byte. *)
Definition dirtyCell (s : State) (k : Z) : bool :=
  firstRun s || negb (scr s k =? lastScr s k).

(** The calls of a pass started in [s] for the cells below [n]. *)
Definition passCalls (s : State) (n : Z) : list (Z * Z * bool) :=
  flat_map (fun k => if dirtyCell s k then cellCalls (k mod 32) (k / 32) (scr s k) else [])
    (upto n).

(** The state after the invalidation block of [refreshAll]. *)
Definition invalidated (s : State) : State :=
  set_firstRun true
    (set_forceFullRedraw false
       (set_lastScr
          (for_range 0 (LINE_WIDTH * DISPLAY_ROWS) (fun i m => store i 0xFF m) (lastScr s))
          s)).

(** What a pass has done when it has handled the cells below [n]: the
    calls of the dirty cells are recorded, their shadow bytes are the
    frame buffer's, and nothing else has changed but the panel. *)
Definition passDone (s : State) (n : Z) (u : State) : Prop :=
  exists t L,
    u = set_tft t (set_ledCalls (ledCalls s ++ passCalls s n) (set_lastScr L s)) /\
    (forall k, L k = if (0 <=? k) && (k <? n) && dirtyCell s k then scr s k
                     else lastScr s k).

(** [composed s B u]: [u] is [s] after the blits [B]; only the frame
    buffer and the blit trace differ. *)
Definition composed (s : State) (B : list Blit) (u : State) : Prop :=
  exists m, u = set_scr m (set_blits (blits s ++ B) s).

(** [rowRun row t B]: the blits [B] are all on row [row] and spell [t]. *)
Definition rowRun (row : Z) (t : string) (B : list Blit) : Prop :=
  forall r, textOf r B = if r =? row then t else EmptyString.

Definition isPrefix (t buf : string) : Prop :=
  exists rest, buf = (t ++ rest)%string.

(** The blits of a run drawn whole with one column between neighbours:
    each character at the column after its predecessor's glyph and gap. *)
Fixpoint spacedBlits (F : Fonts) (row : Z) (f : FontId) (buf : string) (x : Z)
  : list Blit :=
  match buf with
  | EmptyString => []
  | String c rest =>
      mkBlit x row c f
      :: spacedBlits F row f rest (x + advance (code c) (fontOf F f) + 1)
  end.

(** The column at which the last character of such a run starts. *)
Fixpoint lastStart (font : list Z) (buf : string) (x : Z) : Z :=
  match buf with
  | EmptyString => x
  | String c rest =>
      match rest with
      | EmptyString => x
      | String _ _ => lastStart font rest (x + advance (code c) font + 1)
      end
  end.

(** The column at which the minutes of mode 0 end. *)
Definition minutesEnd0 (F : Fonts) (s : State) : Z :=
  fst (drawRun F 0 Font3x7 (sprintf_02d (minutes (clock s)))
         (fst (displayTimeAndTemp_toColon F s)) (snd (displayTimeAndTemp_toColon F s))).

(** ** Further functions of the display file *)

(** Lines 433-437, [invert]: [scr[i] = ~scr[i]], the complement of the
    promoted [int] converted back to a byte. *)
Definition invert (scr : Mem) : Mem :=
  for_range 0 (LINE_WIDTH * DISPLAY_ROWS)
    (fun i scr => store i (Z.lnot (scr i) mod 256) scr) scr.

(** Lines 439-444, [scrollLeft]. *)
Definition scrollLeft (scr : Mem) : Mem :=
  let scr :=
    for_range 0 (LINE_WIDTH * DISPLAY_ROWS - 1)
      (fun i scr => store i (scr (i + 1)) scr) scr in
  store (LINE_WIDTH * DISPLAY_ROWS - 1) 0 scr.

(** Lines 504-510, [stringWidth]: the loop over the characters, then
    [return width - 1]. *)
Fixpoint stringWidth_loop (str : string) (font : list Z) (width : Z) : Z :=
  match str with
  | EmptyString => width
  | String c rest => stringWidth_loop rest font (width + (charWidth (code c) font + 1))
  end.

Definition stringWidth (str : string) (font : list Z) : Z :=
  stringWidth_loop str font 0 - 1.


(** The column [showMessage] starts at: lines 518-522. *)
Definition messageStart (F : Fonts) (msg : string) : Z :=
  let width := stringWidth msg (font3x7 F) in
  let x := Z.quot (TOTAL_WIDTH - width) 2 in
  let x := if x <? 0 then 0 else x in
  if x >=? TOTAL_WIDTH then TOTAL_WIDTH - 1 else x.

(** Lines 512-530, [showMessage]; [None] is the null pointer.  The two
    [delay(10)] calls are omitted.  [drawChar] is [drawCharWithY] on
    row 0. *)
Definition showMessage (F : Fonts) (msg : option string) (s : State) : State :=
  match msg with
  | None => s
  | Some msg =>
      if Nat.eqb (String.length msg) 0 then s else
      let s := set_scr (clearScreen (scr s)) s in
      let x := messageStart F msg in
      let r := drawRunSpaced F 0 Font3x7 msg x s in
      refreshAll (snd r)
  end.

(** ** The scheduler

    [updateTime], from the later revision ([src/unnamed/part_000], lines
    1488-1550; version 3.0 has the constant 5000 where this one has
    [modeSwitchInterval * 1000], and is otherwise the same but for debug
    output).  It reads the system time and the millisecond counter.  Its
    model takes what those calls return: [now] for [time(nullptr)], [tm]
    for the fields [localtime_r] fills, and the two readings of
    [millis()], an [unsigned long] of 32 bits.  [lastSecond],
    [lastModeSwitch] and [modeSwitchInterval] are the globals it uses
    besides the display state. *)

Record Tm : Type := mkTm {
  tm_hour : Z;
  tm_min : Z;
  tm_sec : Z;
  tm_mday : Z;
  tm_mon : Z;
  tm_year : Z
}.

Record Sched : Type := mkSched {
  st : State;
  lastSecond : Z;
  lastModeSwitch : Z;
  modeSwitchInterval : Z
}.

Definition set_currentMode (v : Z) (s : State) : State :=
  mkState (scr s) (lastScr s) (firstRun s) (forceFullRedraw s) (style s) (clock s)
    (use24HourFormat s) (showLeadingZero s) (dateFormat s) (sensor s) v
    (tftWidth s) (tftHeight s)
    (tft s) (ledCalls s) (blits s).

(** The clock variables from the broken-down time. *)
Definition clockOfTm (tm : Tm) : Clock :=
  let hours := Z.rem (tm_hour tm) 12 in
  let hours := if hours =? 0 then 12 else hours in
  mkClock hours (tm_hour tm) (tm_min tm) (tm_sec tm) (tm_mday tm) (tm_mon tm + 1)
    (tm_year tm + 1900).

(** The values of the scheduler's globals at their definitions. *)
Definition initialSched : Sched := mkSched initialState (-1) 0 5.

(** [updateTime].  The interval is an [int] compared with an
    [unsigned long], so it is converted to 32 bits without sign. *)
Definition updateTime (F : Fonts) (now : Z) (tm : Tm) (millis1 millis2 : Z) (k : Sched)
  : Sched :=
  if now <? 24 * 3600 then k else
  let s := set_clock (clockOfTm tm) (st k) in
  let k :=
    if negb (seconds (clock s) =? lastSecond k) then
      mkSched (refreshAll (displayCurrentMode F s)) (seconds (clock s)) (lastModeSwitch k)
        (modeSwitchInterval k)
    else mkSched s (lastSecond k) (lastModeSwitch k) (modeSwitchInterval k) in
  if (millis1 - lastModeSwitch k) mod 2 ^ 32 >? (modeSwitchInterval k * 1000) mod 2 ^ 32 then
    mkSched (set_currentMode (Z.rem (currentMode (st k) + 1) 3) (st k)) (lastSecond k) millis2
      (modeSwitchInterval k)
  else k.

(** ** The driver calls of one pixel

    [ledOps s x y lit] lists the driver calls [drawLEDPixel] issues, in
    order; [cellLeft] and [cellTop] are the panel position of the pixel's
    square (lines 309-316). *)

Definition emits (l : list TftOp) (s : State) : State := set_tft (tft s ++ l) s.

(** The list [lo; lo+1; ...; hi-1]. *)
Definition range (lo hi : Z) : list Z :=
  map (fun k => lo + Z.of_nat k) (seq 0 (Z.to_nat (hi - lo))).

Definition cellLeft (s : State) (x : Z) : Z :=
  (if Z.quot (tftWidth s - DISPLAY_WIDTH) 2 >? 0
   then Z.quot (tftWidth s - DISPLAY_WIDTH) 2 else 0) + x * LED_SIZE.

Definition cellTop (s : State) (y : Z) : Z :=
  (if Z.quot (tftHeight s - DISPLAY_HEIGHT) 2 >? 0
   then Z.quot (tftHeight s - DISPLAY_HEIGHT) 2 else 0) + y * LED_SIZE
  + (if y >=? 8 then 4 else 0).

Definition ledOps (s : State) (x y : Z) (lit : bool) : list TftOp :=
  if (x <? 0) || (x >=? TOTAL_WIDTH) || (y <? 0) || (y >=? TOTAL_HEIGHT) then [] else
  let screenX := cellLeft s x in
  let screenY := cellTop s y in
  if displayStyle (style s) =? 0 then
    [FillRect screenX screenY LED_SIZE LED_SIZE
       (if lit then ledOnColor (style s) else BG_COLOR)]
  else if negb lit then
    FillRect screenX screenY LED_SIZE LED_SIZE BG_COLOR
    :: flat_map
         (fun py =>
            flat_map
              (fun px =>
                 let dx := px * 2 - LED_SIZE + 1 in
                 let dy := py * 2 - LED_SIZE + 1 in
                 let distSq := dx * dx + dy * dy in
                 if distSq <=? (LED_SIZE - 4) * (LED_SIZE - 4)
                 then [DrawPixel (screenX + px) (screenY + py) 0x1800]
                 else if distSq <=? (LED_SIZE - 2) * (LED_SIZE - 2)
                 then [DrawPixel (screenX + px) (screenY + py)
                         (dimRGB565 (ledSurroundColor (style s)) 7)]
                 else [])
              (range 1 (LED_SIZE - 1)))
         (range 1 (LED_SIZE - 1))
  else
    FillRect screenX screenY LED_SIZE LED_SIZE (ledSurroundColor (style s))
    :: flat_map
         (fun py =>
            flat_map
              (fun px =>
                 let dx := px * 2 - LED_SIZE + 1 in
                 let dy := py * 2 - LED_SIZE + 1 in
                 let distSq := dx * dx + dy * dy in
                 [DrawPixel (screenX + px) (screenY + py)
                    (if distSq <=? (LED_SIZE - 6) * (LED_SIZE - 6) then ledOnColor (style s)
                     else if distSq <=? (LED_SIZE - 2) * (LED_SIZE - 2)
                     then ledOnColor (style s)
                     else if distSq <=? LED_SIZE * LED_SIZE then ledSurroundColor (style s)
                     else BG_COLOR)])
              (range 0 LED_SIZE))
         (range 0 LED_SIZE).

(** The panel pixels a driver call paints. *)
Definition paints (op : TftOp) (px py : Z) : Prop :=
  match op with
  | FillScreen _ => True
  | FillRect x y w h _ => x <= px < x + w /\ y <= py < y + h
  | DrawPixel x y _ => px = x /\ py = y
  end.

(** [charWidth] walks the records of a table taking each to be
    [w * fht + 1] bytes long, [drawCharWithY] takes every record to be
    [fht8 * fwd + 1] bytes long.  [recordsAgree font n]: for the first [n]
    records the two lengths are the same. *)
Definition recordsAgree (font : list Z) (n : Z) : Prop :=
  let fwd := pgm_read_byte font 0 in
  let fht := pgm_read_byte font 1 in
  let fht8 := Z.quot (fht + 7) 8 in
  forall i, 0 <= i < n ->
    pgm_read_byte font (4 + i * (fht8 * fwd + 1)) * fht = fht8 * fwd.

(** A table on which they agree: three glyphs one column wide in records
    of eight columns, eight pixels high. *)
Definition sampleNarrow : list Z :=
  fontTable 8 8 65 [ (1, [0x7F]); (1, [0x3E]); (1, [0x1C]) ].

(** ** The unit and format toggles

    [mode] is the value of the request's [mode] argument, [None] when
    the request has none; the HTTP redirect that ends each handler is
    omitted. *)

Definition set_use24HourFormat (v : bool) (s : State) : State :=
  mkState (scr s) (lastScr s) (firstRun s) (forceFullRedraw s) (style s) (clock s)
    v (showLeadingZero s) (dateFormat s) (sensor s) (currentMode s) (tftWidth s)
    (tftHeight s)
    (tft s) (ledCalls s) (blits s).

Definition set_sensor (v : Sensor) (s : State) : State :=
  mkState (scr s) (lastScr s) (firstRun s) (forceFullRedraw s) (style s) (clock s)
    (use24HourFormat s) (showLeadingZero s) (dateFormat s) v (currentMode s) (tftWidth s)
    (tftHeight s)
    (tft s) (ledCalls s) (blits s).

(** Lines 1143-1150, the [/temperature] handler. *)
Definition handleTemperature (mode : option string) (s : State) : State :=
  match mode with
  | Some m =>
      if String.eqb m "toggle" then
        set_sensor
          (mkSensor (sensorAvailable (sensor s)) (temperature (sensor s))
             (humidity (sensor s)) (negb (useFahrenheit (sensor s))))
          s
      else s
  | None => s
  end.

(** Lines 1153-1160, the [/timeformat] handler. *)
Definition handleTimeformat (mode : option string) (s : State) : State :=
  match mode with
  | Some m =>
      if String.eqb m "toggle" then set_use24HourFormat (negb (use24HourFormat s)) s
      else s
  | None => s
  end.

(** The scenario of mode 0 after the time format is switched to 24
    hours. *)
Definition mode0Scenario24 (sec : Z) : State :=
  handleTimeformat (Some "toggle"%string) (mode0Scenario sec).

(** The driver calls of one recorded call of [drawLEDPixel]. *)
Definition pixelOps (s : State) (c : Z * Z * bool) : list TftOp :=
  ledOps s (fst (fst c)) (snd (fst c)) (snd c).


(** The cells a glyph of width [w] on [fht8] byte-rows reaches when drawn
    at column [x], byte-row [yPos]: column [i] of byte-row [j] counts when
    its column [x + i] is one of the 32 and its cell is one of the 64. *)
Definition clippedBox (x yPos w fht8 i j : Z) : Prop :=
  0 <= j < fht8 /\ 0 <= i <= w /\ 0 <= x + i < LINE_WIDTH /\
  0 <= glyphCell x yPos i j < LINE_WIDTH * DISPLAY_ROWS.

Definition set_dateFormat (v : Z) (s : State) : State :=
  mkState (scr s) (lastScr s) (firstRun s) (forceFullRedraw s) (style s) (clock s)
    (use24HourFormat s) (showLeadingZero s) v (sensor s) (currentMode s)
    (tftWidth s) (tftHeight s)
    (tft s) (ledCalls s) (blits s).

(** [traced s u]: [u] has the style and panel size of [s], and its call
    record and panel log are those of [s] extended by some calls and by
    the driver calls of exactly those calls. *)
Definition traced (s u : State) : Prop :=
  style u = style s /\ tftWidth u = tftWidth s /\ tftHeight u = tftHeight s /\
  exists calls,
    ledCalls u = ledCalls s ++ calls /\
    tft u = tft s ++ flat_map (pixelOps s) calls.

(** * Properties *)

(** ** Loops and memory *)

Lemma for_loop_ind {S : Type} (P : Z -> S -> Prop) (body : Z -> S -> S) :
  forall (n : nat) (i : Z) (s : S),
    P i s ->
    (forall k t, i <= k < i + Z.of_nat n -> P k t -> P (k + 1) (body k t)) ->
    P (i + Z.of_nat n) (for_loop n i body s).
Proof.
  induction n as [|n IH]; intros i s H0 Hstep.
  - simpl. replace (i + 0) with i by lia. exact H0.
  - cbn [for_loop].
    replace (i + Z.of_nat (Datatypes.S n)) with ((i + 1) + Z.of_nat n) by lia.
    apply IH.
    + apply Hstep; [lia | exact H0].
    + intros k t Hk. apply Hstep. lia.
Qed.

(** Invariant rule for a counting loop that runs at least zero times. *)
Lemma for_range_ind {S : Type} (P : Z -> S -> Prop) (body : Z -> S -> S)
      (lo hi : Z) (s : S) :
  lo <= hi ->
  P lo s ->
  (forall k t, lo <= k < hi -> P k t -> P (k + 1) (body k t)) ->
  P hi (for_range lo hi body s).
Proof.
  intros Hle H0 Hstep. unfold for_range.
  replace hi with (lo + Z.of_nat (Z.to_nat (hi - lo))) at 1 by lia.
  apply for_loop_ind; [exact H0|].
  intros k t Hk. apply Hstep. lia.
Qed.

(** The same rule for a property that does not mention the counter. *)
Lemma for_range_preserves {S : Type} (P : S -> Prop) (body : Z -> S -> S)
      (lo hi : Z) (s : S) :
  P s ->
  (forall k t, lo <= k < hi -> P t -> P (body k t)) ->
  P (for_range lo hi body s).
Proof.
  intros H0 Hstep. unfold for_range.
  destruct (Z_le_gt_dec lo hi) as [Hle|Hgt].
  - apply (for_range_ind (fun _ => P) body lo hi s Hle H0). exact Hstep.
  - replace (Z.to_nat (hi - lo)) with 0%nat by lia. exact H0.
Qed.

Lemma store_eq (k v : Z) (m : Mem) : store k v m k = v.
Proof. unfold store. now rewrite Z.eqb_refl. Qed.

Lemma store_neq (k v : Z) (m : Mem) (i : Z) : i <> k -> store k v m i = m i.
Proof. intros H. unfold store. destruct (Z.eqb_spec i k); [contradiction | reflexivity]. Qed.

Lemma pgm_read_byte_range (font : list Z) (k : Z) : 0 <= pgm_read_byte font k < 256.
Proof.
  unfold pgm_read_byte. destruct (k <? 0); [lia|].
  apply Z.mod_pos_bound. lia.
Qed.

Lemma upto_succ (n : Z) : 0 <= n -> upto (n + 1) = upto n ++ [n].
Proof.
  intros Hn. unfold upto.
  replace (Z.to_nat (n + 1)) with (Datatypes.S (Z.to_nat n)) by lia.
  rewrite seq_S, map_app. simpl. now rewrite Z2Nat.id by lia.
Qed.

Lemma in_upto (n k : Z) : In k (upto n) <-> 0 <= k < n.
Proof.
  unfold upto. rewrite in_map_iff. split.
  - intros [i [Hi Hin]]. apply in_seq in Hin. lia.
  - intros Hk. exists (Z.to_nat k). split; [lia|]. apply in_seq. lia.
Qed.

(** ** The glyph blitter *)

(** What [drawCharWithY] returns does not depend on the position or on the
    frame buffer. *)
Lemma drawCharWithY_advance (x yPos c : Z) (font : list Z) (m : Mem) :
  fst (drawCharWithY x yPos c font m) = advance c font.
Proof.
  unfold advance, drawCharWithY.
  destruct ((c <? pgm_read_byte font 2) || (c >? pgm_read_byte font 3)); reflexivity.
Qed.

Lemma advance_in_range (c : Z) (font : list Z) :
  pgm_read_byte font 2 <= c <= pgm_read_byte font 3 ->
  advance c font = pgm_read_byte font (glyphOffset c font).
Proof.
  intros Hc. unfold advance, drawCharWithY.
  destruct (Z.ltb_spec c (pgm_read_byte font 2)); [lia|].
  destruct (Z.gtb_spec c (pgm_read_byte font 3)); [lia|].
  reflexivity.
Qed.

Lemma advance_range (c : Z) (font : list Z) : 0 <= advance c font < 256.
Proof.
  unfold advance, drawCharWithY.
  destruct ((c <? pgm_read_byte font 2) || (c >? pgm_read_byte font 3)); cbn [fst].
  - lia.
  - apply pgm_read_byte_range.
Qed.

(** Every store of the blitter is inside the array: memory at an index
    outside [0,64) is as before, for any position, character and table. *)
Lemma drawCharWithY_outside (x yPos c : Z) (font : list Z) (m : Mem) (k : Z) :
  ~ (0 <= k < LINE_WIDTH * DISPLAY_ROWS) ->
  snd (drawCharWithY x yPos c font m) k = m k.
Proof.
  intros Hk. unfold drawCharWithY.
  destruct ((c <? pgm_read_byte font 2) || (c >? pgm_read_byte font 3)); [reflexivity|].
  cbn [snd].
  apply (for_range_preserves (fun t : Mem => t k = m k)); [reflexivity|].
  intros j t _ Ht.
  assert (Hin : for_range 0 (pgm_read_byte font (glyphOffset c font))
                  (fun i scr0 =>
                     if (x + i >=? 0) && (x + i <? LINE_WIDTH) then
                       if (x + LINE_WIDTH * (j + yPos) + i >=? 0)
                          && (x + LINE_WIDTH * (j + yPos) + i <? LINE_WIDTH * DISPLAY_ROWS)
                       then store (x + LINE_WIDTH * (j + yPos) + i)
                              (pgm_read_byte font
                                 (glyphOffset c font + 1
                                  + Z.quot (pgm_read_byte font 1 + 7) 8 * i + j)) scr0
                       else scr0
                     else scr0) t k = m k).
  { apply (for_range_preserves (fun u : Mem => u k = m k)); [exact Ht|].
    intros i u _ Hu.
    destruct ((x + i >=? 0) && (x + i <? LINE_WIDTH)); [|exact Hu].
    destruct (Z.geb_spec (x + LINE_WIDTH * (j + yPos) + i) 0); cbn [andb]; [|exact Hu].
    destruct (Z.ltb_spec (x + LINE_WIDTH * (j + yPos) + i) (LINE_WIDTH * DISPLAY_ROWS));
      [|exact Hu].
    rewrite store_neq; [exact Hu | lia]. }
  cbv zeta.
  destruct ((x + pgm_read_byte font (glyphOffset c font) <? LINE_WIDTH)
            && (x + pgm_read_byte font (glyphOffset c font) >=? 0)); [|exact Hin].
  match goal with |- context [(?a >=? 0) && (?a <? ?b)] =>
    destruct (Z.geb_spec a 0); cbn [andb]; [|exact Hin];
    destruct (Z.ltb_spec a b); [|exact Hin]
  end.
  rewrite store_neq; [exact Hin | lia].
Qed.

Lemma glyphCell_inj (x yPos i j i' j' : Z) :
  0 <= x + i < LINE_WIDTH -> 0 <= x + i' < LINE_WIDTH ->
  glyphCell x yPos i j = glyphCell x yPos i' j' -> i = i' /\ j = j'.
Proof. unfold glyphCell, LINE_WIDTH. lia. Qed.

(** One more store into a region that stays inside the columns of the
    matrix. *)
Lemma written_store (x yPos : Z) (R R' : Z -> Z -> Prop) (v : Z -> Z -> Z)
      (m0 m : Mem) (i0 j0 : Z) :
  written x yPos R v m0 m ->
  (forall i j, R' i j <-> R i j \/ (i = i0 /\ j = j0)) ->
  (forall i j, R' i j -> 0 <= x + i < LINE_WIDTH) ->
  (forall i j, R i j -> ~ (i = i0 /\ j = j0)) ->
  written x yPos R' v m0 (store (glyphCell x yPos i0 j0) (v i0 j0) m).
Proof.
  intros [Hin Hout] HR' Hbox Hnew. split.
  - intros i j Hij. apply HR' in Hij as Hcase.
    destruct Hcase as [HR | [-> ->]].
    + rewrite store_neq; [now apply Hin|].
      intros Heq. apply glyphCell_inj in Heq.
      * now apply (Hnew i j).
      * now apply (Hbox i j).
      * apply (Hbox i0 j0). apply HR'. now right.
    + apply store_eq.
  - intros k Hk. rewrite store_neq.
    + apply Hout. intros i j HR. apply Hk. apply HR'. now left.
    + apply Hk. apply HR'. now right.
Qed.

Lemma written_ext (x yPos : Z) (R R' : Z -> Z -> Prop) (v : Z -> Z -> Z) (m0 m : Mem) :
  written x yPos R v m0 m ->
  (forall i j, R' i j <-> R i j) ->
  written x yPos R' v m0 m.
Proof.
  intros [Hin Hout] HR. split.
  - intros i j Hij. apply Hin. now apply HR.
  - intros k Hk. apply Hout. intros i j Hij. apply Hk. now apply HR.
Qed.

(** The blitter on a glyph that fits: the glyph's rectangle, one column
    wider than the glyph, holds the table's bytes and a blank column; the
    rest of memory is as before. *)
Lemma drawCharWithY_fits (x yPos c : Z) (font : list Z) (m : Mem) :
  let w := pgm_read_byte font (glyphOffset c font) in
  let fht8 := Z.quot (pgm_read_byte font 1 + 7) 8 in
  pgm_read_byte font 2 <= c <= pgm_read_byte font 3 ->
  0 <= x -> x + w <= LINE_WIDTH -> 0 <= yPos -> yPos + fht8 <= DISPLAY_ROWS ->
  written x yPos (fun i j => 0 <= j < fht8 /\ 0 <= i <= w /\ x + i < LINE_WIDTH)
    (fun i j =>
       if i <? w then pgm_read_byte font (glyphOffset c font + 1 + fht8 * i + j) else 0)
    m (snd (drawCharWithY x yPos c font m)).
Proof.
  intros w fht8 Hc Hx Hxw Hy Hyh.
  assert (Hw : 0 <= w) by apply pgm_read_byte_range.
  assert (Hh : 0 <= fht8).
  { apply Z.quot_pos; [|lia]. pose proof (pgm_read_byte_range font 1). lia. }
  unfold drawCharWithY.
  destruct (Z.ltb_spec c (pgm_read_byte font 2)); [lia|].
  destruct (Z.gtb_spec c (pgm_read_byte font 3)); [lia|].
  cbn [orb snd]. fold w fht8.
  set (v := fun i j : Z =>
              if i <? w then pgm_read_byte font (glyphOffset c font + 1 + fht8 * i + j)
              else 0).
  apply (for_range_ind
           (fun j t =>
              written x yPos
                (fun i' j' => 0 <= j' < j /\ 0 <= i' <= w /\ x + i' < LINE_WIDTH) v m t));
    [exact Hh | |].
  { split; [intros i j [Hj _]; lia | reflexivity]. }
  intros j t Hj Ht.
  assert (Hrow :
    written x yPos
      (fun i' j' =>
         (0 <= j' < j /\ 0 <= i' <= w /\ x + i' < LINE_WIDTH) \/ (j' = j /\ 0 <= i' < w))
      v m
      (for_range 0 w
         (fun i scr0 =>
            if (x + i >=? 0) && (x + i <? LINE_WIDTH) then
              if (x + LINE_WIDTH * (j + yPos) + i >=? 0)
                 && (x + LINE_WIDTH * (j + yPos) + i <? LINE_WIDTH * DISPLAY_ROWS)
              then store (x + LINE_WIDTH * (j + yPos) + i)
                     (pgm_read_byte font (glyphOffset c font + 1 + fht8 * i + j)) scr0
              else scr0
            else scr0) t)).
  { apply (for_range_ind
             (fun i u =>
                written x yPos
                  (fun i' j' =>
                     (0 <= j' < j /\ 0 <= i' <= w /\ x + i' < LINE_WIDTH)
                     \/ (j' = j /\ 0 <= i' < i))
                  v m u)); [exact Hw | |].
    { apply (written_ext _ _ _ _ _ _ _ Ht). intros i' j'. lia. }
    intros i u Hi Hu.
    destruct (Z.geb_spec (x + i) 0); [|lia].
    destruct (Z.ltb_spec (x + i) LINE_WIDTH); [|lia].
    destruct (Z.geb_spec (x + LINE_WIDTH * (j + yPos) + i) 0);
      [|unfold LINE_WIDTH in *; lia].
    destruct (Z.ltb_spec (x + LINE_WIDTH * (j + yPos) + i) (LINE_WIDTH * DISPLAY_ROWS));
      [|unfold LINE_WIDTH, DISPLAY_ROWS in *; lia].
    cbn [andb].
    replace (pgm_read_byte font (glyphOffset c font + 1 + fht8 * i + j)) with (v i j).
    2:{ unfold v. destruct (Z.ltb_spec i w); [reflexivity | lia]. }
    apply (written_store x yPos
             (fun i' j' =>
                (0 <= j' < j /\ 0 <= i' <= w /\ x + i' < LINE_WIDTH)
                \/ (j' = j /\ 0 <= i' < i))
             _ v m u i j Hu).
    - intros i' j'. lia.
    - intros i' j'. lia.
    - intros i' j'. lia. }
  cbv zeta.
  destruct (Z.ltb_spec (x + w) LINE_WIDTH) as [Hlt|Hge]; cbn [andb].
  - destruct (Z.geb_spec (x + w) 0); [|lia].
    destruct (Z.geb_spec (x + LINE_WIDTH * (j + yPos) + w) 0);
      [|unfold LINE_WIDTH in *; lia].
    destruct (Z.ltb_spec (x + LINE_WIDTH * (j + yPos) + w) (LINE_WIDTH * DISPLAY_ROWS));
      [|unfold LINE_WIDTH, DISPLAY_ROWS in *; lia].
    cbn [andb].
    assert (Hv : v w j = 0).
    { unfold v. destruct (Z.ltb_spec w w); [lia | reflexivity]. }
    pose proof (written_store x yPos
                  (fun i' j' =>
                     (0 <= j' < j /\ 0 <= i' <= w /\ x + i' < LINE_WIDTH)
                     \/ (j' = j /\ 0 <= i' < w))
                  (fun i' j' => 0 <= j' < j + 1 /\ 0 <= i' <= w /\ x + i' < LINE_WIDTH)
                  v m _ w j Hrow) as Hs.
    rewrite Hv in Hs. apply Hs.
    + intros i' j'. lia.
    + intros i' j'. lia.
    + intros i' j'. lia.
  - apply (written_ext _ _ _ _ _ _ _ Hrow). intros i' j'. lia.
Qed.

(** C3 -- glyph round trip.  For a character in the font's range drawn
    where the glyph and its trailing column fit (columns [x..x+w] inside
    the 32 columns, byte-rows [yPos..yPos+fht8-1] inside the two module
    rows), [drawCharWithY] returns the glyph's width [w], leaves in
    columns [x..x+w-1] of every byte-row the table's column bytes
    unchanged, leaves 0 in column [x+w] of every byte-row, and changes no
    other cell. *)
Theorem glyph_round_trip (x yPos c : Z) (font : list Z) (m : Mem) :
  let w := pgm_read_byte font (glyphOffset c font) in
  let fht8 := Z.quot (pgm_read_byte font 1 + 7) 8 in
  pgm_read_byte font 2 <= c <= pgm_read_byte font 3 ->
  0 <= x -> x + w < LINE_WIDTH -> 0 <= yPos -> yPos + fht8 <= DISPLAY_ROWS ->
  let r := drawCharWithY x yPos c font m in
  fst r = w /\
  (forall i j, 0 <= i < w -> 0 <= j < fht8 ->
     snd r ((x + i) + LINE_WIDTH * (yPos + j))
     = pgm_read_byte font (glyphOffset c font + 1 + fht8 * i + j)) /\
  (forall j, 0 <= j < fht8 -> snd r ((x + w) + LINE_WIDTH * (yPos + j)) = 0) /\
  (forall k, (forall i j, 0 <= i <= w -> 0 <= j < fht8 ->
                k <> (x + i) + LINE_WIDTH * (yPos + j)) ->
     snd r k = m k).
Proof.
  intros w fht8 Hc Hx Hxw Hy Hyh r.
  destruct (drawCharWithY_fits x yPos c font m Hc Hx (Z.lt_le_incl _ _ Hxw) Hy Hyh)
    as [Hin Hout].
  fold w fht8 in Hin, Hout. fold r in Hin, Hout.
  split; [|split; [|split]].
  - unfold r. rewrite drawCharWithY_advance. now apply advance_in_range.
  - intros i j Hi Hj.
    replace ((x + i) + LINE_WIDTH * (yPos + j)) with (glyphCell x yPos i j)
      by (unfold glyphCell; lia).
    rewrite Hin by lia.
    destruct (Z.ltb_spec i w); [reflexivity | lia].
  - intros j Hj.
    replace ((x + w) + LINE_WIDTH * (yPos + j)) with (glyphCell x yPos w j)
      by (unfold glyphCell; lia).
    assert (Hw : 0 <= w) by apply pgm_read_byte_range.
    rewrite Hin by lia.
    destruct (Z.ltb_spec w w); [lia | reflexivity].
  - intros k Hk. apply Hout. intros i j [Hj Hi].
    unfold glyphCell.
    replace (x + LINE_WIDTH * (j + yPos) + i) with ((x + i) + LINE_WIDTH * (yPos + j)) by lia.
    now apply Hk.
Qed.

(** C3 on the sample table: the digit 2 drawn at column 3 of the lower
    module row. *)
Lemma glyph_round_trip_sample :
  (pgm_read_byte sample5x8 2 <= code "2" <= pgm_read_byte sample5x8 3) /\
  (let r := drawCharWithY 3 1 (code "2") sample5x8 (fun _ => 0) in
   fst r = 5 /\
   (forall i j, 0 <= i < 5 -> 0 <= j < 1 ->
      snd r ((3 + i) + LINE_WIDTH * (1 + j))
      = pgm_read_byte sample5x8 (glyphOffset (code "2") sample5x8 + 1 + 1 * i + j)) /\
   (forall j, 0 <= j < 1 -> snd r ((3 + 5) + LINE_WIDTH * (1 + j)) = 0) /\
   (forall k, (forall i j, 0 <= i <= 5 -> 0 <= j < 1 ->
                 k <> (3 + i) + LINE_WIDTH * (1 + j)) ->
      snd r k = 0)).
Proof.
  split; [vm_compute; split; discriminate|].
  apply (glyph_round_trip 3 1 (code "2") sample5x8 (fun _ => 0));
    vm_compute; try split; try discriminate; reflexivity.
Defined.

(** At the right edge, where the glyph ends in column 31, there is no
    column for the trailing blank: the guard skips that store, the glyph's
    columns are written and every other cell is as before. *)
Lemma glyph_at_right_edge (x yPos c : Z) (font : list Z) (m : Mem) :
  let w := pgm_read_byte font (glyphOffset c font) in
  let fht8 := Z.quot (pgm_read_byte font 1 + 7) 8 in
  pgm_read_byte font 2 <= c <= pgm_read_byte font 3 ->
  0 <= x -> x + w = LINE_WIDTH -> 0 <= yPos -> yPos + fht8 <= DISPLAY_ROWS ->
  let r := drawCharWithY x yPos c font m in
  (forall i j, 0 <= i < w -> 0 <= j < fht8 ->
     snd r ((x + i) + LINE_WIDTH * (yPos + j))
     = pgm_read_byte font (glyphOffset c font + 1 + fht8 * i + j)) /\
  (forall k, (forall i j, 0 <= i < w -> 0 <= j < fht8 ->
                k <> (x + i) + LINE_WIDTH * (yPos + j)) ->
     snd r k = m k).
Proof.
  intros w fht8 Hc Hx Hxw Hy Hyh r.
  destruct (drawCharWithY_fits x yPos c font m Hc Hx (Z.eq_le_incl _ _ Hxw) Hy Hyh)
    as [Hin Hout].
  fold w fht8 in Hin, Hout. fold r in Hin, Hout.
  split.
  - intros i j Hi Hj.
    replace ((x + i) + LINE_WIDTH * (yPos + j)) with (glyphCell x yPos i j)
      by (unfold glyphCell; lia).
    rewrite Hin by lia.
    destruct (Z.ltb_spec i w); [reflexivity | lia].
  - intros k Hk. apply Hout. intros i j [Hj [Hi Hcol]].
    unfold glyphCell.
    replace (x + LINE_WIDTH * (j + yPos) + i) with ((x + i) + LINE_WIDTH * (yPos + j)) by lia.
    apply Hk; lia.
Qed.

(** The digit 2 of the sample table at column 27 of the upper row, over a
    frame buffer that is 0xFF everywhere: cells 27..31 take the glyph and
    cell 32, the first of the lower row, keeps its byte. *)
Example glyph_at_right_edge_sample :
  let r := drawCharWithY 27 0 (code "2") sample5x8 (fun _ => 0xFF) in
  fst r = 5 /\
  map (snd r) [26; 27; 28; 29; 30; 31; 32] = [0xFF; 0x42; 0x61; 0x51; 0x49; 0x46; 0xFF].
Proof. split; vm_compute; reflexivity. Qed.

(** Reading back the frame buffer after the digit 2 is drawn at column 3
    of the lower row of a cleared buffer. *)
Example glyph_readback_sample :
  snapshot 64 (snd (drawCharWithY 3 1 (code "2") sample5x8 (fun _ => 0)))
  = repeat 0 35 ++ [0x42; 0x61; 0x51; 0x49; 0x46] ++ repeat 0 24.
Proof. vm_compute. reflexivity. Qed.

(** C7 -- unsupported glyph.  For a character outside the font's
    [firstChar..lastChar] (bytes 2 and 3 of the table), [charWidth] is 0
    and [drawCharWithY] returns 0 and leaves the frame buffer as it was. *)
Theorem unsupported_glyph_noop (x yPos c : Z) (font : list Z) (m : Mem) :
  c < pgm_read_byte font 2 \/ c > pgm_read_byte font 3 ->
  charWidth c font = 0 /\ drawCharWithY x yPos c font m = (0, m).
Proof.
  intros Hc.
  assert (Hb : (c <? pgm_read_byte font 2) || (c >? pgm_read_byte font 3) = true).
  { apply orb_true_iff. destruct Hc as [Hc|Hc]; [left | right].
    - now apply Z.ltb_lt.
    - rewrite Z.gtb_ltb. apply Z.ltb_lt. lia. }
  unfold charWidth, drawCharWithY. rewrite Hb. split; reflexivity.
Qed.

(** C7 on the sample table, which has no letter: the letter P. *)
Lemma unsupported_glyph_noop_sample :
  (code "P" < pgm_read_byte sample5x8 2 \/ code "P" > pgm_read_byte sample5x8 3) /\
  charWidth (code "P") sample5x8 = 0 /\
  drawCharWithY 4 0 (code "P") sample5x8 (fun _ => 0) = (0, fun _ => 0).
Proof.
  split; [right; reflexivity|].
  apply (unsupported_glyph_noop 4 0 (code "P") sample5x8 (fun _ => 0)).
  right. reflexivity.
Defined.

(** ** The pixel renderer *)

(** C4 -- bounds safety.  For [x] outside [0,32) or [y] outside [0,16),
    [drawLEDPixel x y true] returns with the whole state as it was: the
    frame buffer and the panel (no driver call is issued).  And no store
    of the glyph blitter lands outside the 64 bytes of [scr], whatever
    the position, the character and the table. *)
Theorem bounds_safety (x y : Z) (s : State) :
  ~ (0 <= x < TOTAL_WIDTH) \/ ~ (0 <= y < TOTAL_HEIGHT) ->
  drawLEDPixel x y true s = s /\
  (forall (bx yPos c : Z) (font : list Z) (m : Mem) (k : Z),
      ~ (0 <= k < LINE_WIDTH * DISPLAY_ROWS) ->
      snd (drawCharWithY bx yPos c font m) k = m k).
Proof.
  intros Hxy. split.
  - unfold drawLEDPixel.
    destruct (Z.ltb_spec x 0); [reflexivity|].
    destruct (Z.geb_spec x TOTAL_WIDTH); [reflexivity|].
    destruct (Z.ltb_spec y 0); [reflexivity|].
    destruct (Z.geb_spec y TOTAL_HEIGHT); [reflexivity|].
    exfalso. destruct Hxy as [Hxy|Hxy]; apply Hxy; lia.
  - intros bx yPos c font m k Hk. now apply drawCharWithY_outside.
Qed.

(** C4 at pixel (32, 5) of the start state. *)
Lemma bounds_safety_sample :
  (~ (0 <= 32 < TOTAL_WIDTH) \/ ~ (0 <= 5 < TOTAL_HEIGHT)) /\
  drawLEDPixel 32 5 true initialState = initialState /\
  (forall (bx yPos c : Z) (font : list Z) (m : Mem) (k : Z),
      ~ (0 <= k < LINE_WIDTH * DISPLAY_ROWS) ->
      snd (drawCharWithY bx yPos c font m) k = m k).
Proof.
  assert (H : ~ (0 <= 32 < TOTAL_WIDTH) \/ ~ (0 <= 5 < TOTAL_HEIGHT)).
  { left. unfold TOTAL_WIDTH. lia. }
  split; [exact H|].
  exact (bounds_safety 32 5 initialState H).
Defined.

(** The renderer on the 320x240 panel: in the block style one filled
    square per pixel, 4 panel rows lower from logical row 8 on; in the
    realistic style a square and the pixels of the disc; the dimmed
    housing colour of the unlit LED. *)
Example drawLEDPixel_samples :
  tft (drawLEDPixel 3 7 false blockState) = [FillRect 30 108 10 10 BG_COLOR] /\
  tft (drawLEDPixel 3 9 true blockState) = [FillRect 30 132 10 10 COLOR_RED] /\
  List.length (tft (drawLEDPixel 3 9 true initialState)) = 101%nat /\
  List.length (tft (drawLEDPixel 3 9 false initialState)) = 53%nat /\
  dimRGB565 COLOR_DARK_GRAY 7 = 0x0861.
Proof. repeat split; vm_compute; reflexivity. Qed.

(** [drawLEDPixel] only issues driver calls. *)
Lemma drawLEDPixel_frame (x y : Z) (lit : bool) (s : State) :
  exists t, drawLEDPixel x y lit s = set_tft t s.
Proof.
  unfold drawLEDPixel.
  destruct ((x <? 0) || (x >=? TOTAL_WIDTH) || (y <? 0) || (y >=? TOTAL_HEIGHT)).
  { exists (tft s). destruct s; reflexivity. }
  cbv zeta.
  destruct (displayStyle (style s) =? 0); [eexists; reflexivity|].
  destruct lit; cbn [negb].
  - apply (for_range_preserves (fun u => exists t, u = set_tft t s));
      [eexists; reflexivity|].
    intros py u _ Hu.
    apply (for_range_preserves (fun u => exists t, u = set_tft t s)); [exact Hu|].
    intros px v _ [t ->]. eexists; reflexivity.
  - apply (for_range_preserves (fun u => exists t, u = set_tft t s));
      [eexists; reflexivity|].
    intros py u _ Hu.
    apply (for_range_preserves (fun u => exists t, u = set_tft t s)); [exact Hu|].
    intros px v _ [t ->].
    match goal with |- context [if ?b then _ else _] => destruct b end;
      [eexists; reflexivity|].
    match goal with |- context [if ?b then _ else _] => destruct b end;
      eexists; reflexivity.
Qed.

Lemma call_drawLEDPixel_frame (x y : Z) (lit : bool) (s : State) :
  exists t,
    call_drawLEDPixel x y lit s = set_tft t (set_ledCalls (ledCalls s ++ [(x, y, lit)]) s).
Proof.
  unfold call_drawLEDPixel.
  destruct (drawLEDPixel_frame x y lit (set_ledCalls (ledCalls s ++ [(x, y, lit)]) s))
    as [t Ht].
  exists t. exact Ht.
Qed.

(** The eight calls of one cell. *)
Lemma cell_loop (displayX row pixelByte : Z) (s : State) :
  exists t,
    for_range 0 8
      (fun bitPos s =>
         call_drawLEDPixel displayX (row * 8 + bitPos)
           (negb (Z.land pixelByte (Z.shiftl 1 bitPos) =? 0)) s)
      s
    = set_tft t (set_ledCalls (ledCalls s ++ cellCalls displayX row pixelByte) s).
Proof.
  set (entry := fun bitPos =>
                  (displayX, row * 8 + bitPos,
                   negb (Z.land pixelByte (Z.shiftl 1 bitPos) =? 0))).
  apply (for_range_ind
           (fun n u => exists t,
                u = set_tft t (set_ledCalls (ledCalls s ++ map entry (upto n)) s)));
    [lia | |].
  - exists (tft s). cbn [upto Z.to_nat seq map]. rewrite app_nil_r.
    destruct s; reflexivity.
  - intros k u Hk [t ->].
    destruct (call_drawLEDPixel_frame displayX (row * 8 + k)
                (negb (Z.land pixelByte (Z.shiftl 1 k) =? 0))
                (set_tft t (set_ledCalls (ledCalls s ++ map entry (upto k)) s)))
      as [t' Ht'].
    exists t'. rewrite Ht'. cbn [ledCalls set_tft set_ledCalls].
    rewrite upto_succ by lia. rewrite map_app, app_assoc. reflexivity.
Qed.

Lemma passCalls_succ (s : State) (n : Z) :
  0 <= n ->
  passCalls s (n + 1)
  = passCalls s n
      ++ (if dirtyCell s n then cellCalls (n mod 32) (n / 32) (scr s n) else []).
Proof.
  intros Hn. unfold passCalls. rewrite upto_succ by lia.
  rewrite flat_map_app. cbn [flat_map]. now rewrite app_nil_r.
Qed.

Lemma passDone_start (s : State) : passDone s 0 s.
Proof.
  exists (tft s), (lastScr s). split.
  - cbn [passCalls upto Z.to_nat seq map flat_map]. rewrite app_nil_r.
    destruct s; reflexivity.
  - intros k. destruct (Z.leb_spec 0 k), (Z.ltb_spec k 0); cbn [andb]; try reflexivity.
    lia.
Qed.

Lemma passDone_cell (s : State) (row displayX : Z) (u : State) :
  0 <= row < DISPLAY_ROWS -> 0 <= displayX < LINE_WIDTH ->
  passDone s (LINE_WIDTH * row + displayX) u ->
  passDone s (LINE_WIDTH * row + (displayX + 1))
    (let bufferIndex := displayX + row * LINE_WIDTH in
     if (bufferIndex >=? 0) && (bufferIndex <? LINE_WIDTH * DISPLAY_ROWS) then
       let pixelByte := scr u bufferIndex in
       if firstRun u || negb (pixelByte =? lastScr u bufferIndex) then
         let u := set_lastScr (store bufferIndex pixelByte (lastScr u)) u in
         for_range 0 8
           (fun bitPos s =>
              let displayY := row * 8 + bitPos in
              let lit := negb (Z.land pixelByte (Z.shiftl 1 bitPos) =? 0) in
              call_drawLEDPixel displayX displayY lit s)
           u
       else u
     else u).
Proof.
  unfold LINE_WIDTH, DISPLAY_ROWS. intros Hrow Hx [t [L [-> HL]]].
  cbv zeta.
  replace (displayX + row * 32) with (32 * row + displayX) by lia.
  set (n := 32 * row + displayX) in *.
  assert (Hn : 0 <= n < 64) by lia.
  destruct (Z.geb_spec n 0); [|lia].
  destruct (Z.ltb_spec n (32 * 2)); [|lia].
  cbn [andb scr firstRun lastScr set_tft set_ledCalls set_lastScr].
  assert (HLn : L n = lastScr s n).
  { rewrite HL. destruct (Z.ltb_spec n n); [lia|].
    now rewrite andb_false_r. }
  rewrite HLn. fold (dirtyCell s n).
  assert (Hmod : n mod 32 = displayX /\ n / 32 = row).
  { unfold n. split.
    - rewrite Z.add_comm, Z.mul_comm, Z_mod_plus_full. apply Z.mod_small. lia.
    - rewrite Z.add_comm, Z.mul_comm, Z_div_plus_full by lia.
      rewrite Z.div_small by lia. lia. }
  destruct Hmod as [Hmod Hdiv].
  replace (32 * row + (displayX + 1)) with (n + 1) by (unfold n; lia).
  unfold passDone. rewrite passCalls_succ by lia.
  destruct (dirtyCell s n) eqn:Hd.
  - destruct (cell_loop displayX row (scr s n)
                (set_lastScr (store n (scr s n) L)
                   (set_tft t (set_ledCalls (ledCalls s ++ passCalls s n)
                                  (set_lastScr L s)))))
      as [t' Ht'].
    exists t', (store n (scr s n) L). split.
    + rewrite Ht'. cbn [ledCalls set_tft set_ledCalls set_lastScr].
      rewrite Hmod, Hdiv, app_assoc. reflexivity.
    + intros k. unfold store. rewrite HL.
      destruct (Z.eqb_spec k n) as [->|Hne].
      * destruct (Z.leb_spec 0 n); [|lia].
        destruct (Z.ltb_spec n (n + 1)); [|lia].
        cbn [andb]. now rewrite Hd.
      * destruct (Z.ltb_spec k n), (Z.ltb_spec k (n + 1)); try reflexivity; lia.
  - exists t, L. split.
    + now rewrite app_nil_r.
    + intros k. rewrite HL.
      destruct (Z.eqb_spec k n) as [->|Hne].
      * rewrite Hd. now rewrite !andb_false_r.
      * destruct (Z.ltb_spec k n), (Z.ltb_spec k (n + 1)); try reflexivity; lia.
Qed.

(** A pass without a pending invalidation. *)
Lemma refreshAll_unforced (s : State) :
  forceFullRedraw s = false ->
  exists u, passDone s (LINE_WIDTH * DISPLAY_ROWS) u /\ refreshAll s = set_firstRun false u.
Proof.
  intros Hf. unfold refreshAll. rewrite Hf. cbv zeta.
  eexists. split; [|reflexivity].
  apply (for_range_ind (fun row u => passDone s (LINE_WIDTH * row) u));
    [unfold DISPLAY_ROWS; lia | |].
  - replace (LINE_WIDTH * 0) with 0 by (unfold LINE_WIDTH; lia). apply passDone_start.
  - intros row u Hrow Hu.
    replace (LINE_WIDTH * (row + 1)) with (LINE_WIDTH * row + LINE_WIDTH)
      by (unfold LINE_WIDTH; lia).
    apply (for_range_ind (fun displayX v => passDone s (LINE_WIDTH * row + displayX) v));
      [unfold LINE_WIDTH; lia | |].
    + replace (LINE_WIDTH * row + 0) with (LINE_WIDTH * row) by lia. exact Hu.
    + intros displayX v Hx Hv. now apply passDone_cell.
Qed.

(** A pass with a pending invalidation is a pass from the invalidated
    state. *)
Lemma refreshAll_forced (s : State) :
  forceFullRedraw s = true -> refreshAll s = refreshAll (invalidated s).
Proof. intros Hf. unfold refreshAll. rewrite Hf. reflexivity. Qed.

(** A pass over a frame buffer that equals its shadow issues no call
    and leaves the state as it is. *)
Lemma refreshAll_clean (s : State) :
  forceFullRedraw s = false -> firstRun s = false ->
  (forall k, 0 <= k < LINE_WIDTH * DISPLAY_ROWS -> lastScr s k = scr s k) ->
  refreshAll s = s.
Proof.
  intros Hf Hr Heq. unfold refreshAll. rewrite Hf. cbv zeta.
  match goal with |- set_firstRun false ?u = s => assert (Hu : u = s) end.
  { apply (for_range_preserves (fun u => u = s)); [reflexivity|].
    intros row u Hrow ->.
    apply (for_range_preserves (fun u => u = s)); [reflexivity|].
    intros displayX v Hx ->.
    assert (Hn : 0 <= displayX + row * LINE_WIDTH < LINE_WIDTH * DISPLAY_ROWS)
      by (unfold LINE_WIDTH, DISPLAY_ROWS in *; lia).
    destruct (Z.geb_spec (displayX + row * LINE_WIDTH) 0); [|lia].
    destruct (Z.ltb_spec (displayX + row * LINE_WIDTH) (LINE_WIDTH * DISPLAY_ROWS)); [|lia].
    cbn [andb]. rewrite Hr, (Heq _ Hn), Z.eqb_refl. reflexivity. }
  rewrite Hu. destruct s; cbn in Hr |- *. now rewrite Hr.
Qed.

(** Every pass is a pass without pending invalidation, from the state
    itself or from the invalidated state. *)
Lemma refreshAll_shape (s : State) :
  exists s0 u,
    (s0 = s \/ (forceFullRedraw s = true /\ s0 = invalidated s)) /\
    forceFullRedraw s0 = false /\
    passDone s0 (LINE_WIDTH * DISPLAY_ROWS) u /\
    refreshAll s = set_firstRun false u.
Proof.
  destruct (forceFullRedraw s) eqn:Hf.
  - destruct (refreshAll_unforced (invalidated s) eq_refl) as [u [Hu Hr]].
    exists (invalidated s), u. rewrite refreshAll_forced by exact Hf.
    repeat split; auto.
  - destruct (refreshAll_unforced s Hf) as [u [Hu Hr]].
    exists s, u. repeat split; auto.
Qed.

(** After any pass both flags are clear and the shadow equals the frame
    buffer. *)
Lemma refreshAll_post (s : State) :
  forceFullRedraw (refreshAll s) = false /\
  firstRun (refreshAll s) = false /\
  (forall k, 0 <= k < LINE_WIDTH * DISPLAY_ROWS ->
     lastScr (refreshAll s) k = scr (refreshAll s) k).
Proof.
  destruct (refreshAll_shape s) as [s0 [u [_ [Hf [[t [L [-> HL]]] ->]]]]].
  cbn [forceFullRedraw firstRun lastScr scr set_firstRun set_tft set_ledCalls set_lastScr].
  repeat split; [exact Hf|].
  intros k Hk. rewrite HL.
  destruct (Z.leb_spec 0 k); [|lia].
  destruct (Z.ltb_spec k (LINE_WIDTH * DISPLAY_ROWS)); [|lia].
  cbn [andb]. unfold dirtyCell.
  destruct (firstRun s0); [reflexivity|]. cbn [orb].
  destruct (Z.eqb_spec (scr s0 k) (lastScr s0 k)) as [He|He]; cbn [negb]; congruence.
Qed.

(** C1 -- idempotent refresh.  After a call of [refreshAll] every cell's
    shadow byte equals its frame-buffer byte, and a second call made on
    the state the first one left (no frame-buffer mutation, no redraw
    request in between) changes nothing: it makes no [drawLEDPixel] call
    and issues no driver call. *)
Theorem refresh_idempotent (s : State) :
  let s1 := refreshAll s in
  (forall k, 0 <= k < LINE_WIDTH * DISPLAY_ROWS -> lastScr s1 k = scr s1 k) /\
  refreshAll s1 = s1 /\
  ledCalls (refreshAll s1) = ledCalls s1 /\
  tft (refreshAll s1) = tft s1.
Proof.
  intros s1. destruct (refreshAll_post s) as [Hf [Hr Heq]]. fold s1 in Hf, Hr, Heq.
  assert (Hid : refreshAll s1 = s1) by now apply refreshAll_clean.
  rewrite Hid. repeat split; auto.
Qed.

(** The first call does issue calls on a cold cache: from the start
    state all 512 pixels are painted, and none on the second call. *)
Example refresh_cold_then_clean :
  List.length (ledCalls (refreshAll initialState)) = 512%nat /\
  List.length (ledCalls (refreshAll (refreshAll initialState))) = 512%nat.
Proof. split; vm_compute; reflexivity. Qed.

Lemma allPixels_in (x y : Z) :
  In (x, y) allPixels <-> 0 <= x < TOTAL_WIDTH /\ 0 <= y < TOTAL_HEIGHT.
Proof.
  unfold allPixels, TOTAL_WIDTH, TOTAL_HEIGHT. rewrite in_flat_map. split.
  - intros [k [Hk Hin]]. apply in_upto in Hk.
    apply in_map_iff in Hin as [b [Heq Hb]]. apply in_upto in Hb.
    inversion Heq; subst.
    pose proof (Z.mod_pos_bound k 32 ltac:(lia)).
    assert (0 <= k / 32 < 2).
    { split; [apply Z.div_pos; lia | apply Z.div_lt_upper_bound; lia]. }
    lia.
  - intros [Hx Hy]. exists (x + 32 * (y / 8)).
    assert (Hq : 0 <= y / 8 < 2).
    { split; [apply Z.div_pos; lia | apply Z.div_lt_upper_bound; lia]. }
    split; [apply in_upto; lia|].
    apply in_map_iff. exists (y mod 8). split.
    + rewrite Z.mul_comm, Z_mod_plus_full, Z.mod_small by lia.
      rewrite Z_div_plus_full, Z.div_small by lia.
      f_equal. pose proof (Z.div_mod y 8 ltac:(lia)). lia.
    + apply in_upto. apply Z.mod_pos_bound. lia.
Qed.

Lemma allPixels_once (x y : Z) :
  0 <= x < TOTAL_WIDTH -> 0 <= y < TOTAL_HEIGHT ->
  count_occ pixel_eq_dec allPixels (x, y) = 1%nat.
Proof.
  intros Hx Hy.
  assert (Hall : forallb (fun p => Nat.eqb (count_occ pixel_eq_dec allPixels p) 1) allPixels
                 = true) by (vm_compute; reflexivity).
  rewrite forallb_forall in Hall.
  apply Nat.eqb_eq, Hall, allPixels_in. now split.
Qed.

Lemma allPixelCalls_pixels (m : Mem) : map fst (allPixelCalls m) = allPixels.
Proof.
  unfold allPixelCalls, allPixels.
  induction (upto 64) as [|k l IH]; [reflexivity|].
  cbn [flat_map]. rewrite map_app, IH. f_equal.
Qed.

(** C2 -- forced redraw.  Whatever the frame buffer and the shadow hold,
    a call of [refreshAll] with [forceFullRedraw] set makes exactly the
    calls of a full repaint: one [drawLEDPixel] call for each of the 512
    logical pixels, carrying the pixel's bit of the frame buffer, and it
    leaves [forceFullRedraw] and [firstRun] clear. *)
Theorem forced_redraw (s : State) :
  forceFullRedraw s = true ->
  let s' := refreshAll s in
  ledCalls s' = ledCalls s ++ allPixelCalls (scr s) /\
  map fst (allPixelCalls (scr s)) = allPixels /\
  List.length (allPixelCalls (scr s)) = 512%nat /\
  (forall x y, 0 <= x < TOTAL_WIDTH -> 0 <= y < TOTAL_HEIGHT ->
     count_occ pixel_eq_dec allPixels (x, y) = 1%nat) /\
  forceFullRedraw s' = false /\
  firstRun s' = false.
Proof.
  intros Hf s'.
  destruct (refreshAll_post s) as [Hf' [Hr' _]]. fold s' in Hf', Hr'.
  split; [|split; [|split; [|split; [|split]]]].
  6: exact Hr'.
  5: exact Hf'.
  - unfold s'. rewrite refreshAll_forced by exact Hf.
    destruct (refreshAll_unforced (invalidated s) eq_refl) as [u [[t [L [-> _]]] ->]].
    cbn [ledCalls set_firstRun set_tft set_ledCalls set_lastScr invalidated
         set_forceFullRedraw].
    f_equal.
  - apply allPixelCalls_pixels.
  - rewrite <- (length_map fst), allPixelCalls_pixels. reflexivity.
  - apply allPixels_once.
Qed.

(** C2 on the start state with a redraw requested. *)
Lemma forced_redraw_sample :
  forceFullRedraw (set_forceFullRedraw true initialState) = true /\
  (let s := set_forceFullRedraw true initialState in
   let s' := refreshAll s in
   ledCalls s' = ledCalls s ++ allPixelCalls (scr s) /\
   map fst (allPixelCalls (scr s)) = allPixels /\
   List.length (allPixelCalls (scr s)) = 512%nat /\
   (forall x y, 0 <= x < TOTAL_WIDTH -> 0 <= y < TOTAL_HEIGHT ->
      count_occ pixel_eq_dec allPixels (x, y) = 1%nat) /\
   forceFullRedraw s' = false /\
   firstRun s' = false).
Proof.
  split; [reflexivity|].
  apply (forced_redraw (set_forceFullRedraw true initialState)). reflexivity.
Defined.

(** [refreshAll] writes the shadow, the two flags, the panel and the
    call trace, and nothing else. *)
Lemma refreshAll_writes (s : State) :
  exists L fr ff t calls,
    refreshAll s
    = set_lastScr L
        (set_firstRun fr (set_forceFullRedraw ff (set_tft t (set_ledCalls calls s)))).
Proof.
  destruct (refreshAll_shape s) as [s0 [u [Hs0 [_ [[t [L [-> _]]] ->]]]]].
  destruct Hs0 as [-> | [_ ->]].
  - exists L, false, (forceFullRedraw s), t,
      (ledCalls s ++ passCalls s (LINE_WIDTH * DISPLAY_ROWS)).
    reflexivity.
  - exists L, false, false, t,
      (ledCalls s ++ passCalls (invalidated s) (LINE_WIDTH * DISPLAY_ROWS)).
    reflexivity.
Qed.

(** C10 -- refresh leaves the frame buffer alone.  [refreshAll] reads
    [scr] and never writes it: after the call every byte is what it was.
    Of the program's variables it changes only the shadow [lastScr] and
    the flags [firstRun] and [forceFullRedraw] (its output goes to the
    panel, and its calls to the trace). *)
Theorem refresh_frame (s : State) :
  (forall k, scr (refreshAll s) k = scr s k) /\
  exists L fr ff t calls,
    refreshAll s
    = set_lastScr L
        (set_firstRun fr (set_forceFullRedraw ff (set_tft t (set_ledCalls calls s)))).
Proof.
  destruct (refreshAll_writes s) as [L [fr [ff [t [calls H]]]]].
  split.
  - intros k. rewrite H. reflexivity.
  - now exists L, fr, ff, t, calls.
Qed.

(** ** The mode composers

    The font tables are parameters, fixed for the whole section. *)

Section Composers.

Variable F : Fonts.

Lemma string_of_list_ascii_app (a b : list ascii) :
  string_of_list_ascii (a ++ b) = (string_of_list_ascii a ++ string_of_list_ascii b)%string.
Proof. induction a as [|c a IH]; [reflexivity|]. cbn. now rewrite IH. Qed.

Lemma textOf_app (r : Z) (B B' : list Blit) :
  textOf r (B ++ B') = (textOf r B ++ textOf r B')%string.
Proof. unfold textOf. now rewrite filter_app, map_app, string_of_list_ascii_app. Qed.

Lemma string_app_empty_r (t : string) : (t ++ "")%string = t.
Proof. induction t as [|c t IH]; [reflexivity|]. cbn. now rewrite IH. Qed.

Lemma string_app_assoc (a b c : string) : ((a ++ b) ++ c)%string = (a ++ (b ++ c))%string.
Proof. induction a as [|x a IH]; [reflexivity|]. cbn. now rewrite IH. Qed.

Lemma rowRun_nil (row : Z) : rowRun row EmptyString [].
Proof. intros r. now destruct (r =? row). Qed.

Lemma rowRun_one (row x : Z) (c : ascii) (f : FontId) :
  rowRun row (String c EmptyString) [mkBlit x row c f].
Proof.
  intros r. unfold textOf. cbn [filter bl_row].
  rewrite (Z.eqb_sym row r). now destruct (r =? row).
Qed.

Lemma rowRun_app (row : Z) (t t' : string) (B B' : list Blit) :
  rowRun row t B -> rowRun row t' B' -> rowRun row (t ++ t') (B ++ B').
Proof.
  intros H H' r. rewrite textOf_app, H, H'. now destruct (r =? row).
Qed.

Lemma composed_refl (s : State) : composed s [] s.
Proof. exists (scr s). rewrite app_nil_r. now destruct s. Qed.

Lemma composed_set_scr (s : State) (m : Mem) : composed s [] (set_scr m s).
Proof. exists m. rewrite app_nil_r. reflexivity. Qed.

Lemma composed_trans (s u v : State) (B B' : list Blit) :
  composed s B u -> composed u B' v -> composed s (B ++ B') v.
Proof.
  intros [m ->] [m' ->]. exists m'.
  cbn [blits set_scr set_blits]. now rewrite app_assoc.
Qed.

(** A composer reads the clock, the sensor and the settings; its blits
    change none of them. *)
Lemma composed_inputs (s u : State) (B : list Blit) :
  composed s B u ->
  clock u = clock s /\ sensor u = sensor s /\ use24HourFormat u = use24HourFormat s /\
  style u = style s /\ blits u = blits s ++ B.
Proof. intros [m ->]. repeat split. Qed.

Lemma blit_advance (x yPos : Z) (c : ascii) (f : FontId) (s : State) :
  fst (blit F x yPos c f s) = advance (code c) (fontOf F f).
Proof. unfold blit. cbn [fst]. apply drawCharWithY_advance. Qed.

Lemma blit_composed (x yPos : Z) (c : ascii) (f : FontId) (s : State) :
  composed s [mkBlit x yPos c f] (snd (blit F x yPos c f s)).
Proof. eexists. reflexivity. Qed.

(** The column a run ends at depends on the table only, not on the
    state. *)
Lemma drawRun_column (row : Z) (f : FontId) (buf : string) :
  forall (x : Z) (s s' : State),
    fst (drawRun F row f buf x s) = fst (drawRun F row f buf x s').
Proof.
  induction buf as [|c rest IH]; intros x s s'; [reflexivity|].
  cbn [drawRun]. rewrite !blit_advance. apply IH.
Qed.

Lemma drawRun_trace (row : Z) (f : FontId) (buf : string) :
  forall (x : Z) (s : State),
    exists B, composed s B (snd (drawRun F row f buf x s)) /\ rowRun row buf B.
Proof.
  induction buf as [|c rest IH]; intros x s.
  - exists []. split; [apply composed_refl | apply rowRun_nil].
  - cbn [drawRun].
    match goal with |- context [drawRun F row f rest ?x' ?s'] =>
      destruct (IH x' s') as [B [HB Hrun]] end.
    exists ([mkBlit x row c f] ++ B). split.
    + eapply composed_trans; [apply blit_composed | exact HB].
    + apply (rowRun_app row (String c EmptyString) rest); [apply rowRun_one | exact Hrun].
Qed.

Lemma drawRunSpaced_trace (row : Z) (f : FontId) (buf : string) :
  forall (x : Z) (s : State),
    exists B, composed s B (snd (drawRunSpaced F row f buf x s)) /\ rowRun row buf B.
Proof.
  induction buf as [|c rest IH]; intros x s.
  - exists []. split; [apply composed_refl | apply rowRun_nil].
  - cbn [drawRunSpaced].
    match goal with |- context [drawRunSpaced F row f rest ?x' ?s'] =>
      destruct (IH x' s') as [B [HB Hrun]] end.
    exists ([mkBlit x row c f] ++ B). split.
    + eapply composed_trans; [apply blit_composed | exact HB].
    + apply (rowRun_app row (String c EmptyString) rest); [apply rowRun_one | exact Hrun].
Qed.

(** Once [x] has reached column 29 a clipped run draws nothing more. *)
Lemma drawRunClipped_stuck (row : Z) (f : FontId) (gapLimit : Z) (buf : string) :
  forall (x : Z) (s : State),
    LINE_WIDTH - 3 <= x -> drawRunClipped F row f gapLimit buf x s = (x, s).
Proof.
  induction buf as [|c rest IH]; intros x s Hx; [reflexivity|].
  cbn [drawRunClipped]. destruct (Z.ltb_spec x (LINE_WIDTH - 3)); [lia|].
  now apply IH.
Qed.

(** A clipped run draws a prefix of its text. *)
Lemma drawRunClipped_trace (row : Z) (f : FontId) (gapLimit : Z) (buf : string) :
  forall (x : Z) (s : State),
    exists B t,
      isPrefix t buf /\
      composed s B (snd (drawRunClipped F row f gapLimit buf x s)) /\
      rowRun row t B.
Proof.
  induction buf as [|c rest IH]; intros x s.
  - exists [], EmptyString. repeat split.
    + now exists EmptyString.
    + apply composed_refl.
    + apply rowRun_nil.
  - destruct (Z.ltb_spec x (LINE_WIDTH - 3)) as [Hlt|Hge].
    + cbn [drawRunClipped]. destruct (Z.ltb_spec x (LINE_WIDTH - 3)); [|lia].
      match goal with |- context [drawRunClipped F row f gapLimit rest ?x' ?s'] =>
        destruct (IH x' s') as [B [t [[rest' Hpre] [HB Hrun]]]] end.
      exists ([mkBlit x row c f] ++ B), (String c t). repeat split.
      * exists rest'. cbn. now rewrite Hpre.
      * eapply composed_trans; [apply blit_composed | exact HB].
      * apply (rowRun_app row (String c EmptyString) t); [apply rowRun_one | exact Hrun].
    + rewrite drawRunClipped_stuck by exact Hge.
      exists [], EmptyString. repeat split.
      * now exists (String c rest).
      * apply composed_refl.
      * apply rowRun_nil.
Qed.

(** A composer's blits change none of the settings either. *)
Lemma composed_settings (s u : State) (B : list Blit) :
  composed s B u ->
  showLeadingZero u = showLeadingZero s /\ dateFormat u = dateFormat s /\
  currentMode u = currentMode s.
Proof. intros [m ->]. repeat split. Qed.

(** Two traces of the same step are the same trace. *)
Lemma composed_unique (s u : State) (B B' : list Blit) :
  composed s B u -> composed s B' u -> B = B'.
Proof.
  intros [m Hm] [m' Hm']. rewrite Hm in Hm'.
  apply (f_equal blits) in Hm'. cbn [blits set_scr set_blits] in Hm'.
  now apply app_inv_head in Hm'.
Qed.

(** *** Guarded runs *)

Lemma drawRunClipped_guarded (row : Z) (f : FontId) (gapLimit : Z) (buf : string) :
  forall (x : Z) (s : State),
    drawRunClipped F row f gapLimit buf x s
    = drawRunGuarded F row f (LINE_WIDTH - 3) gapLimit buf x s.
Proof.
  induction buf as [|c rest IH]; intros x s; [reflexivity|].
  cbn [drawRunClipped drawRunGuarded]. destruct (x <? LINE_WIDTH - 3); apply IH.
Qed.

(** Once the guard fails [x] stays where it is, so no later character
    of the run is drawn. *)
Lemma drawRunGuarded_stuck (row : Z) (f : FontId) (guard gapLimit : Z) (buf : string) :
  forall (x : Z) (s : State),
    guard <= x -> drawRunGuarded F row f guard gapLimit buf x s = (x, s).
Proof.
  induction buf as [|c rest IH]; intros x s Hx; [reflexivity|].
  cbn [drawRunGuarded]. destruct (Z.ltb_spec x guard); [lia|]. now apply IH.
Qed.

Lemma drawRunGuarded_trace (row : Z) (f : FontId) (guard gapLimit : Z) (buf : string) :
  forall (x : Z) (s : State),
    exists B t,
      isPrefix t buf /\
      composed s B (snd (drawRunGuarded F row f guard gapLimit buf x s)) /\
      rowRun row t B.
Proof.
  induction buf as [|c rest IH]; intros x s.
  - exists [], EmptyString. repeat split;
      [now exists EmptyString | apply composed_refl | apply rowRun_nil].
  - destruct (Z_lt_dec x guard) as [Hlt|Hge].
    + cbn [drawRunGuarded]. destruct (Z.ltb_spec x guard); [|lia].
      match goal with |- context [drawRunGuarded F row f guard gapLimit rest ?x' ?s'] =>
        destruct (IH x' s') as [B [t [[rest' Hpre] [HB Hrun]]]] end.
      exists ([mkBlit x row c f] ++ B), (String c t). repeat split.
      * exists rest'. cbn. now rewrite Hpre.
      * eapply composed_trans; [apply blit_composed | exact HB].
      * apply (rowRun_app row (String c EmptyString) t); [apply rowRun_one | exact Hrun].
    + rewrite drawRunGuarded_stuck by lia.
      exists [], EmptyString. repeat split.
      * now exists (String c rest).
      * apply composed_refl.
      * apply rowRun_nil.
Qed.

Lemma lastStart_ge (font : list Z) (buf : string) :
  forall x, x <= lastStart font buf x.
Proof.
  induction buf as [|c rest IH]; intros x; [cbn; lia|].
  cbn [lastStart]. destruct rest as [|d rest']; [lia|].
  pose proof (IH (x + advance (code c) font + 1)).
  pose proof (advance_range (code c) font). lia.
Qed.

Lemma spacedBlits_rowRun (row : Z) (f : FontId) (buf : string) :
  forall x, rowRun row buf (spacedBlits F row f buf x).
Proof.
  induction buf as [|c rest IH]; intros x; [apply rowRun_nil|].
  cbn [spacedBlits].
  apply (rowRun_app row (String c EmptyString) rest [mkBlit x row c f]);
    [apply rowRun_one | apply IH].
Qed.

(** A guarded run whose last character starts before the guard is drawn
    whole, each character one column after the glyph before it. *)
Lemma drawRunGuarded_fits (row : Z) (f : FontId) (guard gapLimit : Z) (buf : string) :
  guard <= gapLimit + 1 ->
  forall (x : Z) (s : State),
    lastStart (fontOf F f) buf x < guard ->
    composed s (spacedBlits F row f buf x)
      (snd (drawRunGuarded F row f guard gapLimit buf x s)).
Proof.
  intros Hg. induction buf as [|c rest IH]; intros x s Hfit; [apply composed_refl|].
  pose proof (lastStart_ge (fontOf F f) (String c rest) x) as Hge.
  cbn [drawRunGuarded spacedBlits].
  destruct (Z.ltb_spec x guard); [|lia].
  rewrite blit_advance.
  change (mkBlit x row c f :: ?l) with ([mkBlit x row c f] ++ l).
  destruct rest as [|d rest'].
  - cbn [drawRunGuarded spacedBlits]. rewrite app_nil_r. apply blit_composed.
  - change (lastStart (fontOf F f) (String c (String d rest')) x)
      with (lastStart (fontOf F f) (String d rest')
              (x + advance (code c) (fontOf F f) + 1)) in Hfit.
    pose proof (lastStart_ge (fontOf F f) (String d rest')
                  (x + advance (code c) (fontOf F f) + 1)) as Hge'.
    destruct (Z.ltb_spec (x + advance (code c) (fontOf F f)) gapLimit); [|lia].
    eapply composed_trans; [apply blit_composed|].
    apply IH. exact Hfit.
Qed.

(** Both facts about a guarded run at once. *)
Lemma drawRunGuarded_blits (row : Z) (f : FontId) (guard gapLimit : Z) (buf : string)
      (x : Z) (s : State) :
  guard <= gapLimit + 1 ->
  exists B t,
    isPrefix t buf /\
    composed s B (snd (drawRunGuarded F row f guard gapLimit buf x s)) /\
    rowRun row t B /\
    (lastStart (fontOf F f) buf x < guard -> B = spacedBlits F row f buf x /\ t = buf).
Proof.
  intros Hg.
  destruct (Z_lt_dec (lastStart (fontOf F f) buf x) guard) as [Hfit|Hno].
  - exists (spacedBlits F row f buf x), buf.
    split; [exists EmptyString; now rewrite string_app_empty_r|].
    split; [now apply drawRunGuarded_fits|].
    split; [apply spacedBlits_rowRun|].
    intros _. split; reflexivity.
  - destruct (drawRunGuarded_trace row f guard gapLimit buf x s) as [B [t [Hp [HB Hr]]]].
    exists B, t.
    split; [exact Hp|]. split; [exact HB|]. split; [exact Hr|].
    intros Hlt. contradiction.
Qed.

(** *** The colon block *)

(** The column after the colon block of each mode: the end of the hours
    run, the column before the colon, then the colon's advance plus the
    gap, or the fixed step of 2. *)
Lemma displayTimeAndTemp_toColon_column (s : State) :
  fst (displayTimeAndTemp_toColon F s)
  = fst (drawRun F 0 Font3x7 (hoursText s) 0 s) + 1
    + (if showDots s then advance (code ":") (font3x7 F) + 1 else 2).
Proof.
  unfold displayTimeAndTemp_toColon. cbv zeta.
  change (showDots (set_scr (clearScreen (scr s)) s)) with (showDots s).
  change (hoursText (set_scr (clearScreen (scr s)) s)) with (hoursText s).
  rewrite (drawRun_column 0 Font3x7 _ 0 (set_scr (clearScreen (scr s)) s) s).
  destruct (showDots s); cbn [fst]; [|reflexivity].
  rewrite blit_advance. cbn [fontOf]. lia.
Qed.

Lemma displayTimeLarge_toColon_column (s : State) :
  fst (displayTimeLarge_toColon F s)
  = fst (drawRun F 0 Digits5x16rn (hoursText s)
           (if (displayHours s >? 9) || showLeadingZero s then 0 else 3) s) + 1
    + (if showDots s then advance (code ":") (digits5x16rn F) + 1 else 2).
Proof.
  unfold displayTimeLarge_toColon. cbv zeta.
  change (showDots (set_scr (clearScreen (scr s)) s)) with (showDots s).
  change (hoursText (set_scr (clearScreen (scr s)) s)) with (hoursText s).
  change (displayHours (set_scr (clearScreen (scr s)) s)) with (displayHours s).
  change (showLeadingZero (set_scr (clearScreen (scr s)) s)) with (showLeadingZero s).
  rewrite (drawRun_column 0 Digits5x16rn _ _ (set_scr (clearScreen (scr s)) s) s).
  destruct (showDots s); cbn [fst]; [|reflexivity].
  rewrite blit_advance. cbn [fontOf]. lia.
Qed.

Lemma displayTimeAndDate_toColon_column (s : State) :
  fst (displayTimeAndDate_toColon F s)
  = fst (drawRun F 0 Digits5x8rn (hoursText s) 0 s) + 1
    + (if showDots s then advance (code ":") (digits5x8rn F) + 1 else 2).
Proof.
  unfold displayTimeAndDate_toColon. cbv zeta.
  change (showDots (set_scr (clearScreen (scr s)) s)) with (showDots s).
  change (hoursText (set_scr (clearScreen (scr s)) s)) with (hoursText s).
  rewrite (drawRun_column 0 Digits5x8rn _ 0 (set_scr (clearScreen (scr s)) s) s).
  destruct (showDots s); cbn [fst]; [|reflexivity].
  rewrite blit_advance. cbn [fontOf]. lia.
Qed.

(** The seconds do not enter the hours run. *)
Lemma hours_column_setSeconds (f : FontId) (x sec : Z) (s : State) :
  fst (drawRun F 0 f (hoursText (setSeconds sec s)) x (setSeconds sec s))
  = fst (drawRun F 0 f (hoursText s) x s).
Proof.
  change (hoursText (setSeconds sec s)) with (hoursText s).
  apply drawRun_column.
Qed.

Lemma showDots_setSeconds (sec : Z) (s : State) :
  showDots (setSeconds sec s) = (Z.rem sec 2 =? 0).
Proof. reflexivity. Qed.

(** What the colon block of a mode blits: the hours and, on even
    seconds, the colon. *)
Lemma displayTimeAndTemp_toColon_trace (s : State) :
  exists B,
    composed s B (snd (displayTimeAndTemp_toColon F s)) /\
    rowRun 0 (hoursText s ++ (if showDots s then ":" else ""))%string B.
Proof.
  unfold displayTimeAndTemp_toColon. cbv zeta.
  change (showDots (set_scr (clearScreen (scr s)) s)) with (showDots s).
  change (hoursText (set_scr (clearScreen (scr s)) s)) with (hoursText s).
  destruct (drawRun_trace 0 Font3x7 (hoursText s) 0
              (set_scr (clearScreen (scr s)) s)) as [B [HB Hrun]].
  pose proof (composed_trans _ _ _ _ _ (composed_set_scr s (clearScreen (scr s))) HB) as HB'.
  destruct (showDots s); cbn [snd].
  - eexists. split.
    + eapply composed_trans; [exact HB' | apply blit_composed].
    + apply rowRun_app; [exact Hrun | apply rowRun_one].
  - exists ([] ++ B). split; [exact HB'|].
    rewrite string_app_empty_r. exact Hrun.
Qed.

Lemma displayTimeLarge_toColon_trace (s : State) :
  exists B,
    composed s B (snd (displayTimeLarge_toColon F s)) /\
    rowRun 0 (hoursText s ++ (if showDots s then ":" else ""))%string B.
Proof.
  unfold displayTimeLarge_toColon. cbv zeta.
  change (showDots (set_scr (clearScreen (scr s)) s)) with (showDots s).
  change (hoursText (set_scr (clearScreen (scr s)) s)) with (hoursText s).
  change (displayHours (set_scr (clearScreen (scr s)) s)) with (displayHours s).
  change (showLeadingZero (set_scr (clearScreen (scr s)) s)) with (showLeadingZero s).
  destruct (drawRun_trace 0 Digits5x16rn (hoursText s)
              (if (displayHours s >? 9) || showLeadingZero s then 0 else 3)
              (set_scr (clearScreen (scr s)) s)) as [B [HB Hrun]].
  pose proof (composed_trans _ _ _ _ _ (composed_set_scr s (clearScreen (scr s))) HB) as HB'.
  destruct (showDots s); cbn [snd].
  - eexists. split.
    + eapply composed_trans; [exact HB' | apply blit_composed].
    + apply rowRun_app; [exact Hrun | apply rowRun_one].
  - exists ([] ++ B). split; [exact HB'|].
    rewrite string_app_empty_r. exact Hrun.
Qed.

Lemma displayTimeAndDate_toColon_trace (s : State) :
  exists B,
    composed s B (snd (displayTimeAndDate_toColon F s)) /\
    rowRun 0 (hoursText s ++ (if showDots s then ":" else ""))%string B.
Proof.
  unfold displayTimeAndDate_toColon. cbv zeta.
  change (showDots (set_scr (clearScreen (scr s)) s)) with (showDots s).
  change (hoursText (set_scr (clearScreen (scr s)) s)) with (hoursText s).
  destruct (drawRun_trace 0 Digits5x8rn (hoursText s) 0
              (set_scr (clearScreen (scr s)) s)) as [B [HB Hrun]].
  pose proof (composed_trans _ _ _ _ _ (composed_set_scr s (clearScreen (scr s))) HB) as HB'.
  destruct (showDots s); cbn [snd].
  - eexists. split.
    + eapply composed_trans; [exact HB' | apply blit_composed].
    + apply rowRun_app; [exact Hrun | apply rowRun_one].
  - exists ([] ++ B). split; [exact HB'|].
    rewrite string_app_empty_r. exact Hrun.
Qed.

(** *** Mode 0 *)

(** What mode 0 blits, for any tables and any state.  First the hours,
    the colon on even seconds and the two minutes digits; then, in
    12-hour format only, a prefix of the indicator, which is the whole
    of it, one column after the minutes, when its last letter starts
    left of column 32; then, on row 1, a prefix of the temperature and
    humidity text, which is the whole text when its last character
    starts left of column 29.  No digit of the seconds is blitted. *)
Lemma displayTimeAndTemp_blits (s : State) :
  exists B0 Bi B1 t0 t1,
    composed s (B0 ++ Bi ++ B1) (displayTimeAndTemp F s) /\
    rowRun 0 (hoursText s ++ (if showDots s then ":" else "")
                ++ sprintf_02d (minutes (clock s)))%string B0 /\
    rowRun 0 t0 Bi /\
    isPrefix t0 (if use24HourFormat s then EmptyString else ampmText s) /\
    rowRun 1 t1 B1 /\
    isPrefix t1 (tempHumText s) /\
    (use24HourFormat s = true -> Bi = []) /\
    (use24HourFormat s = false ->
     lastStart (font3x7 F) (ampmText s) (minutesEnd0 F s + 1) < LINE_WIDTH ->
     Bi = spacedBlits F 0 Font3x7 (ampmText s) (minutesEnd0 F s + 1) /\ t0 = ampmText s) /\
    (lastStart (font3x7 F) (tempHumText s) 0 < LINE_WIDTH - 3 -> t1 = tempHumText s).
Proof.
  unfold displayTimeAndTemp, minutesEnd0. cbv zeta.
  destruct (displayTimeAndTemp_toColon_trace s) as [B0 [HB0 Hr0]].
  set (r0 := displayTimeAndTemp_toColon F s) in *.
  destruct (composed_inputs _ _ _ HB0) as [Hc0 _]. rewrite Hc0.
  destruct (drawRun_trace 0 Font3x7 (sprintf_02d (minutes (clock s))) (fst r0) (snd r0))
    as [B1 [HB1 Hr1]].
  set (r1 := drawRun F 0 Font3x7 (sprintf_02d (minutes (clock s))) (fst r0) (snd r0)) in *.
  pose proof (composed_trans _ _ _ _ _ HB0 HB1) as HB01.
  destruct (composed_inputs _ _ _ HB01) as [Hc1 [_ [Hu1 _]]]. rewrite Hu1.
  assert (Hap : ampmText (snd r1) = ampmText s) by (unfold ampmText; now rewrite Hc1).
  rewrite Hap.
  set (ind :=
         if negb (use24HourFormat s)
         then drawRunGuarded F 0 Font3x7 LINE_WIDTH LINE_WIDTH (ampmText s) (fst r1 + 1) (snd r1)
         else (fst r1, snd r1)).
  assert (Hind : exists Bi t0,
             isPrefix t0 (if use24HourFormat s then EmptyString else ampmText s) /\
             composed (snd r1) Bi (snd ind) /\ rowRun 0 t0 Bi /\
             (use24HourFormat s = true -> Bi = []) /\
             (use24HourFormat s = false ->
              lastStart (font3x7 F) (ampmText s) (fst r1 + 1) < LINE_WIDTH ->
              Bi = spacedBlits F 0 Font3x7 (ampmText s) (fst r1 + 1) /\ t0 = ampmText s)).
  { unfold ind. destruct (use24HourFormat s); cbn [negb].
    - exists [], EmptyString.
      split; [now exists EmptyString|].
      split; [apply composed_refl|].
      split; [apply rowRun_nil|].
      split; [reflexivity | discriminate].
    - destruct (drawRunGuarded_blits 0 Font3x7 LINE_WIDTH LINE_WIDTH (ampmText s)
                  (fst r1 + 1) (snd r1) ltac:(lia)) as [Bi [t0 [Hp [HBi [Hri Hfit]]]]].
      exists Bi, t0.
      split; [exact Hp|]. split; [exact HBi|]. split; [exact Hri|].
      split; [discriminate|]. intros _ Hlt. now apply Hfit. }
  destruct Hind as [Bi [t0 [Hp0 [HBi [Hri [H24 Hfit0]]]]]].
  pose proof (composed_trans _ _ _ _ _ HB01 HBi) as HB012.
  destruct (composed_inputs _ _ _ HB012) as [_ [Hs2 _]].
  assert (Htext : tempHumText (snd ind) = tempHumText s).
  { unfold tempHumText. now rewrite Hs2. }
  rewrite Htext. rewrite drawRunClipped_guarded.
  destruct (drawRunGuarded_blits 1 Font3x7 (LINE_WIDTH - 3) LINE_WIDTH (tempHumText s)
              0 (snd ind) ltac:(unfold LINE_WIDTH; lia))
    as [B3 [t1 [Hp1 [HB3 [Hr3 Hfit1]]]]].
  exists (B0 ++ B1), Bi, B3, t0, t1.
  split; [|split; [|split; [|split; [|split; [|split; [|split; [|split]]]]]]].
  - rewrite app_assoc. exact (composed_trans _ _ _ _ _ HB012 HB3).
  - pose proof (rowRun_app 0 _ _ _ _ Hr0 Hr1) as Hr. rewrite string_app_assoc in Hr.
    exact Hr.
  - exact Hri.
  - exact Hp0.
  - exact Hr3.
  - exact Hp1.
  - exact H24.
  - exact Hfit0.
  - intros Hlt. now apply Hfit1.
Qed.

Lemma displayTimeAndTemp_composed (s : State) :
  exists B, composed s B (displayTimeAndTemp F s).
Proof.
  destruct (displayTimeAndTemp_blits s) as [B0 [Bi [B1 [t0 [t1 [H _]]]]]].
  now exists (B0 ++ Bi ++ B1).
Qed.

(** *** Modes 1 and 2 *)

(** Mode 1 draws on byte-row 0 only: the hours, the colon on even
    seconds, the two minutes digits and a prefix of the two seconds
    digits. *)
Lemma displayTimeLarge_trace (s : State) :
  exists B t0,
    composed s B (displayTimeLarge F s) /\
    isPrefix t0 (sprintf_02d (seconds (clock s))) /\
    rowRun 0
      (hoursText s ++ (if showDots s then ":" else "")
         ++ sprintf_02d (minutes (clock s)) ++ t0)%string B.
Proof.
  unfold displayTimeLarge. cbv zeta.
  destruct (displayTimeLarge_toColon_trace s) as [B0 [HB0 Hr0]].
  set (r0 := displayTimeLarge_toColon F s) in *.
  destruct (composed_inputs _ _ _ HB0) as [Hc0 _]. rewrite Hc0.
  destruct (drawRun_trace 0 Digits5x16rn (sprintf_02d (minutes (clock s))) (fst r0) (snd r0))
    as [B1 [HB1 Hr1]].
  set (r1 := drawRun F 0 Digits5x16rn (sprintf_02d (minutes (clock s))) (fst r0) (snd r0)) in *.
  pose proof (composed_trans _ _ _ _ _ HB0 HB1) as HB01.
  destruct (composed_inputs _ _ _ HB01) as [Hc1 _]. rewrite Hc1.
  destruct (drawRunGuarded_trace 0 Font3x7 LINE_WIDTH LINE_WIDTH
              (sprintf_02d (seconds (clock s))) (fst r1 + 1) (snd r1))
    as [B2 [t0 [Hp0 [HB2 Hr2]]]].
  exists ((B0 ++ B1) ++ B2), t0.
  split; [exact (composed_trans _ _ _ _ _ HB01 HB2) | split; [exact Hp0|]].
  pose proof (rowRun_app 0 _ _ _ _ (rowRun_app 0 _ _ _ _ Hr0 Hr1) Hr2) as Hr.
  rewrite !string_app_assoc in Hr. exact Hr.
Qed.

Lemma displayTimeLarge_composed (s : State) :
  exists B, composed s B (displayTimeLarge F s).
Proof. destruct (displayTimeLarge_trace s) as [B [t0 [H _]]]. now exists B. Qed.

(** Mode 2: row 0 as in mode 1 with the small digits; on row 1 every
    character of the date, whose loop has no guard. *)
Lemma displayTimeAndDate_trace (s : State) :
  exists B t0,
    composed s B (displayTimeAndDate F s) /\
    isPrefix t0 (sprintf_02d (seconds (clock s))) /\
    textOf 0 B
    = (hoursText s ++ (if showDots s then ":" else "")
         ++ sprintf_02d (minutes (clock s)) ++ t0)%string /\
    textOf 1 B = dateText s.
Proof.
  unfold displayTimeAndDate. cbv zeta.
  destruct (displayTimeAndDate_toColon_trace s) as [B0 [HB0 Hr0]].
  set (r0 := displayTimeAndDate_toColon F s) in *.
  destruct (composed_inputs _ _ _ HB0) as [Hc0 _]. rewrite Hc0.
  destruct (drawRun_trace 0 Digits5x8rn (sprintf_02d (minutes (clock s))) (fst r0) (snd r0))
    as [B1 [HB1 Hr1]].
  set (r1 := drawRun F 0 Digits5x8rn (sprintf_02d (minutes (clock s))) (fst r0) (snd r0)) in *.
  pose proof (composed_trans _ _ _ _ _ HB0 HB1) as HB01.
  destruct (composed_inputs _ _ _ HB01) as [Hc1 _]. rewrite Hc1.
  destruct (drawRunGuarded_trace 0 Digits3x5 LINE_WIDTH LINE_WIDTH
              (sprintf_02d (seconds (clock s))) (fst r1 + 1) (snd r1))
    as [B2 [t0 [Hp0 [HB2 Hr2]]]].
  set (r2 := drawRunGuarded F 0 Digits3x5 LINE_WIDTH LINE_WIDTH
               (sprintf_02d (seconds (clock s))) (fst r1 + 1) (snd r1)) in *.
  pose proof (composed_trans _ _ _ _ _ HB01 HB2) as HB012.
  destruct (composed_inputs _ _ _ HB012) as [Hc2 _].
  destruct (composed_settings _ _ _ HB012) as [_ [Hd2 _]].
  assert (Htext : dateText (snd r2) = dateText s).
  { unfold dateText, formatDate. now rewrite Hc2, Hd2. }
  rewrite Htext.
  destruct (drawRunSpaced_trace 1 Font3x7 (dateText s) 2 (snd r2)) as [B3 [HB3 Hr3]].
  exists (((B0 ++ B1) ++ B2) ++ B3), t0.
  split; [exact (composed_trans _ _ _ _ _ HB012 HB3) | split; [exact Hp0|]].
  rewrite !textOf_app, (Hr0 0), (Hr1 0), (Hr2 0), (Hr3 0),
    (Hr0 1), (Hr1 1), (Hr2 1), (Hr3 1).
  cbn [Z.eqb Pos.eqb].
  rewrite string_app_empty_r, !string_app_assoc. split; reflexivity.
Qed.

Lemma displayTimeAndDate_composed (s : State) :
  exists B, composed s B (displayTimeAndDate F s).
Proof. destruct (displayTimeAndDate_trace s) as [B [t0 [H _]]]. now exists B. Qed.

Lemma displayCurrentMode_composed (s : State) :
  exists B, composed s B (displayCurrentMode F s).
Proof.
  assert (Hs : exists B, composed s B s) by (exists []; apply composed_refl).
  unfold displayCurrentMode.
  destruct (currentMode s) as [|p|p]; [apply displayTimeAndTemp_composed | | exact Hs].
  destruct p as [q|q|]; [exact Hs | | apply displayTimeLarge_composed].
  destruct q as [q|q|]; [exact Hs | exact Hs | apply displayTimeAndDate_composed].
Qed.

(** *** The scenario of mode 0 *)



(** *** When the colon block has a fixed width *)

(** The column after the colon block of a mode is the same on an even
    and on an odd second exactly when the colon glyph of the mode's table
    is one column wide: hidden, the colon is replaced by a step of two
    columns; shown, by its advance and one column. *)
Lemma colon_block_columns (s : State) (evenSec oddSec : Z) :
  Z.rem evenSec 2 = 0 -> Z.rem oddSec 2 <> 0 ->
  (fst (displayTimeAndTemp_toColon F (setSeconds evenSec s))
   = fst (displayTimeAndTemp_toColon F (setSeconds oddSec s))
   <-> advance (code ":") (font3x7 F) = 1) /\
  (fst (displayTimeLarge_toColon F (setSeconds evenSec s))
   = fst (displayTimeLarge_toColon F (setSeconds oddSec s))
   <-> advance (code ":") (digits5x16rn F) = 1) /\
  (fst (displayTimeAndDate_toColon F (setSeconds evenSec s))
   = fst (displayTimeAndDate_toColon F (setSeconds oddSec s))
   <-> advance (code ":") (digits5x8rn F) = 1).
Proof.
  intros He Ho.
  apply Z.eqb_eq in He. apply Z.eqb_neq in Ho.
  rewrite !displayTimeAndTemp_toColon_column, !displayTimeLarge_toColon_column,
    !displayTimeAndDate_toColon_column.
  rewrite !showDots_setSeconds, He, Ho, !hours_column_setSeconds.
  change (displayHours (setSeconds evenSec s)) with (displayHours s).
  change (displayHours (setSeconds oddSec s)) with (displayHours s).
  change (showLeadingZero (setSeconds evenSec s)) with (showLeadingZero s).
  change (showLeadingZero (setSeconds oddSec s)) with (showLeadingZero s).
  repeat split; intros H; lia.
Qed.

End Composers.


(** Mode 0 on the sample tables at second 0 and at second 1; with the
    three-column glyphs the percent sign does not fit, with the
    two-column glyphs it does. *)
Example mode0_on_sample_tables :
  rowText 0 (displayTimeAndTemp sampleFonts (mode0Scenario 0)) = "2:07PM"%string /\
  rowText 1 (displayTimeAndTemp sampleFonts (mode0Scenario 0)) = "T23C H45"%string /\
  rowText 0 (displayTimeAndTemp sampleFonts (mode0Scenario 1)) = "207PM"%string /\
  rowText 1 (displayTimeAndTemp slimFonts (mode0Scenario 1)) = "T23C H45%"%string.
Proof. repeat split; vm_compute; reflexivity. Qed.


(** ** Colours *)

Lemma refreshAll_style (s : State) : style (refreshAll s) = style s.
Proof.
  destruct (refreshAll_writes s) as [L [fr [ff [t [calls H]]]]].
  rewrite H. reflexivity.
Qed.

Lemma displayCurrentMode_style (F : Fonts) (s : State) :
  style (displayCurrentMode F s) = style s.
Proof.
  destruct (displayCurrentMode_composed F s) as [B HB].
  now destruct (composed_inputs _ _ _ HB) as [_ [_ [_ [H _]]]].
Qed.

Lemma styleToggle_consistent (st : Style) :
  surroundConsistent st -> surroundConsistent (styleToggle st).
Proof. intros H. exact H. Qed.

(** The [ledcolor] branch re-establishes the rule whatever held before. *)
Lemma styleLedColor_consistent (colorIdx : Z) (st : Style) :
  surroundConsistent (styleLedColor colorIdx st).
Proof.
  unfold surroundConsistent, styleLedColor.
  cbn [surroundMatchesLED ledSurroundColor ledOnColor].
  intros ->. reflexivity.
Qed.

Lemma styleSurroundColor_consistent (colorIdx : Z) (st : Style) :
  surroundConsistent (styleSurroundColor colorIdx st).
Proof.
  unfold surroundConsistent, styleSurroundColor.
  destruct colorIdx as [|p|p]; try (cbn; discriminate).
  do 3 (destruct p as [p|p|]; try (cbn; discriminate)); reflexivity.
Qed.

(** The handler's effect on the colour scheme: the three branches in
    order; composing the mode and refreshing do not touch it. *)
Lemma handleStyle_style (F : Fonts) (req : StyleRequest) (s : State) :
  style (handleStyle F req s)
  = (let st := style s in
     let st :=
       match arg_mode req with
       | Some m => if String.eqb m "toggle" then styleToggle st else st
       | None => st
       end in
     let st :=
       match arg_ledcolor req with
       | Some colorIdx => styleLedColor colorIdx st
       | None => st
       end in
     match arg_surroundcolor req with
     | Some colorIdx => styleSurroundColor colorIdx st
     | None => st
     end).
Proof.
  unfold handleStyle.
  destruct (arg_mode req) as [m|]; [destruct (String.eqb m "toggle")|];
    destruct (arg_ledcolor req) as [i|]; destruct (arg_surroundcolor req) as [j|];
    cbv zeta; cbv iota beta;
    rewrite ?refreshAll_style, ?displayCurrentMode_style; reflexivity.
Qed.

Lemma styleSurroundColor_on (colorIdx : Z) (st : Style) :
  ledOnColor (styleSurroundColor colorIdx st) = ledOnColor st.
Proof.
  unfold styleSurroundColor.
  destruct colorIdx as [|p|p]; try reflexivity.
  do 3 (destruct p as [p|p|]; try reflexivity).
Qed.

Lemma styleLedColor_effect (colorIdx : Z) (st : Style) :
  ledOnColor (styleLedColor colorIdx st) = ledPalette colorIdx /\
  surroundMatchesLED (styleLedColor colorIdx st) = surroundMatchesLED st /\
  ledSurroundColor (styleLedColor colorIdx st)
  = (if surroundMatchesLED st then ledPalette colorIdx else ledSurroundColor st).
Proof. repeat split. Qed.

(** C6 -- surround-colour consistency.  From any colour scheme the
    [ledcolor] branch sets the on-colour to the colour of the requested
    index, keeps the match flag, and leaves the surround colour equal to
    the new on-colour when the flag is set (and untouched when it is
    not); so the rule "surroundMatchesLED implies ledSurroundColor =
    ledOnColor" holds after it whatever held before.  The
    [surroundcolor] branch leaves the rule holding too.  For the whole
    [/style] handler: a request with [ledcolor] ends with the requested
    on-colour and with the rule holding; when it carries no
    [surroundcolor], the flag is as before and the surround is the new
    on-colour if the flag is set; a request with [surroundcolor] ends
    with the rule holding; every other request preserves the rule; and
    the rule holds in the start state. *)
Theorem surround_color_consistency (F : Fonts) (req : StyleRequest) (colorIdx : Z)
        (s : State) :
  (ledOnColor (styleLedColor colorIdx (style s)) = ledPalette colorIdx /\
   surroundMatchesLED (styleLedColor colorIdx (style s)) = surroundMatchesLED (style s) /\
   ledSurroundColor (styleLedColor colorIdx (style s))
   = (if surroundMatchesLED (style s) then ledPalette colorIdx
      else ledSurroundColor (style s))) /\
  surroundConsistent (styleLedColor colorIdx (style s)) /\
  surroundConsistent (styleSurroundColor colorIdx (style s)) /\
  (arg_ledcolor req = Some colorIdx ->
   ledOnColor (style (handleStyle F req s)) = ledPalette colorIdx /\
   surroundConsistent (style (handleStyle F req s)) /\
   (arg_surroundcolor req = None ->
    surroundMatchesLED (style (handleStyle F req s)) = surroundMatchesLED (style s) /\
    ledSurroundColor (style (handleStyle F req s))
    = (if surroundMatchesLED (style s) then ledPalette colorIdx
       else ledSurroundColor (style s)))) /\
  (arg_surroundcolor req = Some colorIdx ->
   surroundConsistent (style (handleStyle F req s))) /\
  (surroundConsistent (style s) -> surroundConsistent (style (handleStyle F req s))) /\
  surroundConsistent (style initialState).
Proof.
  split; [apply styleLedColor_effect|].
  split; [apply styleLedColor_consistent|].
  split; [apply styleSurroundColor_consistent|].
  split; [|split; [|split]].
  - intros Hl. rewrite handleStyle_style. cbv zeta. rewrite Hl.
    set (st := match arg_mode req with
               | Some m => if String.eqb m "toggle" then styleToggle (style s) else style s
               | None => style s
               end).
    assert (Hst : surroundMatchesLED st = surroundMatchesLED (style s) /\
                  ledSurroundColor st = ledSurroundColor (style s)).
    { unfold st. destruct (arg_mode req) as [m|]; [destruct (String.eqb m "toggle")|];
        split; reflexivity. }
    destruct Hst as [Hflag Hsur].
    destruct (arg_surroundcolor req) as [j|].
    + split; [rewrite styleSurroundColor_on; reflexivity|].
      split; [apply styleSurroundColor_consistent | discriminate].
    + split; [reflexivity|]. split; [apply styleLedColor_consistent|].
      intros _. destruct (styleLedColor_effect colorIdx st) as [_ [H1 H2]].
      rewrite H1, H2, Hflag, Hsur. split; reflexivity.
  - intros Hs. rewrite handleStyle_style. cbv zeta. rewrite Hs.
    apply styleSurroundColor_consistent.
  - intros Hs. rewrite handleStyle_style. cbv zeta.
    destruct (arg_surroundcolor req); [apply styleSurroundColor_consistent|].
    destruct (arg_ledcolor req); [apply styleLedColor_consistent|].
    destruct (arg_mode req) as [m|]; [destruct (String.eqb m "toggle")|]; exact Hs.
  - cbn. discriminate.
Qed.

(** C6 where the flag is set: in a scheme whose surround follows a red
    LED, a request for blue LEDs leaves on-colour and surround both
    blue, with the flag still set. *)
Lemma surround_color_consistency_sample :
  surroundMatchesLED (style matchedState) = true /\
  ledSurroundColor (style matchedState) = COLOR_RED /\
  ledOnColor
    (style (handleStyle sampleFonts (mkStyleRequest None (Some 2) None) matchedState))
  = COLOR_BLUE /\
  ledSurroundColor
    (style (handleStyle sampleFonts (mkStyleRequest None (Some 2) None) matchedState))
  = COLOR_BLUE /\
  surroundMatchesLED
    (style (handleStyle sampleFonts (mkStyleRequest None (Some 2) None) matchedState))
  = true.
Proof.
  destruct (surround_color_consistency sampleFonts (mkStyleRequest None (Some 2) None) 2
              matchedState) as [_ [_ [_ [H _]]]].
  destruct (H eq_refl) as [Hon [_ Hrest]].
  destruct (Hrest eq_refl) as [Hflag Hsur].
  split; [reflexivity|]. split; [reflexivity|].
  split; [exact Hon|]. split; [exact Hsur | exact Hflag].
Defined.

(** The same through two requests from the start state: first the
    surround is set to follow the LED colour, then the LED colour is
    changed. *)
Example surround_follows_led :
  let s1 := handleStyle sampleFonts (mkStyleRequest None None (Some 7)) initialState in
  let s2 := handleStyle sampleFonts (mkStyleRequest None (Some 2) None) s1 in
  surroundMatchesLED (style s2) = true /\
  ledOnColor (style s2) = COLOR_BLUE /\ ledSurroundColor (style s2) = COLOR_BLUE.
Proof.
  cbv zeta. rewrite !handleStyle_style. repeat split.
Qed.

(** Packing three channels and unpacking them again. *)
Lemma pack565_channels (r g b : Z) :
  0 <= r < 32 -> 0 <= g < 64 -> 0 <= b < 32 ->
  let p := (Z.lor (Z.lor (Z.shiftl r 11) (Z.shiftl g 5)) b) mod 65536 in
  red565 p = r /\ green565 p = g /\ blue565 p = b.
Proof.
  intros Hr Hg Hb.
  assert (Hall :
    forallb (fun r =>
      forallb (fun g =>
        forallb (fun b =>
          let p := (Z.lor (Z.lor (Z.shiftl r 11) (Z.shiftl g 5)) b) mod 65536 in
          (red565 p =? r) && (green565 p =? g) && (blue565 p =? b))
          (upto 32)) (upto 64)) (upto 32) = true) by (vm_compute; reflexivity).
  rewrite forallb_forall in Hall.
  specialize (Hall r (proj2 (in_upto 32 r) Hr)).
  rewrite forallb_forall in Hall.
  specialize (Hall g (proj2 (in_upto 64 g) Hg)).
  rewrite forallb_forall in Hall.
  specialize (Hall b (proj2 (in_upto 32 b) Hb)).
  cbv zeta in Hall. apply andb_true_iff in Hall as [Hall H3].
  apply andb_true_iff in Hall as [H1 H2].
  cbv zeta. repeat split; now apply Z.eqb_eq.
Qed.

Lemma land_ones_range (a : Z) (n : Z) : 0 <= n -> 0 <= Z.land a (Z.ones n) < 2 ^ n.
Proof.
  intros Hn. rewrite Z.land_ones by exact Hn. apply Z.mod_pos_bound. lia.
Qed.

Lemma quot_range (a d hi : Z) : 0 <= a < hi -> 0 < d -> 0 <= Z.quot a d < hi.
Proof.
  intros Ha Hd. rewrite Z.quot_div_nonneg by lia. split.
  - apply Z.div_pos; lia.
  - apply Z.le_lt_trans with a; [|lia]. apply Z.div_le_upper_bound; nia.
Qed.

(** [dimRGB565] does what its comment says: each channel of the result
    is the channel of the colour divided by [factor + 1]. *)
Lemma dimRGB565_channels (color factor : Z) :
  0 <= factor ->
  red565 (dimRGB565 color factor) = Z.quot (red565 color) (factor + 1) /\
  green565 (dimRGB565 color factor) = Z.quot (green565 color) (factor + 1) /\
  blue565 (dimRGB565 color factor) = Z.quot (blue565 color) (factor + 1).
Proof.
  intros Hf. unfold dimRGB565. cbv zeta.
  fold (red565 color) (green565 color) (blue565 color).
  apply pack565_channels; apply quot_range; try lia.
  - apply (land_ones_range (Z.shiftr color 11) 5). lia.
  - apply (land_ones_range (Z.shiftr color 5) 6). lia.
  - apply (land_ones_range color 5). lia.
Qed.

(** C9 -- the dimming in the [ledcolor] branch.  For [ledcolor=0] (red,
    0xF800: red 31, green 0, blue 0) the branch sets [ledOffColor] to the
    packed value shifted right by three bits, 0x1F00: red 3, green 56,
    blue 0.  The green channel, absent in the LED colour, dominates the
    result.  Dividing the channels by 8 as [dimRGB565] does gives
    0x1800: red 3, green 0, blue 0.  The value 0x1F00 is what the
    [/style] handler leaves in [ledOffColor] for that request. *)
Theorem ledOffColor_shift_alters_hue :
  let st := styleLedColor 0 initialStyle in
  ledOnColor st = 0xF800 /\
  (red565 (ledOnColor st), green565 (ledOnColor st), blue565 (ledOnColor st)) = (31, 0, 0) /\
  ledOffColor st = 0x1F00 /\
  (red565 (ledOffColor st), green565 (ledOffColor st), blue565 (ledOffColor st)) = (3, 56, 0) /\
  dimRGB565 (ledOnColor st) 7 = 0x1800 /\
  (red565 (dimRGB565 (ledOnColor st) 7), green565 (dimRGB565 (ledOnColor st) 7),
   blue565 (dimRGB565 (ledOnColor st) 7)) = (3, 0, 0) /\
  ledOffColor
    (style (handleStyle sampleFonts (mkStyleRequest None (Some 0) None) initialState))
  = 0x1F00.
Proof. cbv zeta. rewrite handleStyle_style. repeat split. Qed.

(** * Further properties *)

(** ** Whole-buffer operations *)

(** Case analysis on the integer tests of a goal. *)
Ltac split_tests :=
  repeat match goal with
         | |- context [?a <=? ?b] => destruct (Z.leb_spec a b)
         | |- context [?a <? ?b] => destruct (Z.ltb_spec a b)
         | |- context [?a =? ?b] => destruct (Z.eqb_spec a b)
         end;
  cbn [andb orb negb]; try reflexivity; try lia.

Lemma clearScreen_at (m : Mem) (k : Z) :
  clearScreen m k = if (0 <=? k) && (k <? LINE_WIDTH * DISPLAY_ROWS) then 0 else m k.
Proof.
  unfold clearScreen.
  assert (H : forall n, 0 <= n ->
            for_range 0 n (fun i scr => store i 0 scr) m k
            = if (0 <=? k) && (k <? n) then 0 else m k).
  { intros n Hn.
    apply (for_range_ind
             (fun n t => t k = if (0 <=? k) && (k <? n) then 0 else m k)); [exact Hn | |].
    - split_tests.
    - intros i t Hi Ht. unfold store.
      destruct (Z.eqb_spec k i) as [->|Hne].
      + destruct (Z.leb_spec 0 i); [|lia]. destruct (Z.ltb_spec i (i + 1)); [reflexivity | lia].
      + rewrite Ht. destruct (Z.leb_spec 0 k); cbn [andb]; [|reflexivity].
        destruct (Z.ltb_spec k i), (Z.ltb_spec k (i + 1)); try reflexivity; lia. }
  apply H. unfold LINE_WIDTH, DISPLAY_ROWS. lia.
Qed.

Lemma lnot_byte (v : Z) : Z.lnot v mod 256 = 255 - v mod 256.
Proof.
  unfold Z.lnot. 
  pose proof (Z.mod_pos_bound v 256 ltac:(lia)) as Hr.
  pose proof (Z.div_mod v 256 ltac:(lia)) as Hd.
  symmetry. apply (Z.mod_unique _ _ (- (v / 256) - 1)); lia.
Qed.

Lemma invert_at (m : Mem) (k : Z) :
  invert m k
  = if (0 <=? k) && (k <? LINE_WIDTH * DISPLAY_ROWS) then 255 - m k mod 256 else m k.
Proof.
  unfold invert.
  assert (H : forall n, 0 <= n ->
            for_range 0 n (fun i scr => store i (Z.lnot (scr i) mod 256) scr) m k
            = if (0 <=? k) && (k <? n) then 255 - m k mod 256 else m k).
  { intros n Hn.
    apply (for_range_ind
             (fun n t => (forall i, n <= i -> t i = m i) /\
                         t k = if (0 <=? k) && (k <? n) then 255 - m k mod 256 else m k));
      [exact Hn | | ].
    - split; [reflexivity|]. split_tests.
    - intros i t Hi [Hrest Ht]. split.
      + intros i' Hi'. rewrite store_neq by lia. apply Hrest. lia.
      + unfold store. destruct (Z.eqb_spec k i) as [->|Hne].
        * rewrite (Hrest i) by lia. rewrite lnot_byte.
          destruct (Z.leb_spec 0 i); [|lia].
          destruct (Z.ltb_spec i (i + 1)); [reflexivity | lia].
        * rewrite Ht. destruct (Z.leb_spec 0 k); cbn [andb]; [|reflexivity].
          destruct (Z.ltb_spec k i), (Z.ltb_spec k (i + 1)); try reflexivity; lia. }
  apply H. unfold LINE_WIDTH, DISPLAY_ROWS. lia.
Qed.

(** X1 -- [invert] complements the frame buffer: each of the 64 cells
    becomes the byte [255 - v], so every one of its eight pixels flips,
    and no cell outside the array is touched. *)
Theorem invert_flips_every_pixel (m : Mem) :
  (forall k, 0 <= k < LINE_WIDTH * DISPLAY_ROWS ->
     0 <= invert m k < 256 /\
     forall bitPos, 0 <= bitPos < 8 ->
       Z.testbit (invert m k) bitPos = negb (Z.testbit (m k) bitPos)) /\
  (forall k, ~ (0 <= k < LINE_WIDTH * DISPLAY_ROWS) -> invert m k = m k).
Proof.
  split.
  - intros k Hk. rewrite invert_at.
    destruct (Z.leb_spec 0 k); [|lia].
    destruct (Z.ltb_spec k (LINE_WIDTH * DISPLAY_ROWS)); [|lia]. cbn [andb].
    pose proof (Z.mod_pos_bound (m k) 256 ltac:(lia)) as Hr.
    split; [lia|].
    intros b Hb. rewrite <- lnot_byte.
    change 256 with (2 ^ 8). rewrite Z.mod_pow2_bits_low by lia.
    apply Z.lnot_spec. lia.
  - intros k Hk. rewrite invert_at.
    destruct (Z.leb_spec 0 k); cbn [andb]; [|reflexivity].
    destruct (Z.ltb_spec k (LINE_WIDTH * DISPLAY_ROWS)); [lia | reflexivity].
Qed.

(** X2 -- [invert] twice restores the frame buffer: every cell holds its
    old value as a byte, so a buffer of bytes is restored exactly. *)
Theorem invert_involution (m : Mem) (k : Z) :
  invert (invert m) k
  = if (0 <=? k) && (k <? LINE_WIDTH * DISPLAY_ROWS) then m k mod 256 else m k.
Proof.
  rewrite !invert_at.
  destruct ((0 <=? k) && (k <? LINE_WIDTH * DISPLAY_ROWS)); [|reflexivity].
  pose proof (Z.mod_pos_bound (m k) 256 ltac:(lia)) as Hr.
  rewrite (Z.mod_small (255 - m k mod 256)) by lia. lia.
Qed.

(** X3 -- [scrollLeft] moves the 64 cells one place towards index 0 as a
    single strip: cell [k] takes the old cell [k+1], so column 0 of the
    lower module row moves to column 31 of the upper row, the old cell 0
    is lost, the last cell becomes 0, and no cell outside the array is
    touched. *)
Theorem scrollLeft_shifts_strip (m : Mem) (k : Z) :
  scrollLeft m k
  = if (0 <=? k) && (k <? LINE_WIDTH * DISPLAY_ROWS - 1) then m (k + 1)
    else if k =? LINE_WIDTH * DISPLAY_ROWS - 1 then 0
    else m k.
Proof.
  unfold scrollLeft. cbv zeta.
  assert (H : forall n, 0 <= n ->
            let t := for_range 0 n (fun i scr => store i (scr (i + 1)) scr) m in
            (forall i, n <= i -> t i = m i) /\
            t k = if (0 <=? k) && (k <? n) then m (k + 1) else m k).
  { intros n Hn. cbv zeta.
    apply (for_range_ind
             (fun n t => (forall i, n <= i -> t i = m i) /\
                         t k = if (0 <=? k) && (k <? n) then m (k + 1) else m k));
      [exact Hn | | ].
    - split; [reflexivity|]. split_tests.
    - intros i t Hi [Hrest Ht]. split.
      + intros i' Hi'. rewrite store_neq by lia. apply Hrest. lia.
      + unfold store. destruct (Z.eqb_spec k i) as [->|Hne].
        * rewrite (Hrest (i + 1)) by lia.
          destruct (Z.leb_spec 0 i); [|lia].
          destruct (Z.ltb_spec i (i + 1)); [reflexivity | lia].
        * rewrite Ht. destruct (Z.leb_spec 0 k); cbn [andb]; [|reflexivity].
          destruct (Z.ltb_spec k i), (Z.ltb_spec k (i + 1)); try reflexivity; lia. }
  destruct (H (LINE_WIDTH * DISPLAY_ROWS - 1)) as [_ Hk];
    [unfold LINE_WIDTH, DISPLAY_ROWS; lia|].
  unfold store at 1.
  destruct (Z.eqb_spec k (LINE_WIDTH * DISPLAY_ROWS - 1)) as [->|Hne].
  - destruct (Z.ltb_spec (LINE_WIDTH * DISPLAY_ROWS - 1) (LINE_WIDTH * DISPLAY_ROWS - 1));
      [lia|]. rewrite andb_false_r. reflexivity.
  - rewrite Hk. reflexivity.
Qed.

(** ** The blitter under clipping *)

(** The blitter at any position: the reachable cells hold the table's
    bytes and the blank column, the rest of memory is as before. *)
Lemma drawCharWithY_clipped (x yPos c : Z) (font : list Z) (m : Mem) :
  let w := pgm_read_byte font (glyphOffset c font) in
  let fht8 := Z.quot (pgm_read_byte font 1 + 7) 8 in
  pgm_read_byte font 2 <= c <= pgm_read_byte font 3 ->
  written x yPos (clippedBox x yPos w fht8)
    (fun i j =>
       if i <? w then pgm_read_byte font (glyphOffset c font + 1 + fht8 * i + j) else 0)
    m (snd (drawCharWithY x yPos c font m)).
Proof.
  intros w fht8 Hc.
  assert (Hw : 0 <= w) by apply pgm_read_byte_range.
  assert (Hh : 0 <= fht8).
  { apply Z.quot_pos; [|lia]. pose proof (pgm_read_byte_range font 1). lia. }
  unfold drawCharWithY.
  destruct (Z.ltb_spec c (pgm_read_byte font 2)); [lia|].
  destruct (Z.gtb_spec c (pgm_read_byte font 3)); [lia|].
  cbn [orb snd]. fold w fht8.
  set (v := fun i j : Z =>
              if i <? w then pgm_read_byte font (glyphOffset c font + 1 + fht8 * i + j)
              else 0).
  set (box := clippedBox x yPos w fht8).
  assert (Hbox : forall i j, box i j <->
            (0 <= j < fht8 /\ 0 <= i <= w /\ 0 <= x + i < 32 /\
             0 <= x + 32 * (j + yPos) + i < 64)).
  { intros i j. unfold box, clippedBox, glyphCell, LINE_WIDTH, DISPLAY_ROWS. lia. }
  apply (written_ext x yPos (fun i' j' => box i' j' /\ j' < fht8));
    [|intros i' j'; rewrite Hbox; lia].
  apply (for_range_ind
           (fun j t => written x yPos (fun i' j' => box i' j' /\ j' < j) v m t));
    [exact Hh | |].
  { split; [intros i j [Hb Hj]; pose proof (proj1 (Hbox _ _) Hb); lia | reflexivity]. }
  intros j t Hj Ht.
  assert (Hrow :
    written x yPos (fun i' j' => box i' j' /\ (j' < j \/ (j' = j /\ i' < w))) v m
      (for_range 0 w
         (fun i scr0 =>
            if (x + i >=? 0) && (x + i <? LINE_WIDTH) then
              if (x + LINE_WIDTH * (j + yPos) + i >=? 0)
                 && (x + LINE_WIDTH * (j + yPos) + i <? LINE_WIDTH * DISPLAY_ROWS)
              then store (x + LINE_WIDTH * (j + yPos) + i)
                     (pgm_read_byte font (glyphOffset c font + 1 + fht8 * i + j)) scr0
              else scr0
            else scr0) t)).
  { apply (for_range_ind
             (fun i u =>
                written x yPos
                  (fun i' j' => box i' j' /\ (j' < j \/ (j' = j /\ i' < i))) v m u));
      [exact Hw | |].
    { apply (written_ext _ _ _ _ _ _ _ Ht). intros i' j'. rewrite Hbox. lia. }
    intros i u Hi Hu.
    assert (Hskip : ~ box i j ->
              written x yPos
                (fun i' j' => box i' j' /\ (j' < j \/ (j' = j /\ i' < i + 1))) v m u).
    { intros Hn. apply (written_ext _ _ _ _ _ _ _ Hu). intros i' j'. split.
      - intros [Hb Hc']. split; [exact Hb|].
        destruct (Z.eq_dec i' i) as [->|]; [|lia].
        destruct (Z.eq_dec j' j) as [->|]; [|lia]. contradiction.
      - intros [Hb Hc']. split; [exact Hb | lia]. }
    destruct (Z.geb_spec (x + i) 0); cbn [andb];
      [|apply Hskip; rewrite Hbox; lia].
    destruct (Z.ltb_spec (x + i) LINE_WIDTH);
      [|apply Hskip; rewrite Hbox; unfold LINE_WIDTH in *; lia].
    destruct (Z.geb_spec (x + LINE_WIDTH * (j + yPos) + i) 0); cbn [andb];
      [|apply Hskip; rewrite Hbox; unfold LINE_WIDTH in *; lia].
    destruct (Z.ltb_spec (x + LINE_WIDTH * (j + yPos) + i) (LINE_WIDTH * DISPLAY_ROWS));
      [|apply Hskip; rewrite Hbox; unfold LINE_WIDTH, DISPLAY_ROWS in *; lia].
    replace (pgm_read_byte font (glyphOffset c font + 1 + fht8 * i + j)) with (v i j).
    2:{ unfold v. destruct (Z.ltb_spec i w); [reflexivity | lia]. }
    apply (written_store x yPos
             (fun i' j' => box i' j' /\ (j' < j \/ (j' = j /\ i' < i)))
             _ v m u i j Hu).
    - intros i' j'. rewrite !Hbox. unfold LINE_WIDTH, DISPLAY_ROWS in *. lia.
    - intros i' j' [Hb _]. pose proof (proj1 (Hbox _ _) Hb). unfold LINE_WIDTH. lia.
    - intros i' j'. lia. }
  cbv zeta.
  assert (Hskip : ~ box w j ->
            written x yPos (fun i' j' => box i' j' /\ j' < j + 1) v m
              (for_range 0 w
                 (fun i scr0 =>
                    if (x + i >=? 0) && (x + i <? LINE_WIDTH) then
                      if (x + LINE_WIDTH * (j + yPos) + i >=? 0)
                         && (x + LINE_WIDTH * (j + yPos) + i <? LINE_WIDTH * DISPLAY_ROWS)
                      then store (x + LINE_WIDTH * (j + yPos) + i)
                             (pgm_read_byte font (glyphOffset c font + 1 + fht8 * i + j)) scr0
                      else scr0
                    else scr0) t)).
  { intros Hn. apply (written_ext _ _ _ _ _ _ _ Hrow). intros i' j'. split.
    - intros [Hb Hc']. split; [exact Hb|].
      destruct (Z.eq_dec j' j) as [->|]; [|lia].
      destruct (Z.eq_dec i' w) as [->|]; [contradiction|].
      pose proof (proj1 (Hbox _ _) Hb). lia.
    - intros [Hb Hc']. split; [exact Hb | lia]. }
  destruct (Z.ltb_spec (x + w) LINE_WIDTH) as [Hlt|Hge]; cbn [andb];
    [|apply Hskip; rewrite Hbox; unfold LINE_WIDTH in *; lia].
  destruct (Z.geb_spec (x + w) 0); [|apply Hskip; rewrite Hbox; lia].
  destruct (Z.geb_spec (x + LINE_WIDTH * (j + yPos) + w) 0); cbn [andb];
    [|apply Hskip; rewrite Hbox; unfold LINE_WIDTH in *; lia].
  destruct (Z.ltb_spec (x + LINE_WIDTH * (j + yPos) + w) (LINE_WIDTH * DISPLAY_ROWS));
    [|apply Hskip; rewrite Hbox; unfold LINE_WIDTH, DISPLAY_ROWS in *; lia].
  assert (Hv : v w j = 0).
  { unfold v. destruct (Z.ltb_spec w w); [lia | reflexivity]. }
  pose proof (written_store x yPos
                (fun i' j' => box i' j' /\ (j' < j \/ (j' = j /\ i' < w)))
                (fun i' j' => box i' j' /\ j' < j + 1)
                v m _ w j Hrow) as Hs.
  rewrite Hv in Hs. apply Hs.
  - intros i' j'. rewrite !Hbox. unfold LINE_WIDTH, DISPLAY_ROWS in *. lia.
  - intros i' j' [Hb _]. pose proof (proj1 (Hbox _ _) Hb). unfold LINE_WIDTH. lia.
  - intros i' j'. lia.
Qed.

(** A cell is either one the glyph reaches, at a unique column and
    byte-row, or none of them. *)
Lemma clippedBox_cases (x yPos w fht8 k : Z) :
  (exists i j, clippedBox x yPos w fht8 i j /\ k = glyphCell x yPos i j) \/
  (forall i j, clippedBox x yPos w fht8 i j -> k <> glyphCell x yPos i j).
Proof.
  pose proof (Z.div_mod k 32 ltac:(lia)) as Hd.
  pose proof (Z.mod_pos_bound k 32 ltac:(lia)) as Hr.
  set (i0 := k mod 32 - x). set (j0 := k / 32 - yPos).
  assert (Hu : forall i j, clippedBox x yPos w fht8 i j -> k = glyphCell x yPos i j ->
                           i = i0 /\ j = j0).
  { unfold clippedBox, glyphCell, LINE_WIDTH, DISPLAY_ROWS, i0, j0. intros i j Hb Hk. lia. }
  destruct (Z_le_dec 0 j0); [|right; intros i j Hb Hk; pose proof Hb as Hb';
                                unfold clippedBox in Hb'; apply (Hu i j Hb) in Hk; lia].
  destruct (Z_lt_dec j0 fht8); [|right; intros i j Hb Hk; pose proof Hb as Hb';
                                   unfold clippedBox in Hb'; apply (Hu i j Hb) in Hk; lia].
  destruct (Z_le_dec 0 i0); [|right; intros i j Hb Hk; pose proof Hb as Hb';
                                unfold clippedBox in Hb'; apply (Hu i j Hb) in Hk; lia].
  destruct (Z_le_dec i0 w); [|right; intros i j Hb Hk; pose proof Hb as Hb';
                                unfold clippedBox in Hb'; apply (Hu i j Hb) in Hk; lia].
  destruct (Z_le_dec 0 k); [|right; intros i j Hb Hk; pose proof Hb as Hb';
                               unfold clippedBox in Hb'; lia].
  destruct (Z_lt_dec k 64); [|right; intros i j Hb Hk; pose proof Hb as Hb';
                                unfold clippedBox, LINE_WIDTH, DISPLAY_ROWS in Hb'; lia].
  left. exists i0, j0.
  unfold clippedBox, glyphCell, LINE_WIDTH, DISPLAY_ROWS, i0, j0 in *. lia.
Qed.

(** X4 -- clipping.  A character in the font's range may be drawn at any
    column and byte-row, also partly or wholly off the matrix.  The
    advance returned is the glyph's width wherever it is drawn; the
    glyph's columns that fall on columns 0..31 of module rows 0..1 hold
    the table's bytes; and no cell is changed but those of the glyph's
    rectangle (trailing column included) that fall on the matrix: a
    column cut off at either side is dropped, never carried into the
    other module row. *)
Theorem glyph_clipped_to_matrix (x yPos c : Z) (font : list Z) (m : Mem) :
  let w := pgm_read_byte font (glyphOffset c font) in
  let fht8 := Z.quot (pgm_read_byte font 1 + 7) 8 in
  pgm_read_byte font 2 <= c <= pgm_read_byte font 3 ->
  let r := drawCharWithY x yPos c font m in
  fst r = w /\
  (forall i j, 0 <= i < w -> 0 <= j < fht8 ->
     0 <= x + i < LINE_WIDTH -> 0 <= yPos + j < DISPLAY_ROWS ->
     snd r ((x + i) + LINE_WIDTH * (yPos + j))
     = pgm_read_byte font (glyphOffset c font + 1 + fht8 * i + j)) /\
  (forall k, (forall i j, 0 <= i <= w -> 0 <= j < fht8 ->
                0 <= x + i < LINE_WIDTH -> 0 <= yPos + j < DISPLAY_ROWS ->
                k <> (x + i) + LINE_WIDTH * (yPos + j)) ->
     snd r k = m k).
Proof.
  intros w fht8 Hc r.
  destruct (drawCharWithY_clipped x yPos c font m Hc) as [Hin Hout].
  fold w fht8 in Hin, Hout. fold r in Hin, Hout.
  split; [|split].
  - unfold r. rewrite drawCharWithY_advance. apply advance_in_range. exact Hc.
  - intros i j Hi Hj Hcol Hrow.
    replace ((x + i) + LINE_WIDTH * (yPos + j)) with (glyphCell x yPos i j)
      by (unfold glyphCell; lia).
    rewrite Hin.
    + destruct (Z.ltb_spec i w); [reflexivity | lia].
    + unfold clippedBox, glyphCell, LINE_WIDTH, DISPLAY_ROWS in *. lia.
  - intros k Hk. apply Hout. intros i j Hb.
    unfold clippedBox, glyphCell in *.
    replace (x + LINE_WIDTH * (j + yPos) + i) with ((x + i) + LINE_WIDTH * (yPos + j)) by lia.
    apply Hk; unfold LINE_WIDTH, DISPLAY_ROWS in *; lia.
Qed.

(** X4 on the digit 2 of the sample table drawn at column -2 of the lower
    row: its last three columns land on columns 0..2. *)
Lemma glyph_clipped_to_matrix_sample :
  (pgm_read_byte sample5x8 2 <= code "2" <= pgm_read_byte sample5x8 3) /\
  (let r := drawCharWithY (-2) 1 (code "2") sample5x8 (fun _ => 0xFF) in
   fst r = 5 /\
   (forall i j, 0 <= i < 5 -> 0 <= j < 1 ->
      0 <= -2 + i < LINE_WIDTH -> 0 <= 1 + j < DISPLAY_ROWS ->
      snd r ((-2 + i) + LINE_WIDTH * (1 + j))
      = pgm_read_byte sample5x8 (glyphOffset (code "2") sample5x8 + 1 + 1 * i + j)) /\
   (forall k, (forall i j, 0 <= i <= 5 -> 0 <= j < 1 ->
                 0 <= -2 + i < LINE_WIDTH -> 0 <= 1 + j < DISPLAY_ROWS ->
                 k <> (-2 + i) + LINE_WIDTH * (1 + j)) ->
      snd r k = 0xFF)).
Proof.
  split; [vm_compute; split; discriminate|].
  apply (glyph_clipped_to_matrix (-2) 1 (code "2") sample5x8 (fun _ => 0xFF)).
  vm_compute; split; discriminate.
Defined.

(** X5 -- a glyph wholly off the matrix.  Drawn at a column right of
    column 31, or so far left that even its trailing column is left of
    column 0, or on a byte-row range that misses both module rows, a
    character changes no cell; the advance is returned all the same. *)
Theorem glyph_off_matrix_noop (x yPos c : Z) (font : list Z) (m : Mem) :
  LINE_WIDTH <= x \/ x + advance c font < 0 \/ DISPLAY_ROWS <= yPos \/
  yPos + Z.quot (pgm_read_byte font 1 + 7) 8 <= 0 ->
  fst (drawCharWithY x yPos c font m) = advance c font /\
  forall k, snd (drawCharWithY x yPos c font m) k = m k.
Proof.
  intros Hoff. split; [apply drawCharWithY_advance|].
  intros k.
  destruct (Z_lt_dec c (pgm_read_byte font 2)) as [Hlo|Hlo].
  { unfold drawCharWithY. destruct (Z.ltb_spec c (pgm_read_byte font 2)); [reflexivity | lia]. }
  destruct (Z_gt_dec c (pgm_read_byte font 3)) as [Hhi|Hhi].
  { unfold drawCharWithY. destruct (Z.gtb_spec c (pgm_read_byte font 3)); [|lia].
    rewrite orb_true_r. reflexivity. }
  assert (Hc : pgm_read_byte font 2 <= c <= pgm_read_byte font 3) by lia.
  destruct (drawCharWithY_clipped x yPos c font m Hc) as [_ Hout].
  apply Hout. intros i j Hb.
  rewrite (advance_in_range c font Hc) in Hoff.
  unfold clippedBox, glyphCell, LINE_WIDTH, DISPLAY_ROWS in *. lia.
Qed.

(** X5 on the digit 2 of the sample table at column 32. *)
Lemma glyph_off_matrix_noop_sample :
  (LINE_WIDTH <= 32 \/ 32 + advance (code "2") sample5x8 < 0 \/ DISPLAY_ROWS <= 0 \/
   0 + Z.quot (pgm_read_byte sample5x8 1 + 7) 8 <= 0) /\
  fst (drawCharWithY 32 0 (code "2") sample5x8 (fun _ => 0xFF)) = advance (code "2") sample5x8 /\
  forall k, snd (drawCharWithY 32 0 (code "2") sample5x8 (fun _ => 0xFF)) k = 0xFF.
Proof.
  split; [left; vm_compute; discriminate|].
  apply (glyph_off_matrix_noop 32 0 (code "2") sample5x8 (fun _ => 0xFF)).
  left. vm_compute. discriminate.
Defined.

(** X6 -- drawing a character a second time at the same place changes
    nothing: every store writes a byte of the table (or the blank of the
    trailing column), whatever the cell held. *)
Theorem glyph_redraw_idempotent (x yPos c : Z) (font : list Z) (m : Mem) (k : Z) :
  snd (drawCharWithY x yPos c font (snd (drawCharWithY x yPos c font m))) k
  = snd (drawCharWithY x yPos c font m) k.
Proof.
  destruct (Z_lt_dec c (pgm_read_byte font 2)) as [Hlo|Hlo].
  { unfold drawCharWithY. destruct (Z.ltb_spec c (pgm_read_byte font 2)); [reflexivity | lia]. }
  destruct (Z_gt_dec c (pgm_read_byte font 3)) as [Hhi|Hhi].
  { unfold drawCharWithY. destruct (Z.gtb_spec c (pgm_read_byte font 3)); [|lia].
    rewrite orb_true_r. reflexivity. }
  assert (Hc : pgm_read_byte font 2 <= c <= pgm_read_byte font 3) by lia.
  destruct (drawCharWithY_clipped x yPos c font m Hc) as [Hin1 _].
  destruct (drawCharWithY_clipped x yPos c font (snd (drawCharWithY x yPos c font m)) Hc)
    as [Hin2 Hout2].
  destruct (clippedBox_cases x yPos (pgm_read_byte font (glyphOffset c font))
              (Z.quot (pgm_read_byte font 1 + 7) 8) k) as [[i [j [Hb ->]]] | Hnone].
  - rewrite (Hin2 i j Hb), (Hin1 i j Hb). reflexivity.
  - apply Hout2. exact Hnone.
Qed.

(** ** Widths and messages *)

Lemma charWidth_range (c : Z) (font : list Z) : 0 <= charWidth c font < 256.
Proof.
  unfold charWidth.
  destruct ((c <? pgm_read_byte font 2) || (c >? pgm_read_byte font 3)); [lia|].
  apply pgm_read_byte_range.
Qed.

Lemma stringWidth_loop_acc (str : string) (font : list Z) :
  forall width, stringWidth_loop str font width = width + stringWidth_loop str font 0.
Proof.
  induction str as [|c rest IH]; intros width; cbn [stringWidth_loop]; [lia|].
  rewrite IH, (IH (0 + _)). lia.
Qed.

Lemma stringWidth_loop_app (a b : string) (font : list Z) :
  stringWidth_loop (a ++ b) font 0
  = stringWidth_loop a font 0 + stringWidth_loop b font 0.
Proof.
  induction a as [|c rest IH]; [reflexivity|].
  cbn [String.append stringWidth_loop].
  rewrite (stringWidth_loop_acc (rest ++ b)), IH, (stringWidth_loop_acc rest font (0 + _)). lia.
Qed.

Lemma stringWidth_loop_lower (str : string) (font : list Z) :
  Z.of_nat (String.length str) <= stringWidth_loop str font 0.
Proof.
  induction str as [|c rest IH]; cbn [stringWidth_loop String.length]; [lia|].
  rewrite stringWidth_loop_acc. pose proof (charWidth_range (code c) font). lia.
Qed.

(** X7 -- [stringWidth] counts one column of spacing between neighbours
    and none after the last character: the width of a concatenation is
    the two widths and one column, a single character is as wide as
    [charWidth] says, and the empty string has width -1. *)
Theorem stringWidth_concat (a b : string) (c : ascii) (font : list Z) :
  stringWidth (a ++ b) font = stringWidth a font + stringWidth b font + 1 /\
  stringWidth (String c EmptyString) font = charWidth (code c) font /\
  stringWidth EmptyString font = -1.
Proof.
  unfold stringWidth. rewrite stringWidth_loop_app.
  cbn [stringWidth_loop]. split; [lia | split; lia].
Qed.

(** X8 -- where [showMessage] starts.  The start column is always one of
    0..16, so the clamp to column 31 never applies; a message that
    [stringWidth] measures at no more than 32 columns is centred, the
    right margin being the left one or one column more; a wider one
    starts at column 0. *)
Theorem messageStart_centres (F : Fonts) (msg : string) :
  let width := stringWidth msg (font3x7 F) in
  let x := messageStart F msg in
  0 <= x <= 16 /\
  (width <= TOTAL_WIDTH -> 0 <= (TOTAL_WIDTH - width - x) - x <= 1) /\
  (TOTAL_WIDTH <= width -> x = 0).
Proof.
  intros width x.
  assert (Hlow : -1 <= width).
  { unfold width, stringWidth. pose proof (stringWidth_loop_lower msg (font3x7 F)). lia. }
  unfold x, messageStart. fold width. unfold TOTAL_WIDTH in *. cbv zeta.
  pose proof (Z.quot_rem' (32 - width) 2) as Hq.
  assert (Hr : 32 - width < 0 \/ 0 <= 32 - width).  { lia. }
  destruct Hr as [Hneg|Hpos].
  - pose proof (Z.rem_bound_pos_neg (32 - width) 2 ltac:(lia) ltac:(lia)) as Hb.
    destruct (Z.ltb_spec (Z.quot (32 - width) 2) 0).
    + cbn. lia.
    + destruct (Z.geb_spec (Z.quot (32 - width) 2) 32); lia.
  - pose proof (Z.rem_bound_pos (32 - width) 2 ltac:(lia) ltac:(lia)) as Hb.
    destruct (Z.ltb_spec (Z.quot (32 - width) 2) 0); [lia|].
    destruct (Z.geb_spec (Z.quot (32 - width) 2) 32); lia.
Qed.

(** X9 -- when [charWidth] is right.  [charWidth] finds a character's
    record by adding up [w * fht + 1] over the records before it, while
    the blitter takes each record to be [fht8 * fwd + 1] bytes.  For a
    character in the font's range, if the two lengths agree on every
    record before the character's, [charWidth] is the advance the blitter
    returns; for the first character of a font nothing is required. *)
Theorem charWidth_is_advance (c : Z) (font : list Z) :
  pgm_read_byte font 2 <= c <= pgm_read_byte font 3 ->
  recordsAgree font (c - pgm_read_byte font 2) ->
  charWidth c font = advance c font.
Proof.
  intros Hc Hrec. rewrite (advance_in_range c font Hc).
  unfold charWidth.
  destruct (Z.ltb_spec c (pgm_read_byte font 2)); [lia|].
  destruct (Z.gtb_spec c (pgm_read_byte font 3)); [lia|].
  cbn [orb]. f_equal. unfold glyphOffset. cbv zeta.
  set (len := Z.quot (pgm_read_byte font 1 + 7) 8 * pgm_read_byte font 0 + 1).
  apply (for_range_ind (fun i offset => offset = 4 + i * len)); [lia | lia |].
  intros i offset Hi ->.
  unfold recordsAgree in Hrec. cbv zeta in Hrec. fold len in Hrec.
  rewrite (Hrec i) by lia. unfold len. lia.
Qed.

(** X9 on the third character of a table of one-column glyphs in
    eight-column records. *)
Lemma charWidth_is_advance_sample :
  (pgm_read_byte sampleNarrow 2 <= 67 <= pgm_read_byte sampleNarrow 3) /\
  recordsAgree sampleNarrow (67 - pgm_read_byte sampleNarrow 2) /\
  charWidth 67 sampleNarrow = advance 67 sampleNarrow.
Proof.
  assert (Hc : pgm_read_byte sampleNarrow 2 <= 67 <= pgm_read_byte sampleNarrow 3).
  { vm_compute. split; discriminate. }
  assert (Hr : recordsAgree sampleNarrow (67 - pgm_read_byte sampleNarrow 2)).
  { unfold recordsAgree. cbv zeta. intros i Hi.
    change (67 - pgm_read_byte sampleNarrow 2) with 2 in Hi.
    assert (Hi' : i = 0 \/ i = 1) by lia.
    destruct Hi' as [-> | ->]; vm_compute; reflexivity. }
  split; [exact Hc | split; [exact Hr|]].
  apply (charWidth_is_advance 67 sampleNarrow Hc Hr).
Defined.

(** On the sample digit table, whose glyphs are five columns wide in
    records of six bytes, the two disagree from the second character on. *)
Example charWidth_off_sample :
  charWidth (code "0") sample5x8 = 5 /\ advance (code "0") sample5x8 = 5 /\
  charWidth (code "1") sample5x8 = 48 /\ advance (code "1") sample5x8 = 5.
Proof. repeat split; vm_compute; reflexivity. Qed.

(** ** The refresh engine and the dirty cells *)

Lemma refreshAll_scr (s : State) : scr (refreshAll s) = scr s.
Proof. destruct (refreshAll_writes s) as [L [fr [ff [t [calls ->]]]]]. reflexivity. Qed.


(** Over [0..n-1] a function that is empty everywhere but at [k0]. *)
Lemma flat_map_upto_single {B : Type} (f : Z -> list B) (k0 n : Z) :
  0 <= k0 -> 0 <= n ->
  (forall k, 0 <= k < n -> k <> k0 -> f k = []) ->
  flat_map f (upto n) = if k0 <? n then f k0 else [].
Proof.
  intros Hk0 Hn. pattern n. apply natlike_ind; [| |exact Hn].
  - intros _. destruct (Z.ltb_spec k0 0); [lia | reflexivity].
  - intros x Hx IH Hf. change (Z.succ x) with (x + 1) in *.
    rewrite upto_succ by exact Hx. rewrite flat_map_app, IH by (intros; apply Hf; lia).
    cbn [flat_map]. rewrite app_nil_r.
    destruct (Z.ltb_spec k0 x), (Z.ltb_spec k0 (x + 1)); try lia.
    + rewrite (Hf x) by lia. apply app_nil_r.
    + replace x with k0 by lia. reflexivity.
    + rewrite (Hf x) by lia. reflexivity.
Qed.

(** X10 -- dirty-cell tracking.  A pass with no redraw pending calls
    [drawLEDPixel] for the eight pixels of each cell whose byte differs
    from its shadow byte (of every cell on the first run), in buffer
    order, and for no other pixel; afterwards the shadow holds the frame
    buffer, and the shadow's memory outside the 64 cells is untouched. *)
Theorem refreshAll_repaints_dirty_cells (s : State) :
  forceFullRedraw s = false ->
  ledCalls (refreshAll s) = ledCalls s ++ passCalls s (LINE_WIDTH * DISPLAY_ROWS) /\
  (forall k, 0 <= k < LINE_WIDTH * DISPLAY_ROWS -> lastScr (refreshAll s) k = scr s k) /\
  (forall k, ~ (0 <= k < LINE_WIDTH * DISPLAY_ROWS) -> lastScr (refreshAll s) k = lastScr s k).
Proof.
  intros Hf.
  destruct (refreshAll_unforced s Hf) as [u [[t [L [-> HL]]] ->]].
  cbn [ledCalls lastScr scr set_firstRun set_tft set_ledCalls set_lastScr].
  split; [reflexivity | split].
  - intros k Hk. rewrite HL.
    destruct (Z.leb_spec 0 k); [|lia].
    destruct (Z.ltb_spec k (LINE_WIDTH * DISPLAY_ROWS)); [|lia]. cbn [andb].
    unfold dirtyCell. destruct (firstRun s); [reflexivity|]. cbn [orb].
    destruct (Z.eqb_spec (scr s k) (lastScr s k)); cbn [negb]; congruence.
  - intros k Hk. rewrite HL.
    destruct (Z.leb_spec 0 k); cbn [andb]; [|reflexivity].
    destruct (Z.ltb_spec k (LINE_WIDTH * DISPLAY_ROWS)); [lia | reflexivity].
Qed.

(** X10 on a painted blank display with one cell changed. *)
Lemma refreshAll_repaints_dirty_cells_sample :
  forceFullRedraw (set_scr (store 5 0x81 (fun _ => 0)) (set_firstRun false initialState))
  = false /\
  (let s := set_scr (store 5 0x81 (fun _ => 0)) (set_firstRun false initialState) in
   ledCalls (refreshAll s) = ledCalls s ++ passCalls s (LINE_WIDTH * DISPLAY_ROWS) /\
   (forall k, 0 <= k < LINE_WIDTH * DISPLAY_ROWS -> lastScr (refreshAll s) k = scr s k) /\
   (forall k, ~ (0 <= k < LINE_WIDTH * DISPLAY_ROWS) ->
      lastScr (refreshAll s) k = lastScr s k)).
Proof.
  split; [reflexivity|].
  apply (refreshAll_repaints_dirty_cells
           (set_scr (store 5 0x81 (fun _ => 0)) (set_firstRun false initialState))).
  reflexivity.
Defined.

(** X11 -- one changed cell costs eight pixel calls.  When the display
    has been painted and exactly one cell of the frame buffer differs
    from its shadow, a pass calls [drawLEDPixel] for the eight pixels of
    that cell, bit 0 first, and for nothing else. *)
Theorem refreshAll_one_changed_cell (s : State) (k0 : Z) :
  forceFullRedraw s = false -> firstRun s = false ->
  0 <= k0 < LINE_WIDTH * DISPLAY_ROWS ->
  scr s k0 <> lastScr s k0 ->
  (forall k, 0 <= k < LINE_WIDTH * DISPLAY_ROWS -> k <> k0 -> scr s k = lastScr s k) ->
  ledCalls (refreshAll s)
  = ledCalls s ++ cellCalls (k0 mod LINE_WIDTH) (k0 / LINE_WIDTH) (scr s k0).
Proof.
  intros Hf Hr Hk0 Hne Heq.
  destruct (refreshAll_unforced s Hf) as [u [[t [L [-> _]]] ->]].
  cbn [ledCalls set_firstRun set_tft set_ledCalls set_lastScr].
  f_equal. unfold passCalls.
  rewrite (flat_map_upto_single _ k0); [| lia | unfold LINE_WIDTH, DISPLAY_ROWS; lia |].
  - destruct (Z.ltb_spec k0 (LINE_WIDTH * DISPLAY_ROWS)); [|lia].
    unfold dirtyCell. rewrite Hr. cbn [orb].
    destruct (Z.eqb_spec (scr s k0) (lastScr s k0)); [contradiction | reflexivity].
  - intros k Hk Hkk. unfold dirtyCell. rewrite Hr, (Heq k Hk Hkk), Z.eqb_refl. reflexivity.
Qed.

(** X11 on a painted blank display after cell 5 is set to 0x81. *)
Lemma refreshAll_one_changed_cell_sample :
  (let s := set_scr (store 5 0x81 (fun _ => 0)) (set_firstRun false initialState) in
   forceFullRedraw s = false /\ firstRun s = false /\
   0 <= 5 < LINE_WIDTH * DISPLAY_ROWS /\
   scr s 5 <> lastScr s 5 /\
   (forall k, 0 <= k < LINE_WIDTH * DISPLAY_ROWS -> k <> 5 -> scr s k = lastScr s k)) /\
  (let s := set_scr (store 5 0x81 (fun _ => 0)) (set_firstRun false initialState) in
   ledCalls (refreshAll s)
   = ledCalls s ++ cellCalls (5 mod LINE_WIDTH) (5 / LINE_WIDTH) (scr s 5)).
Proof.
  assert (H5 : 0 <= 5 < LINE_WIDTH * DISPLAY_ROWS) by (unfold LINE_WIDTH, DISPLAY_ROWS; lia).
  assert (Hne : store 5 0x81 (fun _ : Z => 0) 5 <> 0) by (vm_compute; discriminate).
  assert (Heq : forall k, 0 <= k < LINE_WIDTH * DISPLAY_ROWS -> k <> 5 ->
                          store 5 0x81 (fun _ : Z => 0) k = 0).
  { intros k _ Hk. apply store_neq. exact Hk. }
  split.
  - cbv zeta. repeat split; try reflexivity; try exact Hne; try exact Heq; apply H5.
  - apply (refreshAll_one_changed_cell
             (set_scr (store 5 0x81 (fun _ => 0)) (set_firstRun false initialState)) 5
             eq_refl eq_refl H5 Hne Heq).
Defined.



(** ** Messages *)

(** On byte-row 0 a font of at most eight pixel rows reaches the upper
    module row only. *)
Lemma drawCharWithY_top_row (x c : Z) (font : list Z) (m : Mem) (k : Z) :
  pgm_read_byte font 1 <= 8 -> LINE_WIDTH <= k ->
  snd (drawCharWithY x 0 c font m) k = m k.
Proof.
  intros Hh Hk.
  destruct (Z_lt_dec c (pgm_read_byte font 2)) as [Hlo|Hlo].
  { unfold drawCharWithY. destruct (Z.ltb_spec c (pgm_read_byte font 2)); [reflexivity | lia]. }
  destruct (Z_gt_dec c (pgm_read_byte font 3)) as [Hhi|Hhi].
  { unfold drawCharWithY. destruct (Z.gtb_spec c (pgm_read_byte font 3)); [|lia].
    rewrite orb_true_r. reflexivity. }
  assert (Hc : pgm_read_byte font 2 <= c <= pgm_read_byte font 3) by lia.
  destruct (drawCharWithY_clipped x 0 c font m Hc) as [_ Hout].
  apply Hout. intros i j Hb.
  assert (Hq : Z.quot (pgm_read_byte font 1 + 7) 8 <= 1).
  { pose proof (Z.quot_le_mono (pgm_read_byte font 1 + 7) 15 8 ltac:(lia) ltac:(lia)) as Hq.
    exact Hq. }
  unfold clippedBox, glyphCell, LINE_WIDTH, DISPLAY_ROWS in *. lia.
Qed.

Lemma drawRunSpaced_top_row (F : Fonts) (buf : string) :
  pgm_read_byte (font3x7 F) 1 <= 8 ->
  forall (x : Z) (s : State) (k : Z),
    LINE_WIDTH <= k ->
    scr (snd (drawRunSpaced F 0 Font3x7 buf x s)) k = scr s k.
Proof.
  intros Hh. induction buf as [|c rest IH]; intros x s k Hk; [reflexivity|].
  cbn [drawRunSpaced]. rewrite IH by exact Hk.
  unfold blit. cbn [snd scr set_scr fontOf].
  apply drawCharWithY_top_row; assumption.
Qed.


(** X14 -- a message stays on the upper row.  With a 3x7 font of at most
    eight pixel rows, after [showMessage] has drawn a non-empty message
    every cell of the lower module row is 0, however long the message
    is, and memory behind the frame buffer is as before. *)
Theorem showMessage_lower_row_blank (F : Fonts) (msg : string) (s : State) (k : Z) :
  pgm_read_byte (font3x7 F) 1 <= 8 ->
  msg <> EmptyString ->
  LINE_WIDTH <= k ->
  scr (showMessage F (Some msg) s) k
  = if k <? LINE_WIDTH * DISPLAY_ROWS then 0 else scr s k.
Proof.
  intros Hh Hmsg Hk.
  unfold showMessage. destruct msg as [|c rest]; [contradiction|].
  cbn [String.length Nat.eqb]. cbv zeta.
  rewrite refreshAll_scr, drawRunSpaced_top_row by assumption.
  cbn [scr set_scr]. rewrite clearScreen_at.
  destruct (Z.leb_spec 0 k); [|unfold LINE_WIDTH in *; lia]. reflexivity.
Qed.

(** X14 on the sample 3x7 table: a message of eleven characters, wider
    than the matrix, leaves cell 40 of the lower row at 0. *)
Lemma showMessage_lower_row_blank_sample :
  (pgm_read_byte (font3x7 sampleFonts) 1 <= 8 /\ "HELLO WORLD"%string <> EmptyString /\
   LINE_WIDTH <= 40) /\
  scr (showMessage sampleFonts (Some "HELLO WORLD"%string) initialState) 40
  = if 40 <? LINE_WIDTH * DISPLAY_ROWS then 0 else scr initialState 40.
Proof.
  assert (H1 : pgm_read_byte (font3x7 sampleFonts) 1 <= 8) by (vm_compute; discriminate).
  assert (H2 : "HELLO WORLD"%string <> EmptyString) by discriminate.
  assert (H3 : LINE_WIDTH <= 40) by (vm_compute; discriminate).
  split; [repeat split; assumption|].
  apply (showMessage_lower_row_blank sampleFonts "HELLO WORLD" initialState 40 H1 H2 H3).
Defined.

(** ** The driver calls of one pixel *)

Lemma emits_nil (s : State) : emits [] s = s.
Proof. unfold emits. rewrite app_nil_r. destruct s; reflexivity. Qed.

Lemma emits_emits (l l' : list TftOp) (s : State) :
  emits l' (emits l s) = emits (l ++ l') s.
Proof. unfold emits. cbn [tft set_tft]. rewrite app_assoc. reflexivity. Qed.

Lemma range_succ (lo k : Z) : lo <= k -> range lo (k + 1) = range lo k ++ [k].
Proof.
  intros H. unfold range.
  replace (Z.to_nat (k + 1 - lo)) with (Z.to_nat (k - lo) + 1)%nat by lia.
  rewrite seq_app, map_app. cbn [seq map Nat.add]. f_equal. f_equal. lia.
Qed.

Lemma in_range (lo hi k : Z) : In k (range lo hi) <-> lo <= k < hi.
Proof.
  unfold range. rewrite in_map_iff. split.
  - intros [n [<- Hn]]. apply in_seq in Hn. lia.
  - intros H. exists (Z.to_nat (k - lo)). split; [lia|]. apply in_seq. lia.
Qed.

(** A loop whose body only issues driver calls issues the calls of its
    iterations in order; the style the body reads is the one the loop
    started with. *)
Lemma for_range_emits (lo hi : Z) (f : Z -> list TftOp) (body : Z -> State -> State)
      (s : State) :
  lo <= hi ->
  (forall k u, lo <= k < hi -> style u = style s -> body k u = emits (f k) u) ->
  for_range lo hi body s = emits (flat_map f (range lo hi)) s.
Proof.
  intros Hle Hbody.
  apply (for_range_ind (fun k u => u = emits (flat_map f (range lo k)) s)); [exact Hle | |].
  - unfold range. rewrite Z.sub_diag. cbn. symmetry. apply emits_nil.
  - intros k u Hk ->. rewrite (Hbody k (emits (flat_map f (range lo k)) s) Hk eq_refl).
    rewrite emits_emits, range_succ by lia.
    rewrite flat_map_app. cbn [flat_map]. rewrite app_nil_r. reflexivity.
Qed.

(** [drawLEDPixel] issues the calls [ledOps] lists and does nothing
    else. *)
Lemma drawLEDPixel_ops (x y : Z) (lit : bool) (s : State) :
  drawLEDPixel x y lit s = emits (ledOps s x y lit) s.
Proof.
  unfold drawLEDPixel, ledOps.
  destruct ((x <? 0) || (x >=? TOTAL_WIDTH) || (y <? 0) || (y >=? TOTAL_HEIGHT));
    [symmetry; apply emits_nil|].
  cbv zeta. fold (cellLeft s x). fold (cellTop s y).
  destruct (displayStyle (style s) =? 0); [reflexivity|].
  destruct lit; cbn [negb].
  - change (emits (?op :: ?l) s) with (emits ([op] ++ l) s).
    rewrite <- emits_emits.
    apply for_range_emits; [unfold LED_SIZE; lia|].
    intros py u Hpy Hu.
    apply for_range_emits; [unfold LED_SIZE; lia|].
    intros px v Hpx Hv. rewrite Hv, Hu. reflexivity.
  - change (emits (?op :: ?l) s) with (emits ([op] ++ l) s).
    rewrite <- emits_emits.
    apply for_range_emits; [unfold LED_SIZE; lia|].
    intros py u Hpy Hu.
    apply for_range_emits; [unfold LED_SIZE; lia|].
    intros px v Hpx Hv.
    match goal with |- (if ?a then _ else _) = _ => destruct a end; [reflexivity|].
    match goal with |- (if ?a then _ else _) = _ => destruct a end; [reflexivity|].
    symmetry. apply emits_nil.
Qed.

(** X15 -- a pixel is painted inside its own square (version 3.0, where
    [LED_SIZE] is the constant 10).  Every driver call [drawLEDPixel] issues, in either style, lit or unlit, is a rectangle
    fill or a pixel write that stays inside the 10 x 10 panel square of
    the logical pixel; a pixel outside the 32 x 16 matrix issues no call.
    The screen is never filled. *)
Theorem drawLEDPixel_paints_own_square (x y : Z) (lit : bool) (s : State) :
  exists l,
    tft (drawLEDPixel x y lit s) = tft s ++ l /\
    forall op px py, In op l -> paints op px py ->
      (0 <= x < TOTAL_WIDTH /\ 0 <= y < TOTAL_HEIGHT) /\
      cellLeft s x <= px < cellLeft s x + LED_SIZE /\
      cellTop s y <= py < cellTop s y + LED_SIZE.
Proof.
  exists (ledOps s x y lit). split; [rewrite drawLEDPixel_ops; reflexivity|].
  intros op px py Hin Hp. unfold ledOps in Hin.
  destruct (Z.ltb_spec x 0); [contradiction|].
  destruct (Z.geb_spec x TOTAL_WIDTH); [contradiction|].
  destruct (Z.ltb_spec y 0); [contradiction|].
  destruct (Z.geb_spec y TOTAL_HEIGHT); [contradiction|].
  cbn [orb] in Hin. cbv zeta in Hin.
  split; [lia|].
  assert (Hrect : forall col, op = FillRect (cellLeft s x) (cellTop s y) LED_SIZE LED_SIZE col ->
            cellLeft s x <= px < cellLeft s x + LED_SIZE /\
            cellTop s y <= py < cellTop s y + LED_SIZE).
  { intros col ->. exact Hp. }
  assert (Hpix : forall qx qy col, 0 <= qx < LED_SIZE -> 0 <= qy < LED_SIZE ->
            op = DrawPixel (cellLeft s x + qx) (cellTop s y + qy) col ->
            cellLeft s x <= px < cellLeft s x + LED_SIZE /\
            cellTop s y <= py < cellTop s y + LED_SIZE).
  { intros qx qy col Hqx Hqy ->. cbn [paints] in Hp. lia. }
  destruct (displayStyle (style s) =? 0).
  { destruct Hin as [<-|[]]. eapply Hrect. reflexivity. }
  destruct lit; cbn [negb] in Hin.
  - destruct Hin as [<-|Hin]; [eapply Hrect; reflexivity|].
    apply in_flat_map in Hin. destruct Hin as [qy [Hqy Hin]].
    apply in_flat_map in Hin. destruct Hin as [qx [Hqx Hin]].
    apply in_range in Hqy. apply in_range in Hqx.
    destruct Hin as [<-|[]]. eapply Hpix; [| |reflexivity]; unfold LED_SIZE in *; lia.
  - destruct Hin as [<-|Hin]; [eapply Hrect; reflexivity|].
    apply in_flat_map in Hin. destruct Hin as [qy [Hqy Hin]].
    apply in_flat_map in Hin. destruct Hin as [qx [Hqx Hin]].
    apply in_range in Hqy. apply in_range in Hqx.
    match type of Hin with In _ (if ?a then _ else _) => destruct a end.
    { destruct Hin as [<-|[]]. eapply Hpix; [| |reflexivity]; unfold LED_SIZE in *; lia. }
    match type of Hin with In _ (if ?a then _ else _) => destruct a end.
    { destruct Hin as [<-|[]]. eapply Hpix; [| |reflexivity]; unfold LED_SIZE in *; lia. }
    destruct Hin.
Qed.

(** X16 -- the squares tile the panel (version 3.0, squares of 10 x 10
    at a pitch of 10).  The squares of two different
    logical pixels share no panel pixel; the square of row 8 starts 14
    panel rows below that of row 7, which leaves the 4-row gap between
    the two modules; and on a panel of at least 320 x 164 every square
    lies on the panel. *)
Theorem led_squares_disjoint_on_panel (s : State) (x y x' y' : Z) :
  0 <= x < TOTAL_WIDTH -> 0 <= y < TOTAL_HEIGHT ->
  0 <= x' < TOTAL_WIDTH -> 0 <= y' < TOTAL_HEIGHT ->
  (x <> x' \/ y <> y' ->
   forall px py,
     ~ ((cellLeft s x <= px < cellLeft s x + LED_SIZE /\
         cellTop s y <= py < cellTop s y + LED_SIZE) /\
        (cellLeft s x' <= px < cellLeft s x' + LED_SIZE /\
         cellTop s y' <= py < cellTop s y' + LED_SIZE))) /\
  cellTop s 8 = cellTop s 7 + LED_SIZE + 4 /\
  (DISPLAY_WIDTH <= tftWidth s -> DISPLAY_HEIGHT <= tftHeight s ->
   0 <= cellLeft s x /\ cellLeft s x + LED_SIZE <= tftWidth s /\
   0 <= cellTop s y /\ cellTop s y + LED_SIZE <= tftHeight s).
Proof.
  intros Hx Hy Hx' Hy'.
  unfold cellLeft, cellTop, LED_SIZE, TOTAL_WIDTH, TOTAL_HEIGHT in *.
  set (ox := if Z.quot (tftWidth s - DISPLAY_WIDTH) 2 >? 0
             then Z.quot (tftWidth s - DISPLAY_WIDTH) 2 else 0).
  set (oy := if Z.quot (tftHeight s - DISPLAY_HEIGHT) 2 >? 0
             then Z.quot (tftHeight s - DISPLAY_HEIGHT) 2 else 0).
  split; [|split].
  - intros Hne px py.
    destruct (Z.geb_spec y 8), (Z.geb_spec y' 8); lia.
  - cbn. lia.
  - intros HW HH.
    assert (Hox : 0 <= ox /\ 2 * ox <= tftWidth s - DISPLAY_WIDTH).
    { unfold ox. pose proof (Z.quot_rem' (tftWidth s - DISPLAY_WIDTH) 2) as Hq.
      pose proof (Z.rem_bound_pos (tftWidth s - DISPLAY_WIDTH) 2 ltac:(lia) ltac:(lia)).
      destruct (Z.gtb_spec (Z.quot (tftWidth s - DISPLAY_WIDTH) 2) 0); lia. }
    assert (Hoy : 0 <= oy /\ 2 * oy <= tftHeight s - DISPLAY_HEIGHT).
    { unfold oy. pose proof (Z.quot_rem' (tftHeight s - DISPLAY_HEIGHT) 2) as Hq.
      pose proof (Z.rem_bound_pos (tftHeight s - DISPLAY_HEIGHT) 2 ltac:(lia) ltac:(lia)).
      destruct (Z.gtb_spec (Z.quot (tftHeight s - DISPLAY_HEIGHT) 2) 0); lia. }
    unfold DISPLAY_WIDTH, DISPLAY_HEIGHT, LED_SIZE, TOTAL_WIDTH, TOTAL_HEIGHT in *.
    destruct (Z.geb_spec y 8); lia.
Qed.

(** X16 on the 320 x 240 panel of the start state, for the neighbours
    (3, 7) and (3, 8) on either side of the gap. *)
Lemma led_squares_disjoint_on_panel_sample :
  (0 <= 3 < TOTAL_WIDTH /\ 0 <= 7 < TOTAL_HEIGHT /\ 0 <= 3 < TOTAL_WIDTH /\
   0 <= 8 < TOTAL_HEIGHT) /\
  ((3 <> 3 \/ 7 <> 8 ->
    forall px py,
      ~ ((cellLeft initialState 3 <= px < cellLeft initialState 3 + LED_SIZE /\
          cellTop initialState 7 <= py < cellTop initialState 7 + LED_SIZE) /\
         (cellLeft initialState 3 <= px < cellLeft initialState 3 + LED_SIZE /\
          cellTop initialState 8 <= py < cellTop initialState 8 + LED_SIZE))) /\
   cellTop initialState 8 = cellTop initialState 7 + LED_SIZE + 4 /\
   (DISPLAY_WIDTH <= tftWidth initialState -> DISPLAY_HEIGHT <= tftHeight initialState ->
    0 <= cellLeft initialState 3 /\ cellLeft initialState 3 + LED_SIZE <= tftWidth initialState /\
    0 <= cellTop initialState 7 /\
    cellTop initialState 7 + LED_SIZE <= tftHeight initialState)).
Proof.
  assert (H3 : 0 <= 3 < TOTAL_WIDTH) by (unfold TOTAL_WIDTH; lia).
  assert (H7 : 0 <= 7 < TOTAL_HEIGHT) by (unfold TOTAL_HEIGHT; lia).
  assert (H8 : 0 <= 8 < TOTAL_HEIGHT) by (unfold TOTAL_HEIGHT; lia).
  split; [repeat split; first [apply H3 | apply H7 | apply H8]|].
  apply (led_squares_disjoint_on_panel initialState 3 7 3 8 H3 H7 H3 H8).
Defined.

(** X17 -- the cost of a pixel (version 3.0, squares of 10 x 10).  For
    a pixel of the matrix,
    [drawLEDPixel] issues one driver call in the block style; in the
    realistic style it issues 101 calls for a lit pixel (the fill and
    every pixel of the square) and 53 for an unlit one (the fill and the
    52 pixels of the dark disc). *)
Theorem drawLEDPixel_call_count (x y : Z) (lit : bool) (s : State) :
  0 <= x < TOTAL_WIDTH -> 0 <= y < TOTAL_HEIGHT ->
  exists l,
    tft (drawLEDPixel x y lit s) = tft s ++ l /\
    List.length l
    = if displayStyle (style s) =? 0 then 1%nat else if lit then 101%nat else 53%nat.
Proof.
  intros Hx Hy.
  exists (ledOps s x y lit). split; [rewrite drawLEDPixel_ops; reflexivity|].
  unfold ledOps.
  destruct (Z.ltb_spec x 0); [lia|].
  destruct (Z.geb_spec x TOTAL_WIDTH); [lia|].
  destruct (Z.ltb_spec y 0); [lia|].
  destruct (Z.geb_spec y TOTAL_HEIGHT); [lia|].
  cbn [orb]. cbv zeta.
  generalize (cellLeft s x) (cellTop s y) (ledOnColor (style s))
             (dimRGB565 (ledSurroundColor (style s)) 7) (ledSurroundColor (style s)).
  intros cx cy on off sur.
  destruct (displayStyle (style s) =? 0); [reflexivity|].
  destruct lit; vm_compute; reflexivity.
Qed.

(** X17 on pixel (3, 9) of the start state, which is in the realistic
    style. *)
Lemma drawLEDPixel_call_count_sample :
  (0 <= 3 < TOTAL_WIDTH /\ 0 <= 9 < TOTAL_HEIGHT) /\
  exists l,
    tft (drawLEDPixel 3 9 false initialState) = tft initialState ++ l /\
    List.length l
    = if displayStyle (style initialState) =? 0 then 1%nat
      else if false then 101%nat else 53%nat.
Proof.
  assert (H3 : 0 <= 3 < TOTAL_WIDTH) by (unfold TOTAL_WIDTH; lia).
  assert (H9 : 0 <= 9 < TOTAL_HEIGHT) by (unfold TOTAL_HEIGHT; lia).
  split; [split; assumption|].
  apply (drawLEDPixel_call_count 3 9 false initialState H3 H9).
Defined.

(** ** What the modes show *)

(** X18 -- mode 0 never shows the seconds.  For every state and every
    font table, the blits of mode 0 on row 0 are the hours (with a
    leading zero only when [showLeadingZero]), the colon on even
    seconds, the two minutes digits and then, in 12-hour format, a
    prefix of "AM" or "PM" (in 24-hour format nothing); on row 1 they
    are a prefix of the temperature and humidity text.  Only the frame
    buffer and the blit trace change. *)
Theorem mode0_rows (F : Fonts) (s : State) :
  exists B t0 t1,
    composed s B (displayTimeAndTemp F s) /\
    textOf 0 B
    = (hoursText s ++ (if showDots s then ":" else "")
         ++ sprintf_02d (minutes (clock s)) ++ t0)%string /\
    isPrefix t0 (if use24HourFormat s then EmptyString
                 else if hours24 (clock s) >=? 12 then "PM" else "AM")%string /\
    textOf 1 B = t1 /\
    isPrefix t1 (tempHumText s).
Proof.
  destruct (displayTimeAndTemp_blits F s)
    as [B0 [Bi [B1 [t0 [t1 [HB [Hr0 [Hri [Hp0 [Hr1 [Hp1 _]]]]]]]]]]].
  exists (B0 ++ Bi ++ B1), t0, t1.
  split; [exact HB|].
  rewrite !textOf_app, (Hr0 0), (Hri 0), (Hr1 0), (Hr0 1), (Hri 1), (Hr1 1).
  cbn [Z.eqb Pos.eqb].
  rewrite string_app_empty_r, !string_app_assoc.
  split; [reflexivity|]. split; [|split; [reflexivity | exact Hp1]].
  unfold ampmText in Hp0. destruct (use24HourFormat s); [exact Hp0|].
  destruct (hours24 (clock s) >=? 12); exact Hp0.
Qed.

(** X19 -- mode 1 draws on byte-row 0 only: the hours, the colon on
    even seconds, the two minutes digits and a prefix of the two seconds
    digits; no blit starts on row 1 (the 16-pixel digits reach the lower
    module through their second byte-row). *)
Theorem mode1_blits_upper_row_only (F : Fonts) (s : State) :
  exists B t0,
    composed s B (displayTimeLarge F s) /\
    isPrefix t0 (sprintf_02d (seconds (clock s))) /\
    (forall row,
        textOf row B
        = if row =? 0
          then (hoursText s ++ (if showDots s then ":" else "")
                  ++ sprintf_02d (minutes (clock s)) ++ t0)%string
          else EmptyString).
Proof.
  destruct (displayTimeLarge_trace F s) as [B [t0 [HB [Hp Hr]]]].
  exists B, t0. split; [exact HB | split; [exact Hp | exact Hr]].
Qed.

(** X20 -- mode 2 always passes the whole date to the blitter.  Row 0
    is the hours, the colon on even seconds, the two minutes digits and a
    prefix of the two seconds digits; row 1 is every character of the
    text [formatDate] gives, whose loop has no guard: what does not fit
    is left to the blitter's clipping. *)
Theorem mode2_shows_whole_date (F : Fonts) (s : State) :
  exists B t0,
    composed s B (displayTimeAndDate F s) /\
    isPrefix t0 (sprintf_02d (seconds (clock s))) /\
    textOf 0 B
    = (hoursText s ++ (if showDots s then ":" else "")
         ++ sprintf_02d (minutes (clock s)) ++ t0)%string /\
    textOf 1 B = formatDate s (day (clock s)) (month (clock s)) (year (clock s)).
Proof.
  destruct (displayTimeAndDate_trace F s) as [B [t0 [HB [Hp [H0 H1]]]]].
  exists B, t0. repeat split; assumption.
Qed.

(** X21 -- when hiding the colon shifts nothing.  In each mode the
    column at which the minutes start is the same on an even second
    (colon drawn) and on an odd second (a step of two columns instead)
    exactly when the colon glyph of the mode's table is one column wide:
    [font3x7] in mode 0, [digits5x16rn] in mode 1, [digits5x8rn] in
    mode 2. *)
Theorem colon_fixed_iff_unit_colon (F : Fonts) (s : State) (evenSec oddSec : Z) :
  Z.rem evenSec 2 = 0 -> Z.rem oddSec 2 <> 0 ->
  (fst (displayTimeAndTemp_toColon F (setSeconds evenSec s))
   = fst (displayTimeAndTemp_toColon F (setSeconds oddSec s))
   <-> advance (code ":") (font3x7 F) = 1) /\
  (fst (displayTimeLarge_toColon F (setSeconds evenSec s))
   = fst (displayTimeLarge_toColon F (setSeconds oddSec s))
   <-> advance (code ":") (digits5x16rn F) = 1) /\
  (fst (displayTimeAndDate_toColon F (setSeconds evenSec s))
   = fst (displayTimeAndDate_toColon F (setSeconds oddSec s))
   <-> advance (code ":") (digits5x8rn F) = 1).
Proof. intros He Ho. exact (colon_block_columns F s evenSec oddSec He Ho). Qed.

(** X21 on the sample tables, whose colons are one column wide, at
    seconds 30 and 31. *)
Lemma colon_fixed_iff_unit_colon_sample :
  (Z.rem 30 2 = 0 /\ Z.rem 31 2 <> 0) /\
  (fst (displayTimeAndTemp_toColon sampleFonts (setSeconds 30 (mode0Scenario 0)))
   = fst (displayTimeAndTemp_toColon sampleFonts (setSeconds 31 (mode0Scenario 0)))
   <-> advance (code ":") (font3x7 sampleFonts) = 1) /\
  (fst (displayTimeLarge_toColon sampleFonts (setSeconds 30 (mode0Scenario 0)))
   = fst (displayTimeLarge_toColon sampleFonts (setSeconds 31 (mode0Scenario 0)))
   <-> advance (code ":") (digits5x16rn sampleFonts) = 1) /\
  (fst (displayTimeAndDate_toColon sampleFonts (setSeconds 30 (mode0Scenario 0)))
   = fst (displayTimeAndDate_toColon sampleFonts (setSeconds 31 (mode0Scenario 0)))
   <-> advance (code ":") (digits5x8rn sampleFonts) = 1).
Proof.
  assert (H1 : Z.rem 30 2 = 0) by reflexivity.
  assert (H2 : Z.rem 31 2 <> 0) by (vm_compute; discriminate).
  split; [split; assumption|].
  apply (colon_fixed_iff_unit_colon sampleFonts (mode0Scenario 0) 30 31 H1 H2).
Defined.

(** A colon three columns wide moves the minutes by two columns. *)
Example colon_shift_wide_colon :
  let F := mkFonts sample5x8 sample5x16 sample3x5 (fontTable 3 7 58 [(3, [0; 0x24; 0])]) in
  fst (displayTimeAndTemp_toColon F (setSeconds 30 (mode0Scenario 0))) = 5 /\
  fst (displayTimeAndTemp_toColon F (setSeconds 31 (mode0Scenario 0))) = 3.
Proof. split; vm_compute; reflexivity. Qed.

(** *** The date text *)

Lemma sprintf_02d_length (n : Z) :
  0 <= n < 100 -> String.length (sprintf_02d n) = 2%nat.
Proof.
  intros Hn.
  assert (Hall : forallb (fun k => Nat.eqb (String.length (sprintf_02d k)) 2) (upto 100)
                 = true) by (vm_compute; reflexivity).
  rewrite forallb_forall in Hall. apply Nat.eqb_eq. apply Hall. now apply in_upto.
Qed.

Lemma sprintf_04d_length (n : Z) :
  0 <= n < 10000 -> String.length (sprintf_04d n) = 4%nat.
Proof.
  intros Hn.
  assert (Hall : forallb (fun k => Nat.eqb (String.length (sprintf_04d k)) 4) (upto 10000)
                 = true) by (vm_compute; reflexivity).
  rewrite forallb_forall in Hall. apply Nat.eqb_eq. apply Hall. now apply in_upto.
Qed.

Lemma string_length_app (a b : string) :
  String.length (a ++ b) = (String.length a + String.length b)%nat.
Proof. induction a as [|c a IH]; [reflexivity|]. cbn. now rewrite IH. Qed.

Lemma substring_all (t : string) :
  forall n, (String.length t <= n)%nat -> String.substring 0 n t = t.
Proof.
  induction t as [|c t IH]; intros n Hn.
  - destruct n; reflexivity.
  - destruct n as [|n]; [cbn in Hn; lia|]. cbn. rewrite IH; [reflexivity|]. cbn in Hn. lia.
Qed.

Lemma substring_length_le (t : string) :
  forall n, (String.length (String.substring 0 n t) <= n)%nat.
Proof.
  induction t as [|c t IH]; intros n.
  - destruct n; cbn; lia.
  - destruct n as [|n]; [cbn; lia|]. cbn. specialize (IH n). lia.
Qed.

(** X22 -- the length of the date text.  [formatDate] never gives more
    than 31 characters.  For a day of 1..31, a month of 1..12 and a year
    of 0..9999 the text is 8 characters long in formats 0 and 1 and in
    the fallback used for a format outside 0..4, and 10 characters long
    in formats 2, 3 and 4. *)
Theorem formatDate_length (s : State) (d m y : Z) :
  (String.length (formatDate s d m y) <= 31)%nat /\
  (1 <= d <= 31 -> 1 <= m <= 12 -> 0 <= y <= 9999 ->
   String.length (formatDate s d m y)
   = if (dateFormat s =? 2) || (dateFormat s =? 3) || (dateFormat s =? 4)
     then 10%nat else 8%nat).
Proof.
  split; [apply substring_length_le|].
  intros Hd Hm Hy.
  assert (H2d : String.length (sprintf_02d d) = 2%nat) by (apply sprintf_02d_length; lia).
  assert (H2m : String.length (sprintf_02d m) = 2%nat) by (apply sprintf_02d_length; lia).
  assert (H2y : String.length (sprintf_02d (Z.rem y 100)) = 2%nat).
  { apply sprintf_02d_length. apply Z.rem_bound_pos; lia. }
  assert (H4y : String.length (sprintf_04d y) = 4%nat) by (apply sprintf_04d_length; lia).
  unfold formatDate, snprintf. cbv zeta.
  assert (Hcase : forall t n, String.length t = n -> (n <= 31)%nat ->
            String.length (String.substring 0 (32 - 1) t) = n).
  { intros t n Ht Hn. rewrite substring_all; [exact Ht|]. cbn. lia. }
  destruct (dateFormat s) as [|p|p]; cbn [Z.eqb orb].
  - apply Hcase; [|lia]. rewrite !string_length_app, H2d, H2m, H2y. reflexivity.
  - destruct p as [[q|q|]|[q|[q|q|]|]|]; cbn [Pos.eqb orb];
      (apply Hcase; [|lia]);
      rewrite !string_length_app, ?H2d, ?H2m, ?H2y, ?H4y; reflexivity.
  - apply Hcase; [|lia]. rewrite !string_length_app, H2d, H2m, H2y. reflexivity.
Qed.

(** X22 on 5 January 2026 in the ISO format. *)
Lemma formatDate_length_sample :
  (String.length (formatDate (mode0Scenario 0) 5 1 2026) <= 31)%nat /\
  (1 <= 5 <= 31 -> 1 <= 1 <= 12 -> 0 <= 2026 <= 9999 ->
   String.length (formatDate (mode0Scenario 0) 5 1 2026)
   = if (dateFormat (mode0Scenario 0) =? 2) || (dateFormat (mode0Scenario 0) =? 3)
        || (dateFormat (mode0Scenario 0) =? 4)
     then 10%nat else 8%nat).
Proof. exact (formatDate_length (mode0Scenario 0) 5 1 2026). Defined.

(** The five formats on 5 January 2026. *)
Example formatDate_samples :
  map (fun f => formatDate (set_dateFormat f initialState) 5 1 2026) [0; 1; 2; 3; 4; 9]
  = ["05/01/26"; "01/05/26"; "2026-01-05"; "05.01.2026"; "01.05.2026"; "05/01/26"]%string.
Proof. vm_compute. reflexivity. Qed.

(** ** The panel trace of a pass *)

Lemma ledOps_ext (s u : State) (x y : Z) (lit : bool) :
  style u = style s -> tftWidth u = tftWidth s -> tftHeight u = tftHeight s ->
  ledOps u x y lit = ledOps s x y lit.
Proof.
  intros Hs Hw Hh. unfold ledOps, cellLeft, cellTop. rewrite Hs, Hw, Hh. reflexivity.
Qed.


Lemma traced_start (s u : State) :
  style u = style s -> tftWidth u = tftWidth s -> tftHeight u = tftHeight s ->
  ledCalls u = ledCalls s -> tft u = tft s -> traced s u.
Proof.
  intros Hs Hw Hh Hc Ht. repeat split; try assumption.
  exists []. cbn [flat_map]. rewrite !app_nil_r. split; assumption.
Qed.

Lemma traced_call (s u : State) (x y : Z) (lit : bool) :
  traced s u -> traced s (call_drawLEDPixel x y lit u).
Proof.
  intros [Hs [Hw [Hh [calls [Hc Ht]]]]].
  unfold call_drawLEDPixel. rewrite drawLEDPixel_ops.
  set (u' := set_ledCalls (ledCalls u ++ [(x, y, lit)]) u).
  rewrite (ledOps_ext s u' x y lit Hs Hw Hh).
  repeat split; try assumption.
  exists (calls ++ [(x, y, lit)]). split.
  - unfold emits, u'. cbn [ledCalls set_tft set_ledCalls].
    rewrite Hc, app_assoc. reflexivity.
  - unfold emits, u'. cbn [tft set_tft set_ledCalls].
    rewrite Ht, flat_map_app. cbn [flat_map pixelOps fst snd].
    rewrite app_nil_r, app_assoc. reflexivity.
Qed.

Lemma traced_firstRun (s u : State) (fr : bool) :
  traced s u -> traced s (set_firstRun fr u).
Proof. intros H. exact H. Qed.

Lemma traced_lastScr (s u : State) (L : Mem) :
  traced s u -> traced s (set_lastScr L u).
Proof. intros H. exact H. Qed.

Lemma refreshAll_traced (s : State) : traced s (refreshAll s).
Proof.
  unfold refreshAll. cbv zeta.
  apply traced_firstRun.
  apply (for_range_preserves (traced s)).
  { destruct (forceFullRedraw s); apply traced_start; reflexivity. }
  intros row u _ Hu.
  apply (for_range_preserves (traced s)); [exact Hu|].
  intros displayX v _ Hv.
  destruct ((_ >=? 0) && (_ <? _)); [|exact Hv].
  destruct (firstRun v || _); [|exact Hv].
  apply (for_range_preserves (traced s)); [now apply traced_lastScr|].
  intros bitPos w _ Hw. now apply traced_call.
Qed.

(** X23 -- the panel receives the calls of the recorded pixels, in
    order.  A pass appends to the panel log exactly the driver calls of
    the pixel calls it records, each pixel's calls next to each other,
    and never removes or reorders what was logged before. *)
Theorem refreshAll_panel_trace (s : State) :
  exists calls,
    ledCalls (refreshAll s) = ledCalls s ++ calls /\
    tft (refreshAll s) = tft s ++ flat_map (pixelOps s) calls.
Proof. destruct (refreshAll_traced s) as [_ [_ [_ H]]]. exact H. Qed.

(** ** The style handler *)



(** X25 -- the display style stays 0 or 1.  From a style of 0 or 1
    the handler leaves 0 or 1: a [mode=toggle] request gives the other
    one, whatever colour arguments come with it, and every other request
    keeps it. *)
Theorem handleStyle_displayStyle (F : Fonts) (req : StyleRequest) (s : State) :
  0 <= displayStyle (style s) <= 1 ->
  let d := displayStyle (style (handleStyle F req s)) in
  0 <= d <= 1 /\
  d = if match arg_mode req with Some m => String.eqb m "toggle" | None => false end
      then 1 - displayStyle (style s) else displayStyle (style s).
Proof.
  intros Hd. cbv zeta. rewrite handleStyle_style. cbv zeta.
  assert (Ht : displayStyle (styleToggle (style s)) = 1 - displayStyle (style s)).
  { unfold styleToggle. cbn [displayStyle].
    assert (Hc : displayStyle (style s) = 0 \/ displayStyle (style s) = 1) by lia.
    destruct Hc as [-> | ->]; reflexivity. }
  assert (Hl : forall i st, displayStyle (styleLedColor i st) = displayStyle st).
  { intros i st. reflexivity. }
  assert (Hs : forall i st, displayStyle (styleSurroundColor i st) = displayStyle st).
  { intros i st. unfold styleSurroundColor.
    destruct i as [|p|p]; try reflexivity.
    do 3 (destruct p as [p|p|]; try reflexivity). }
  destruct (arg_mode req) as [m|]; [destruct (String.eqb m "toggle")|];
    destruct (arg_ledcolor req); destruct (arg_surroundcolor req);
    rewrite ?Hs, ?Hl, ?Ht; lia.
Qed.

(** X25 on the start state, which is in the realistic style, and a
    request that toggles the style and sets both colours. *)
Lemma handleStyle_displayStyle_sample :
  (0 <= displayStyle (style initialState) <= 1) /\
  (let d := displayStyle
              (style (handleStyle sampleFonts
                        (mkStyleRequest (Some "toggle"%string) (Some 2) (Some 7))
                        initialState)) in
   0 <= d <= 1 /\
   d = if match arg_mode (mkStyleRequest (Some "toggle"%string) (Some 2) (Some 7)) with
          | Some m => String.eqb m "toggle"
          | None => false
          end
       then 1 - displayStyle (style initialState) else displayStyle (style initialState)).
Proof.
  assert (H : 0 <= displayStyle (style initialState) <= 1) by (cbn; lia).
  split; [exact H|].
  apply (handleStyle_displayStyle sampleFonts
           (mkStyleRequest (Some "toggle"%string) (Some 2) (Some 7)) initialState H).
Defined.

(** ** The unit and format toggles *)

(** X26 -- the toggles.  [/temperature] and [/timeformat] change their
    one flag and nothing else of the display state: the frame buffer, the panel and the
    traces are untouched, so the display follows at the next
    recomposition.  The same request sent twice restores the state, and
    a request whose [mode] is missing or is not [toggle] changes
    nothing. *)
Theorem toggles_flip_one_flag (mode : option string) (s : State) :
  let toggles := match mode with Some m => String.eqb m "toggle" | None => false end in
  handleTemperature mode s
  = (if toggles
     then set_sensor
            (mkSensor (sensorAvailable (sensor s)) (temperature (sensor s))
               (humidity (sensor s)) (negb (useFahrenheit (sensor s)))) s
     else s) /\
  handleTimeformat mode s
  = (if toggles then set_use24HourFormat (negb (use24HourFormat s)) s else s) /\
  handleTemperature mode (handleTemperature mode s) = s /\
  handleTimeformat mode (handleTimeformat mode s) = s /\
  handleTimeformat mode (handleTemperature mode s)
  = handleTemperature mode (handleTimeformat mode s).
Proof.
  cbv zeta. unfold handleTemperature, handleTimeformat.
  destruct mode as [m|]; [destruct (String.eqb m "toggle")|];
    repeat split; try reflexivity.
  - destruct s as [? ? ? ? ? ? ? ? ? [a t h f] ? ? ? ? ? ?]. cbn.
    rewrite negb_involutive. reflexivity.
  - destruct s. cbn. rewrite negb_involutive. reflexivity.
Qed.

(** ** The scheduler *)

(** A pass after a composition leaves the clock, the settings and the
    mode as they are, and adds the composition's blits. *)
Lemma recompose_fields (F : Fonts) (s : State) :
  let u := refreshAll (displayCurrentMode F s) in
  clock u = clock s /\ currentMode u = currentMode s /\
  exists B, blits u = blits s ++ B.
Proof.
  cbv zeta.
  destruct (displayCurrentMode_composed F s) as [B HB].
  destruct (composed_inputs _ _ _ HB) as [Hc [_ [_ [_ Hb]]]].
  destruct (composed_settings _ _ _ HB) as [_ [_ Hm]].
  destruct (refreshAll_writes (displayCurrentMode F s)) as [L [fr [ff [t [calls Hw]]]]].
  rewrite Hw. cbn [clock currentMode blits set_lastScr set_firstRun set_forceFullRedraw
                     set_tft set_ledCalls].
  split; [exact Hc | split; [exact Hm | now exists B]].
Qed.

(** X27 -- the 12-hour value.  For an hour of 0..23 the scheduler's
    12-hour value is one of 1..12: 12 at midnight and at noon, the hour
    itself in the morning and the hour less 12 in the afternoon; the
    24-hour value is the hour, the month is counted from 1 and the year
    from 1900. *)
Theorem clockOfTm_twelve_hour (tm : Tm) :
  0 <= tm_hour tm < 24 ->
  let c := clockOfTm tm in
  1 <= hours c <= 12 /\
  hours c = (if tm_hour tm =? 0 then 12
             else if tm_hour tm <=? 12 then tm_hour tm else tm_hour tm - 12) /\
  hours24 c = tm_hour tm /\ minutes c = tm_min tm /\ seconds c = tm_sec tm /\
  day c = tm_mday tm /\ month c = tm_mon tm + 1 /\ year c = tm_year tm + 1900.
Proof.
  intros Hh. cbv zeta. unfold clockOfTm. cbv zeta. cbn [hours hours24 minutes seconds day
                                                       month year].
  assert (Hall : forallb
                   (fun h =>
                      let v := if Z.rem h 12 =? 0 then 12 else Z.rem h 12 in
                      (1 <=? v) && (v <=? 12)
                      && (v =? (if h =? 0 then 12 else if h <=? 12 then h else h - 12)))
                   (upto 24) = true) by (vm_compute; reflexivity).
  rewrite forallb_forall in Hall. specialize (Hall (tm_hour tm) (proj2 (in_upto 24 _) Hh)).
  cbv zeta in Hall.
  apply andb_true_iff in Hall. destruct Hall as [Hall H3].
  apply andb_true_iff in Hall. destruct Hall as [H1 H2].
  apply Z.leb_le in H1. apply Z.leb_le in H2. apply Z.eqb_eq in H3.
  repeat split; try assumption; reflexivity.
Qed.

(** X27 at 14:07:30 on 5 January 2026. *)
Lemma clockOfTm_twelve_hour_sample :
  (0 <= tm_hour (mkTm 14 7 30 5 0 126) < 24) /\
  (let c := clockOfTm (mkTm 14 7 30 5 0 126) in
   1 <= hours c <= 12 /\
   hours c = (if tm_hour (mkTm 14 7 30 5 0 126) =? 0 then 12
              else if tm_hour (mkTm 14 7 30 5 0 126) <=? 12
                   then tm_hour (mkTm 14 7 30 5 0 126)
                   else tm_hour (mkTm 14 7 30 5 0 126) - 12) /\
   hours24 c = tm_hour (mkTm 14 7 30 5 0 126) /\
   minutes c = tm_min (mkTm 14 7 30 5 0 126) /\
   seconds c = tm_sec (mkTm 14 7 30 5 0 126) /\
   day c = tm_mday (mkTm 14 7 30 5 0 126) /\
   month c = tm_mon (mkTm 14 7 30 5 0 126) + 1 /\
   year c = tm_year (mkTm 14 7 30 5 0 126) + 1900).
Proof.
  assert (H : 0 <= tm_hour (mkTm 14 7 30 5 0 126) < 24) by (cbn; lia).
  split; [exact H|].
  apply (clockOfTm_twelve_hour (mkTm 14 7 30 5 0 126) H).
Defined.

(** X28 -- when the scheduler draws nothing.  Before the system time is
    set (a time below 24 hours) [updateTime] changes nothing at all, not
    even the mode.  With the time set, in a second that was already
    drawn it updates the clock variables but composes nothing and runs
    no pass: frame buffer, shadow, panel and traces are as before. *)
Theorem updateTime_idle (F : Fonts) (now : Z) (tm : Tm) (millis1 millis2 : Z) (k : Sched) :
  let k' := updateTime F now tm millis1 millis2 k in
  (now < 24 * 3600 -> k' = k) /\
  (24 * 3600 <= now -> tm_sec tm = lastSecond k ->
   clock (st k') = clockOfTm tm /\ lastSecond k' = lastSecond k /\
   scr (st k') = scr (st k) /\ lastScr (st k') = lastScr (st k) /\
   tft (st k') = tft (st k) /\ ledCalls (st k') = ledCalls (st k) /\
   blits (st k') = blits (st k)).
Proof.
  cbv zeta. unfold updateTime. split.
  - intros Hn. destruct (Z.ltb_spec now (24 * 3600)); [reflexivity | lia].
  - intros Hn Hs. destruct (Z.ltb_spec now (24 * 3600)); [lia|].
    cbv zeta. cbn [seconds clock set_clock clockOfTm].
    rewrite Hs, Z.eqb_refl. cbn [negb st lastSecond lastModeSwitch modeSwitchInterval].
    match goal with |- context [if ?c then _ else _] => destruct c end;
      cbn [st lastSecond]; repeat split.
Qed.

(** X29 -- a new second is drawn at once.  With the time set, in a
    second other than the last one drawn, [updateTime] stores the new
    clock values, composes the current mode (the mode before any switch
    in the same call) and runs a pass: afterwards the second counts as
    drawn, the shadow equals the frame buffer and both refresh flags are
    clear. *)
Theorem updateTime_new_second (F : Fonts) (now : Z) (tm : Tm) (millis1 millis2 : Z)
        (k : Sched) :
  24 * 3600 <= now -> tm_sec tm <> lastSecond k ->
  let k' := updateTime F now tm millis1 millis2 k in
  let drawn := refreshAll (displayCurrentMode F (set_clock (clockOfTm tm) (st k))) in
  lastSecond k' = tm_sec tm /\
  clock (st k') = clockOfTm tm /\
  scr (st k') = scr drawn /\ tft (st k') = tft drawn /\ blits (st k') = blits drawn /\
  (exists B, blits (st k') = blits (st k) ++ B) /\
  (forall c, 0 <= c < LINE_WIDTH * DISPLAY_ROWS -> lastScr (st k') c = scr (st k') c) /\
  firstRun (st k') = false /\ forceFullRedraw (st k') = false.
Proof.
  intros Hn Hs. cbv zeta. unfold updateTime.
  destruct (Z.ltb_spec now (24 * 3600)); [lia|].
  cbv zeta. cbn [seconds clock set_clock clockOfTm].
  destruct (Z.eqb_spec (tm_sec tm) (lastSecond k)); [contradiction|].
  cbn [negb st lastSecond lastModeSwitch modeSwitchInterval].
  set (s1 := set_clock (clockOfTm tm) (st k)).
  destruct (recompose_fields F s1) as [Hc [_ [B HB]]].
  destruct (refreshAll_post (displayCurrentMode F s1)) as [Hff [Hfr Hsync]].
  change (clock s1) with (clockOfTm tm) in Hc.
  change (blits s1) with (blits (st k)) in HB.
  revert Hc HB Hff Hfr Hsync.
  generalize (refreshAll (displayCurrentMode F s1)). intros drawn Hc HB Hff Hfr Hsync.
  match goal with |- context [if ?c then _ else _] => destruct c end;
    cbn [st lastSecond scr lastScr tft blits clock firstRun forceFullRedraw set_currentMode];
    (split; [reflexivity|]; split; [exact Hc|]; split; [reflexivity|];
     split; [reflexivity|]; split; [reflexivity|];
     split; [exists B; exact HB|]; split; [exact Hsync|]; split; [exact Hfr | exact Hff]).
Qed.

(** X29 on the first call after start, at 14:07:30. *)
Lemma updateTime_new_second_sample :
  (24 * 3600 <= 1767622050 /\ tm_sec (mkTm 14 7 30 5 0 126) <> lastSecond initialSched) /\
  (let k' := updateTime sampleFonts 1767622050 (mkTm 14 7 30 5 0 126) 1000 1001 initialSched in
   let drawn :=
     refreshAll (displayCurrentMode sampleFonts
                   (set_clock (clockOfTm (mkTm 14 7 30 5 0 126)) (st initialSched))) in
   lastSecond k' = tm_sec (mkTm 14 7 30 5 0 126) /\
   clock (st k') = clockOfTm (mkTm 14 7 30 5 0 126) /\
   scr (st k') = scr drawn /\ tft (st k') = tft drawn /\ blits (st k') = blits drawn /\
   (exists B, blits (st k') = blits (st initialSched) ++ B) /\
   (forall c, 0 <= c < LINE_WIDTH * DISPLAY_ROWS -> lastScr (st k') c = scr (st k') c) /\
   firstRun (st k') = false /\ forceFullRedraw (st k') = false).
Proof.
  assert (H1 : 24 * 3600 <= 1767622050) by lia.
  assert (H2 : tm_sec (mkTm 14 7 30 5 0 126) <> lastSecond initialSched) by (cbn; lia).
  split; [split; assumption|].
  apply (updateTime_new_second sampleFonts 1767622050 (mkTm 14 7 30 5 0 126) 1000 1001
           initialSched H1 H2).
Defined.

(** X30 -- the mode rotates on elapsed time, also across the wrap of
    the millisecond counter.  Let [elapsed] be the time since the last
    switch, below 2^32 ms, so that the counter reads
    [(lastModeSwitch + elapsed) mod 2^32].  With the time set, a mode of
    0..2 and an interval whose milliseconds fit an [int], [updateTime] moves to the
    next of the three modes and records the second reading of the
    counter exactly when [elapsed] exceeds the interval; otherwise mode
    and record stay.  The mode stays one of 0..2. *)
Theorem updateTime_mode_switch (F : Fonts) (now : Z) (tm : Tm) (elapsed millis2 : Z)
        (k : Sched) :
  24 * 3600 <= now ->
  0 <= currentMode (st k) < 3 ->
  0 <= modeSwitchInterval k * 1000 < 2 ^ 31 ->
  0 <= elapsed < 2 ^ 32 ->
  let millis1 := (lastModeSwitch k + elapsed) mod 2 ^ 32 in
  let k' := updateTime F now tm millis1 millis2 k in
  (if elapsed >? modeSwitchInterval k * 1000
   then currentMode (st k') = (currentMode (st k) + 1) mod 3 /\ lastModeSwitch k' = millis2
   else currentMode (st k') = currentMode (st k) /\ lastModeSwitch k' = lastModeSwitch k) /\
  0 <= currentMode (st k') < 3 /\
  modeSwitchInterval k' = modeSwitchInterval k.
Proof.
  intros Hn Hm Hi He. cbv zeta. unfold updateTime.
  destruct (Z.ltb_spec now (24 * 3600)); [lia|].
  cbv zeta.
  assert (Hel : ((lastModeSwitch k + elapsed) mod 2 ^ 32 - lastModeSwitch k) mod 2 ^ 32
                = elapsed).
  { rewrite Zminus_mod_idemp_l.
    replace (lastModeSwitch k + elapsed - lastModeSwitch k) with elapsed by lia.
    apply Z.mod_small. exact He. }
  assert (Hint : (modeSwitchInterval k * 1000) mod 2 ^ 32 = modeSwitchInterval k * 1000)
    by (apply Z.mod_small; lia).
  set (s1 := set_clock (clockOfTm tm) (st k)).
  destruct (recompose_fields F s1) as [_ [Hmode _]].
  change (currentMode s1) with (currentMode (st k)) in Hmode.
  revert Hmode. generalize (refreshAll (displayCurrentMode F s1)). intros drawn Hmode.
  assert (Hrem : Z.rem (currentMode (st k) + 1) 3 = (currentMode (st k) + 1) mod 3)
    by (apply Z.rem_mod_nonneg; lia).
  pose proof (Z.mod_pos_bound (currentMode (st k) + 1) 3 ltac:(lia)) as Hb.
  destruct (negb (seconds (clock s1) =? lastSecond k));
    cbn [st lastSecond lastModeSwitch modeSwitchInterval];
    rewrite Hel, Hint;
    destruct (elapsed >? modeSwitchInterval k * 1000);
    cbn [st lastModeSwitch modeSwitchInterval currentMode set_currentMode];
    try change (currentMode s1) with (currentMode (st k));
    rewrite ?Hmode, ?Hrem; repeat split; try reflexivity; lia.
Qed.

(** X30 with the counter 1000 ms before its wrap at the last switch and
    5500 ms elapsed: the counter reads 4500 and the mode moves on. *)
Lemma updateTime_mode_switch_sample :
  (24 * 3600 <= 1767622050 /\
   0 <= currentMode (st (mkSched initialState 30 (2 ^ 32 - 1000) 5)) < 3 /\
   0 <= modeSwitchInterval (mkSched initialState 30 (2 ^ 32 - 1000) 5) * 1000 < 2 ^ 31 /\
   0 <= 5500 < 2 ^ 32) /\
  (let k := mkSched initialState 30 (2 ^ 32 - 1000) 5 in
   let millis1 := (lastModeSwitch k + 5500) mod 2 ^ 32 in
   let k' := updateTime sampleFonts 1767622050 (mkTm 14 7 30 5 0 126) millis1 4501 k in
   (if 5500 >? modeSwitchInterval k * 1000
    then currentMode (st k') = (currentMode (st k) + 1) mod 3 /\ lastModeSwitch k' = 4501
    else currentMode (st k') = currentMode (st k) /\ lastModeSwitch k' = lastModeSwitch k) /\
   0 <= currentMode (st k') < 3 /\
   modeSwitchInterval k' = modeSwitchInterval k).
Proof.
  assert (H1 : 24 * 3600 <= 1767622050) by lia.
  assert (H2 : 0 <= currentMode (st (mkSched initialState 30 (2 ^ 32 - 1000) 5)) < 3)
    by (cbn; lia).
  assert (H3 : 0 <= modeSwitchInterval (mkSched initialState 30 (2 ^ 32 - 1000) 5) * 1000
               < 2 ^ 31) by (cbn; lia).
  assert (H4 : 0 <= 5500 < 2 ^ 32) by lia.
  split; [repeat split; first [apply H1 | apply H2 | apply H3 | apply H4]|].
  apply (updateTime_mode_switch sampleFonts 1767622050 (mkTm 14 7 30 5 0 126) 5500 4501
           (mkSched initialState 30 (2 ^ 32 - 1000) 5) H1 H2 H3 H4).
Defined.
